(** * tg-stats: the chat-export analysis engine of [server.jsx]

    A shallow embedding of [analyzeChatLog] and [aggregateMetrics] and the
    properties of the metrics they return.

    Modelling conventions.
    - A JavaScript string is a [string]: a sequence of code units, here the
      code units below 256.  [length], [trim], [toLowerCase], [split],
      [includes], [startsWith], [match] and [parseInt] are written out for
      that range.
    - A JavaScript number holding a count is a [Z].  The counts, sums and
      lengths of this program are integers, exact in a double below 2^53.
    - A plain object used as a counter is a store of own properties kept in
      creation order; [Object.entries] enumerates it as the language says:
      array-index keys first in ascending numeric order, then the other keys
      in creation order.  Members inherited from [Object.prototype] are not
      modelled: a key such as [constructor] or [__proto__] reads the
      inherited member in [o[k] || 0], after which the counter is no number
      any more.  The stores below describe the code on the other keys, and
      every property of a store keyed by sender names or by words is
      stated for the documents in which none of these names or words is
      [inherited] ([plain_names], [plain_words]).  [Object.prototype] is
      taken as the language defines it when the analysis starts; a sender
      named [__proto__] is the one thing in the code that writes into it
      (line 48), which [plain_names] excludes.
    - The hour that [parseInt] reads is taken as the integer that the
      digits denote, which is the code's double below 2^53; the properties
      of the keys of [messagesByHour] are stated for the documents whose
      displayed hours are in that range ([safe_hours]).
    - A [Set] is the list of its elements in insertion order.
    - [DOMParser] and [Date] are not part of the repository.  A document is
      given by what the parser makes of it (the sequence of its [.message]
      elements, each with the results of the queries the code runs on it);
      [Date] is a parameter of the development. *)

From Stdlib Require Import List Bool Arith ZArith NArith Lia.
From Stdlib Require Import Ascii String DecimalString DecimalPos.
From Stdlib Require Import Sorted Permutation.
Import ListNotations.

Local Open Scope string_scope.
Local Open Scope Z_scope.

(** ** String built-ins *)

Module JsString.

Definition code (c : ascii) : N := N_of_ascii c.

Definition in_range (lo hi : N) (c : ascii) : bool :=
  (lo <=? code c)%N && (code c <=? hi)%N.

(** WhiteSpace and LineTerminator code units: TAB, LF, VT, FF, CR, SP, NBSP.
    [trim] strips them and the regular expression class [\s] matches them. *)
Definition is_ws (c : ascii) : bool :=
  in_range 9 13 c || (code c =? 32)%N || (code c =? 160)%N.

Definition is_digit (c : ascii) : bool := in_range 48 57 c.

(** The class [\w]: [A-Za-z0-9_]. *)
Definition is_word (c : ascii) : bool :=
  in_range 65 90 c || in_range 97 122 c || is_digit c || (code c =? 95)%N.

Definition is_empty (s : string) : bool :=
  match s with EmptyString => true | String _ _ => false end.

Fixpoint trim_start (s : string) : string :=
  match s with
  | String c r => if is_ws c then trim_start r else s
  | EmptyString => EmptyString
  end.

Fixpoint trim_end (s : string) : string :=
  match s with
  | String c r =>
      let r' := trim_end r in
      if is_ws c && is_empty r' then EmptyString else String c r'
  | EmptyString => EmptyString
  end.

(** [s.trim()] *)
Definition trim (s : string) : string := trim_end (trim_start s).

Definition lower_char (c : ascii) : ascii :=
  if in_range 65 90 c || (in_range 192 222 c && negb (code c =? 215)%N)
  then ascii_of_N (code c + 32) else c.

(** [s.toLowerCase()] *)
Fixpoint toLowerCase (s : string) : string :=
  match s with
  | String c r => String (lower_char c) (toLowerCase r)
  | EmptyString => EmptyString
  end.

(** [s.startsWith(p)] *)
Definition startsWith (p s : string) : bool := String.prefix p s.

(** [s.includes(p)] *)
Fixpoint includes (p s : string) : bool :=
  String.prefix p s ||
  match s with
  | String _ r => includes p r
  | EmptyString => false
  end.

(** [s.split(sep)] for a separator of one code unit: never empty. *)
Fixpoint split_on (sep : ascii) (s : string) : list string :=
  match s with
  | EmptyString => [EmptyString]
  | String c r =>
      if Ascii.eqb c sep then EmptyString :: split_on sep r
      else match split_on sep r with
           | t :: ts => String c t :: ts
           | [] => [String c EmptyString]
           end
  end.

Definition starts_ws (s : string) : bool :=
  match s with String c _ => is_ws c | EmptyString => false end.

(** [s.split(/\s+/)]: the pieces between maximal runs of white space; a
    leading or trailing run leaves an empty first or last piece. *)
Fixpoint split_ws (s : string) : list string :=
  match s with
  | EmptyString => [EmptyString]
  | String c r =>
      if is_ws c then
        if starts_ws r then split_ws r else EmptyString :: split_ws r
      else match split_ws r with
           | t :: ts => String c t :: ts
           | [] => [String c EmptyString]
           end
  end.

(** The longest prefix of [s] made of characters satisfying [p], and the
    rest. *)
Fixpoint span (p : ascii -> bool) (s : string) : string * string :=
  match s with
  | String c r =>
      if p c then let (a, b) := span p r in (String c a, b)
      else (EmptyString, s)
  | EmptyString => (EmptyString, EmptyString)
  end.

(** [s.match(/@[\w]+/g)] (the empty list stands for [null]): the matches
    from left to right, each the at sign and the longest run of word
    characters after it.  A word character is never an at sign, so the
    scan that continues behind the at sign finds the same matches as the
    one that continues behind the match. *)
Fixpoint match_mentions (s : string) : list string :=
  match s with
  | String c r =>
      if Ascii.eqb c "@" then
        match fst (span is_word r) with
        | EmptyString => match_mentions r
        | w => String "@" w :: match_mentions r
        end
      else match_mentions r
  | EmptyString => []
  end.

(** [s.match(/\d+/)?.[0]]: the first run of digits of [s]. *)
Fixpoint match_digits (s : string) : option string :=
  match s with
  | String c r =>
      if is_digit c then Some (fst (span is_digit s)) else match_digits r
  | EmptyString => None
  end.

Definition digit_val (c : ascii) : option Z :=
  if is_digit c then Some (Z.of_N (code c) - 48) else None.

Definition hex_val (c : ascii) : option Z :=
  if is_digit c then Some (Z.of_N (code c) - 48)
  else if in_range 97 102 c then Some (Z.of_N (code c) - 87)
  else if in_range 65 70 c then Some (Z.of_N (code c) - 55)
  else None.

(** The value of the longest prefix of digits of [s], [None] when that
    prefix is empty. *)
Fixpoint read_digits (val : ascii -> option Z) (radix : Z) (s : string)
         (acc : Z) (seen : bool) : option Z :=
  match s with
  | String c r =>
      match val c with
      | Some d => read_digits val radix r (acc * radix + d) true
      | None => if seen then Some acc else None
      end
  | EmptyString => if seen then Some acc else None
  end.

(** [parseInt(s)] without a radix; [None] is [NaN].  Leading white space
    is skipped, one sign is read, a [0x] or [0X] prefix selects radix 16,
    and the digits stop at the first character that is none.  The result
    is the integer that the digits denote.  The code's result is a double:
    it is this integer when its magnitude is below 2^53, the range of
    [safe_integer]; beyond, the double is a rounded value or [Infinity],
    and the properties about hours assume the range. *)
Definition parseInt (s : string) : option Z :=
  let s1 := trim_start s in
  let '(sign, s2) :=
    match s1 with
    | String c r =>
        if Ascii.eqb c "-" then (-1, r)
        else if Ascii.eqb c "+" then (1, r) else (1, s1)
    | EmptyString => (1, s1)
    end in
  let hex :=
    match s2 with
    | String c0 (String c1 r) =>
        if Ascii.eqb c0 "0" && (Ascii.eqb c1 "x" || Ascii.eqb c1 "X")
        then Some r else None
    | _ => None
    end in
  option_map (Z.mul sign)
    match hex with
    | Some r => read_digits hex_val 16 r 0 false
    | None => read_digits digit_val 10 s2 0 false
    end.

(** 2^53 - 1 is the largest magnitude of the integers that a double holds
    together with all the integers between them. *)
Definition safe_integer (n : Z) : bool := Z.abs n <? 2 ^ 53.

(** [String(n)] for an integer [n]: the property key that the number [n]
    becomes.  It is the decimal numeral of [n] for a [safe_integer] (the
    language turns to exponent notation from 10^21). *)
Definition of_Z (n : Z) : string := NilZero.string_of_int (Z.to_int n).

(** [String(x)] where [x] is a string or [undefined]. *)
Definition or_undefined (x : option string) : string :=
  match x with Some s => s | None => "undefined" end.

(** [String.length] as a number. *)
Definition len (s : string) : Z := Z.of_nat (String.length s).

End JsString.

Import JsString.

(** ** Plain objects, sets and array sorting *)

Module JsObject.

(** The own properties of an object, in creation order. *)
Definition t (V : Type) : Type := list (string * V).

Fixpoint lookup {V} (k : string) (o : t V) : option V :=
  match o with
  | [] => None
  | (k', v) :: r => if String.eqb k' k then Some v else lookup k r
  end.

(** [o[k] = v]: an existing property keeps its place, a new one is
    created last. *)
Fixpoint set {V} (k : string) (v : V) (o : t V) : t V :=
  match o with
  | [] => [(k, v)]
  | (k', v') :: r =>
      if String.eqb k' k then (k', v) :: r else (k', v') :: set k v r
  end.

(** The names of the properties that every plain object inherits from
    [Object.prototype], as the language defines it (Annex B included).
    Under a key that is none of them [o[k]] is the own property of [o] or
    [undefined], and [o[k] = v] creates or updates the own property.  Under
    one of them the code does something else: [o[k]] of a fresh object is
    the inherited member, so that [(o[k] || 0) + c] is a string, and an
    assignment to [__proto__] creates no own property.  The stores of this
    development describe the code under the keys that are not
    [inherited]; the properties that depend on it say so. *)
Definition prototype_members : list string :=
  ["constructor"; "hasOwnProperty"; "isPrototypeOf"; "propertyIsEnumerable";
   "toLocaleString"; "toString"; "valueOf"; "__proto__";
   "__defineGetter__"; "__defineSetter__"; "__lookupGetter__";
   "__lookupSetter__"].

Definition inherited (k : string) : bool :=
  existsb (String.eqb k) prototype_members.

(** The count that [o] holds under [k]: its own property [k], and 0 when
    it has none.  For a key [k] that is not [inherited] this is
    [o[k] || 0]. *)
Definition get0 (k : string) (o : t Z) : Z :=
  match lookup k o with Some v => v | None => 0 end.

(** [o[k] = (o[k] || 0) + c], for a key [k] that is not [inherited]. *)
Definition bump (k : string) (c : Z) (o : t Z) : t Z :=
  set k (get0 k o + c) o.

(** An array index is the canonical decimal numeral of an integer from 0
    to 2^32 - 2. *)
Definition array_index (k : string) : option Z :=
  match k with
  | EmptyString => None
  | String c r =>
      if forallb is_digit (list_ascii_of_string k)
         && (is_empty r || negb (Ascii.eqb c "0"))
         && (String.length k <=? 10)%nat
      then match read_digits digit_val 10 k 0 false with
           | Some n => if n <=? 4294967294 then Some n else None
           | None => None
           end
      else None
  end.

Definition is_index (k : string) : bool :=
  match array_index k with Some _ => true | None => false end.

Definition index_of (k : string) : Z :=
  match array_index k with Some n => n | None => 0 end.

Fixpoint insert_index {V} (e : string * V) (l : list (string * V)) :=
  match l with
  | [] => [e]
  | y :: r =>
      if index_of (fst y) <? index_of (fst e)
      then y :: insert_index e r else e :: l
  end.

(** [Object.entries(o)]: the array-index keys in ascending numeric order,
    then the other keys in creation order. *)
Definition entries {V} (o : t V) : list (string * V) :=
  fold_right insert_index [] (filter (fun e => is_index (fst e)) o)
  ++ filter (fun e => negb (is_index (fst e))) o.

(** [Object.keys(o)] *)
Definition keys {V} (o : t V) : list string := map fst (entries o).

End JsObject.

Import JsObject.

Abbreviation counter := (JsObject.t Z).

Module JsSet.

(** A [Set] of strings: its elements in insertion order. *)
Definition t : Type := list string.

Definition has (x : string) (s : t) : bool := existsb (String.eqb x) s.

(** [s.add(x)] *)
Definition add (x : string) (s : t) : t :=
  if has x s then s else (s ++ [x])%list.

Definition add_all (l : list string) (s : t) : t :=
  fold_left (fun s x => add x s) l s.

(** [s.size] *)
Definition size (s : t) : Z := Z.of_nat (List.length s).

End JsSet.

Module JsArray.

Fixpoint insert_desc (x : string * Z) (l : list (string * Z)) :=
  match l with
  | [] => [x]
  | y :: r => if snd x <? snd y then y :: insert_desc x r else x :: l
  end.

(** [a.sort(([,a], [,b]) => b - a)]: the stable sort of the pairs by
    decreasing count. *)
Definition sort_desc (l : list (string * Z)) : list (string * Z) :=
  fold_right insert_desc [] l.

Fixpoint insert_string (x : string) (l : list string) :=
  match l with
  | [] => [x]
  | y :: r => if String.ltb y x then y :: insert_string x r else x :: l
  end.

(** [a.sort()] on strings: ascending by code units. *)
Definition sort_strings (l : list string) : list string :=
  fold_right insert_string [] l.

(** [a.slice(0, n)] *)
Definition slice0 {A} (n : nat) (l : list A) : list A := firstn n l.

(** [a.reduce((a, b) => a + b, 0)] *)
Definition sum (l : list Z) : Z := fold_left Z.add l 0.

(** [a.length > 0 ? Math.round(sum / a.length) : 0].  For a sum [s >= 0]
    of [n > 0] numbers, [Math.round(s / n)] is the floor of [s/n + 1/2]. *)
Definition rounded_mean (l : list Z) : Z :=
  let n := Z.of_nat (List.length l) in
  if 0 <? n then (2 * sum l + n) / (2 * n) else 0.

End JsArray.

Import JsArray.

(** ** Documents *)

Module Dom.

(** The element selected by [.date.details]: its [title] attribute and
    its text content. *)
Record DateDetails := {
  title : option string;
  time_text : string
}.

(** A [.message] element, by the results of the queries made on it. *)
Record Message := {
  is_default : bool;                 (* classList.contains('default') *)
  is_service : bool;                 (* classList.contains('service') *)
  from_name : option string;         (* text of the first .from_name *)
  date_details : option DateDetails; (* the first .date.details *)
  body_details : option string;      (* text of the first .body.details *)
  text : option string;              (* text of the first .text *)
  reactions : nat;                   (* number of .reaction elements *)
  anchors : list (option string);    (* href attribute of every a *)
  reply_onclick : option string      (* onclick attribute of the first a
                                        of the first .reply_to, when the
                                        three of them exist *)
}.

(** One entry of [fileContents]: the [.message] elements of the parsed
    markup in document order, or the fact that handling it raises. *)
Inductive Content :=
| Markup (messages : list Message)
| Unparseable.

End Dom.

Import Dom.

(** ** The metrics records *)

Module PerDoc.

(** The object returned by [analyzeChatLog]. *)
Record t := {
  totalMessages : Z;
  userMessages : Z;
  serviceMessages : Z;
  uniqueUsers : Z;
  messagesByUser : counter;
  messagesByHour : counter;
  messagesByDayOfWeek : counter;
  messagesByDate : counter;
  userMessagesByDate : JsObject.t counter;
  reactionsByUser : counter;
  datesCovered : list string;
  averageMessageLength : Z;
  messageLengthDistribution : list Z;
  topWords : list (string * Z);
  topMentions : list (string * Z);
  uniqueLinks : list string;
  userTypes : list string;
  longestThreads : list (string * Z)
}.

(** The property names of that object, in the order of the literal. *)
Definition fields : list string :=
  [ "totalMessages"; "userMessages"; "serviceMessages"; "uniqueUsers";
    "messagesByUser"; "messagesByHour"; "messagesByDayOfWeek";
    "messagesByDate"; "userMessagesByDate"; "reactionsByUser";
    "datesCovered"; "averageMessageLength"; "messageLengthDistribution";
    "topWords"; "topMentions"; "uniqueLinks"; "userTypes";
    "longestThreads" ].

End PerDoc.

Module Acc.

(** The local object [aggregated] of [aggregateMetrics]. *)
Record t := {
  totalMessages : Z;
  userMessages : Z;
  serviceMessages : Z;
  uniqueUsers : JsSet.t;
  messagesByUser : counter;
  messagesByHour : counter;
  messagesByDayOfWeek : counter;
  messagesByDate : counter;
  reactionsByUser : counter;
  datesCovered : JsSet.t;
  messageLengths : list Z;
  wordFrequency : counter;
  mentions : counter;
  links : JsSet.t;
  userTypes : JsSet.t;
  replyChains : counter
}.

End Acc.

Module Agg.

(** An element of [mostActiveUsers] and [mostReactedTo]. *)
Record UserCount := { user : string; count : Z }.

(** The object returned by [aggregateMetrics]. *)
Record t := {
  totalMessages : Z;
  userMessages : Z;
  serviceMessages : Z;
  uniqueUsers : Z;
  messagesByUser : counter;
  messagesByHour : counter;
  messagesByDayOfWeek : counter;
  messagesByDate : counter;
  reactionsByUser : counter;
  datesCovered : list string;
  averageMessageLength : Z;
  topWords : list (string * Z);
  topMentions : list (string * Z);
  uniqueLinks : list string;
  userTypes : list string;
  mostActiveUsers : list UserCount;
  mostReactedTo : list UserCount
}.

(** The property names of that object, in the order of the literal. *)
Definition fields : list string :=
  [ "totalMessages"; "userMessages"; "serviceMessages"; "uniqueUsers";
    "messagesByUser"; "messagesByHour"; "messagesByDayOfWeek";
    "messagesByDate"; "reactionsByUser"; "datesCovered";
    "averageMessageLength"; "topWords"; "topMentions"; "uniqueLinks";
    "userTypes"; "mostActiveUsers"; "mostReactedTo" ].

End Agg.

(** ** Dates *)

Module JsDate.

(** What the code reads from a valid [Date]: the result of
    [toLocaleDateString('en-US', { weekday: 'long' })] and the part of
    [toISOString()] before the [T]. *)
Record Valid := { weekday : string; iso_date : string }.

(** A [Date] object: [None] is the invalid date. *)
Definition t : Type := option Valid.

(** [d.toLocaleDateString('en-US', { weekday: 'long' })] *)
Definition toLocaleWeekday (d : t) : string :=
  match d with Some v => weekday v | None => "Invalid Date" end.

(** [d.toISOString().split('T')[0]]; [None] when [toISOString] throws
    its [RangeError], which it does on the invalid date. *)
Definition toISODate (d : t) : option string := option_map iso_date d.

End JsDate.

Import JsDate.

(** ** [analyzeChatLog] and [aggregateMetrics] *)

Section Analysis.

(** [new Date(s)] for a string [s]. *)
Variable new_Date : string -> JsDate.t.

(** [parseDate(dateStr)]: the text before the first space is cut at its
    dots into day, month and year, and the three are put together again
    as [year-month-day]; a missing part prints as [undefined]. *)
Definition parseDate (dateStr : string) : JsDate.t :=
  let datePart := hd EmptyString (split_on " " dateStr) in
  let parts := split_on "." datePart in
  let day := nth_error parts 0 in
  let month := nth_error parts 1 in
  let year := nth_error parts 2 in
  new_Date (or_undefined year ++ "-" ++ or_undefined month ++ "-"
            ++ or_undefined day).

(** [messages.filter(msg => msg.classList.contains('default'))] *)
Definition userMessages_of (messages : list Message) : list Message :=
  filter is_default messages.

Definition serviceMessages_of (messages : list Message) : list Message :=
  filter is_service messages.

(** [nameElem.textContent.trim()], when there is a [nameElem]. *)
Definition sender (msg : Message) : option string :=
  option_map trim (from_name msg).

(** The [title] attribute of the [.date.details] element, when the
    element exists and the attribute is a non-empty string; with it the
    element. *)
Definition dated (msg : Message) : option (DateDetails * string) :=
  match date_details msg with
  | Some de =>
      match title de with
      | Some fullDate =>
          if is_empty fullDate then None else Some (de, fullDate)
      | None => None
      end
  | None => None
  end.

(** *** The first loop over the user messages *)

Definition count_user (o : counter) (msg : Message) : counter :=
  match sender msg with
  | Some name => bump name 1 o
  | None => o
  end.

Definition count_reactions (o : counter) (msg : Message) : counter :=
  match sender msg with
  | Some name =>
      if (0 <? reactions msg)%nat
      then bump name (Z.of_nat (reactions msg)) o else o
  | None => o
  end.

(** Lines 39 to 53, for a sender name that is not [inherited]:
    [userMessagesByDate[name]] is then [undefined] until line 46 creates
    it.  Under an inherited name the code finds the inherited member
    there and line 48 writes the date into it, into [Object.prototype]
    itself for [__proto__]; this is why the properties of the counters
    assume [plain_names]. *)
Definition count_user_date (o : JsObject.t counter) (msg : Message)
  : JsObject.t counter :=
  match sender msg, dated msg with
  | Some name, Some (_, fullDate) =>
      match toISODate (parseDate fullDate) with
      | Some dateStr =>
          let inner := match lookup name o with
                       | Some i => i
                       | None => []
                       end in
          set name (bump dateStr 1 inner) o
      | None => o
      end
  | _, _ => o
  end.

Definition tag_user (s : JsSet.t) (msg : Message) : JsSet.t :=
  match sender msg with
  | Some name =>
      let s1 := if includes "|" name then JsSet.add "Team Member" s else s in
      let s2 := if includes "admin" name then JsSet.add "Admin" s1 else s1 in
      if includes "mod" name then JsSet.add "Moderator" s2 else s2
  | None => s
  end.

(** *** The loop over all messages: hours, week days and dates *)

(** The hour read from the displayed time: [parseInt] of the text before
    the first colon, when the trimmed text has a colon. *)
Definition hour_of (de : DateDetails) : option Z :=
  let timeText := trim (time_text de) in
  if includes ":" timeText
  then parseInt (hd EmptyString (split_on ":" timeText))
  else None.

Definition count_hour (o : counter) (msg : Message) : counter :=
  match dated msg with
  | Some (timeElem, _) =>
      match hour_of timeElem with
      | Some hour => bump (of_Z hour) 1 o
      | None => o
      end
  | None => o
  end.

(** The week day is counted before [toISOString] can throw, so an invalid
    date is counted under the key [Invalid Date]. *)
Definition count_weekday (o : counter) (msg : Message) : counter :=
  match dated msg with
  | Some (_, fullDate) => bump (toLocaleWeekday (parseDate fullDate)) 1 o
  | None => o
  end.

Definition count_date (o : counter) (msg : Message) : counter :=
  match dated msg with
  | Some (_, fullDate) =>
      match toISODate (parseDate fullDate) with
      | Some dateStr => bump dateStr 1 o
      | None => o
      end
  | None => o
  end.

(** *** The loop over all messages: the dates covered *)

Definition cover_date (s : JsSet.t) (msg : Message) : JsSet.t :=
  match body_details msg with
  | Some t =>
      if includes "2024" t then
        let dateText := trim t in
        if includes ":" dateText then s else JsSet.add dateText s
      else s
  | None => s
  end.

(** *** The second loop over the user messages: the content *)

(** [textElem.textContent.trim()], when there is a [textElem]. *)
Definition body (msg : Message) : option string :=
  option_map trim (text msg).

Definition length_sample (msg : Message) : list Z :=
  match body msg with Some t => [len t] | None => [] end.

(** The words counted for a text: its lower-case pieces of more than
    three code units. *)
Definition words_of (t : string) : list string :=
  filter (fun word => (3 <? String.length word)%nat)
         (split_ws (toLowerCase t)).

Definition count_all (l : list string) (o : counter) : counter :=
  fold_left (fun o k => bump k 1 o) l o.

Definition count_words (o : counter) (msg : Message) : counter :=
  match body msg with
  | Some t => count_all (words_of t) o
  | None => o
  end.

Definition count_mentions (o : counter) (msg : Message) : counter :=
  match body msg with
  | Some t => count_all (match_mentions t) o
  | None => o
  end.

(** The [href] values a message adds to [links]. *)
Definition link_targets (msg : Message) : list string :=
  flat_map (fun a => match a with
                     | Some href =>
                         if is_empty href || startsWith "@" href
                         then [] else [href]
                     | None => []
                     end) (anchors msg).

Definition collect_links (s : JsSet.t) (msg : Message) : JsSet.t :=
  match body msg with
  | Some _ => JsSet.add_all (link_targets msg) s
  | None => s
  end.

(** *** The third loop over the user messages: the reply chains *)

Definition count_reply (o : counter) (msg : Message) : counter :=
  match reply_onclick msg with
  | Some onclick =>
      match match_digits onclick with
      | Some replyId => bump replyId 1 o
      | None => o
      end
  | None => o
  end.

(** *** The local variables of [analyzeChatLog] at its [return] *)

Definition userCounts_of (messages : list Message) : counter :=
  fold_left count_user (userMessages_of messages) [].

Definition reactionCounts_of (messages : list Message) : counter :=
  fold_left count_reactions (userMessages_of messages) [].

Definition userMessagesByDate_of (messages : list Message)
  : JsObject.t counter :=
  fold_left count_user_date (userMessages_of messages) [].

Definition userTypes_of (messages : list Message) : JsSet.t :=
  fold_left tag_user (userMessages_of messages) [].

Definition hourCounts_of (messages : list Message) : counter :=
  fold_left count_hour messages [].

Definition dayOfWeekCounts_of (messages : list Message) : counter :=
  fold_left count_weekday messages [].

Definition messagesByDate_of (messages : list Message) : counter :=
  fold_left count_date messages [].

Definition dates_of (messages : list Message) : JsSet.t :=
  fold_left cover_date messages [].

Definition messageLengths_of (messages : list Message) : list Z :=
  flat_map length_sample (userMessages_of messages).

Definition wordFrequency_of (messages : list Message) : counter :=
  fold_left count_words (userMessages_of messages) [].

Definition mentions_of (messages : list Message) : counter :=
  fold_left count_mentions (userMessages_of messages) [].

Definition links_of (messages : list Message) : JsSet.t :=
  fold_left collect_links (userMessages_of messages) [].

Definition replyChains_of (messages : list Message) : counter :=
  fold_left count_reply (userMessages_of messages) [].

Definition analyze (messages : list Message) : PerDoc.t :=
  {| PerDoc.totalMessages := Z.of_nat (List.length messages);
     PerDoc.userMessages :=
       Z.of_nat (List.length (userMessages_of messages));
     PerDoc.serviceMessages :=
       Z.of_nat (List.length (serviceMessages_of messages));
     PerDoc.uniqueUsers :=
       Z.of_nat (List.length (keys (userCounts_of messages)));
     PerDoc.messagesByUser := userCounts_of messages;
     PerDoc.messagesByHour := hourCounts_of messages;
     PerDoc.messagesByDayOfWeek := dayOfWeekCounts_of messages;
     PerDoc.messagesByDate := messagesByDate_of messages;
     PerDoc.userMessagesByDate := userMessagesByDate_of messages;
     PerDoc.reactionsByUser := reactionCounts_of messages;
     PerDoc.datesCovered := sort_strings (dates_of messages);
     PerDoc.averageMessageLength :=
       rounded_mean (messageLengths_of messages);
     PerDoc.messageLengthDistribution := messageLengths_of messages;
     PerDoc.topWords :=
       slice0 50 (sort_desc (entries (wordFrequency_of messages)));
     PerDoc.topMentions := sort_desc (entries (mentions_of messages));
     PerDoc.uniqueLinks := links_of messages;
     PerDoc.userTypes := userTypes_of messages;
     PerDoc.longestThreads :=
       slice0 10 (sort_desc (entries (replyChains_of messages))) |}.

(** [analyzeChatLog(content)]; [None] when it raises. *)
Definition analyzeChatLog (content : Content) : option PerDoc.t :=
  match content with
  | Markup messages => Some (analyze messages)
  | Unparseable => None
  end.

(** *** [aggregateMetrics] *)

Definition aggregated0 : Acc.t :=
  {| Acc.totalMessages := 0;
     Acc.userMessages := 0;
     Acc.serviceMessages := 0;
     Acc.uniqueUsers := [];
     Acc.messagesByUser := [];
     Acc.messagesByHour := [];
     Acc.messagesByDayOfWeek := [];
     Acc.messagesByDate := [];
     Acc.reactionsByUser := [];
     Acc.datesCovered := [];
     Acc.messageLengths := [];
     Acc.wordFrequency := [];
     Acc.mentions := [];
     Acc.links := [];
     Acc.userTypes := [];
     Acc.replyChains := [] |}.

(** [l.forEach(([k, count]) => { o[k] = (o[k] || 0) + count })] *)
Definition add_counts (l : list (string * Z)) (o : counter) : counter :=
  fold_left (fun o e => bump (fst e) (snd e) o) l o.

(** The body of the [try] block once [analyzeChatLog] has returned. *)
Definition merge (aggregated : Acc.t) (metrics : PerDoc.t) : Acc.t :=
  {| Acc.totalMessages :=
       Acc.totalMessages aggregated + PerDoc.totalMessages metrics;
     Acc.userMessages :=
       Acc.userMessages aggregated + PerDoc.userMessages metrics;
     Acc.serviceMessages :=
       Acc.serviceMessages aggregated + PerDoc.serviceMessages metrics;
     Acc.uniqueUsers :=
       JsSet.add_all (keys (PerDoc.messagesByUser metrics))
                     (Acc.uniqueUsers aggregated);
     Acc.messagesByUser :=
       add_counts (entries (PerDoc.messagesByUser metrics))
                  (Acc.messagesByUser aggregated);
     Acc.messagesByHour :=
       add_counts (entries (PerDoc.messagesByHour metrics))
                  (Acc.messagesByHour aggregated);
     Acc.messagesByDayOfWeek :=
       add_counts (entries (PerDoc.messagesByDayOfWeek metrics))
                  (Acc.messagesByDayOfWeek aggregated);
     Acc.messagesByDate :=
       add_counts (entries (PerDoc.messagesByDate metrics))
                  (Acc.messagesByDate aggregated);
     Acc.reactionsByUser :=
       add_counts (entries (PerDoc.reactionsByUser metrics))
                  (Acc.reactionsByUser aggregated);
     Acc.datesCovered :=
       JsSet.add_all (PerDoc.datesCovered metrics)
                     (Acc.datesCovered aggregated);
     Acc.messageLengths :=
       Acc.messageLengths aggregated
       ++ PerDoc.messageLengthDistribution metrics;
     Acc.wordFrequency :=
       add_counts (PerDoc.topWords metrics) (Acc.wordFrequency aggregated);
     Acc.mentions :=
       add_counts (PerDoc.topMentions metrics) (Acc.mentions aggregated);
     Acc.links :=
       JsSet.add_all (PerDoc.uniqueLinks metrics) (Acc.links aggregated);
     Acc.userTypes :=
       JsSet.add_all (PerDoc.userTypes metrics) (Acc.userTypes aggregated);
     Acc.replyChains := Acc.replyChains aggregated |}.

(** One turn of the [for] loop: the [try] block, and the [catch] that
    leaves [aggregated] as it is. *)
Definition step (aggregated : Acc.t) (content : Content) : Acc.t :=
  match analyzeChatLog content with
  | Some metrics => merge aggregated metrics
  | None => aggregated
  end.

Definition ranked (n : nat) (o : counter) : list Agg.UserCount :=
  map (fun e => {| Agg.user := fst e; Agg.count := snd e |})
      (slice0 n (sort_desc (entries o))).

(** The [return] of [aggregateMetrics]. *)
Definition finish (aggregated : Acc.t) : Agg.t :=
  {| Agg.totalMessages := Acc.totalMessages aggregated;
     Agg.userMessages := Acc.userMessages aggregated;
     Agg.serviceMessages := Acc.serviceMessages aggregated;
     Agg.uniqueUsers := JsSet.size (Acc.uniqueUsers aggregated);
     Agg.messagesByUser := Acc.messagesByUser aggregated;
     Agg.messagesByHour := Acc.messagesByHour aggregated;
     Agg.messagesByDayOfWeek := Acc.messagesByDayOfWeek aggregated;
     Agg.messagesByDate := Acc.messagesByDate aggregated;
     Agg.reactionsByUser := Acc.reactionsByUser aggregated;
     Agg.datesCovered := sort_strings (Acc.datesCovered aggregated);
     Agg.averageMessageLength :=
       rounded_mean (Acc.messageLengths aggregated);
     Agg.topWords :=
       slice0 50 (sort_desc (entries (Acc.wordFrequency aggregated)));
     Agg.topMentions :=
       slice0 20 (sort_desc (entries (Acc.mentions aggregated)));
     Agg.uniqueLinks := Acc.links aggregated;
     Agg.userTypes := Acc.userTypes aggregated;
     Agg.mostActiveUsers := ranked 10 (Acc.messagesByUser aggregated);
     Agg.mostReactedTo := ranked 10 (Acc.reactionsByUser aggregated) |}.

Definition aggregate (fileContents : list Content) : Acc.t :=
  fold_left step fileContents aggregated0.

Definition aggregateMetrics (fileContents : list Content) : Agg.t :=
  finish (aggregate fileContents).

End Analysis.

(** ** The metrics of the documents that were processed *)

(** The results of [analyzeChatLog] on the contents on which it returns,
    in batch order. *)
Definition successes (new_Date : string -> JsDate.t)
           (fileContents : list Content) : list PerDoc.t :=
  flat_map (fun c => match analyzeChatLog new_Date c with
                     | Some m => [m]
                     | None => []
                     end) fileContents.

(** The [.message] elements of the contents that were processed. *)
Definition processed (fileContents : list Content) : list (list Message) :=
  flat_map (fun c => match c with
                     | Markup messages => [messages]
                     | Unparseable => []
                     end) fileContents.

(** The sum of [f] over a list. *)
Definition sum_of {A} (f : A -> Z) (l : list A) : Z :=
  fold_right (fun x a => f x + a) 0 l.

(** The sum of the counts listed for the key [k]. *)
Definition total (k : string) (l : list (string * Z)) : Z :=
  sum_of (fun e => if String.eqb (fst e) k then snd e else 0) l.

(** [agg] is the sum by key union of [parts]: its keys are the keys of the
    parts and each count is the sum of the parts' counts. *)
Definition key_union_sum (agg : counter) (parts : list counter) : Prop :=
  forall k,
    (In k (keys agg) <-> exists p, In p parts /\ In k (keys p))
    /\ get0 k agg = sum_of (get0 k) parts.

(** [lists.forEach(l => l.forEach(([k, count]) => ...))]: the counts of
    several lists added to [o], one list after the other. *)
Definition add_counts_all (lists : list (list (string * Z))) (o : counter)
  : counter :=
  fold_left (fun o l => add_counts l o) lists o.

(** The keys of a store in creation order, and the stores without a
    repeated key. *)
Definition created {V} (o : JsObject.t V) : list string := map fst o.

Definition well_formed {V} (o : JsObject.t V) : Prop := NoDup (created o).

(** A list with every occurrence dropped that repeats an element of [seen]
    or an earlier element of the list. *)
Fixpoint first_occurrences (seen l : list string) : list string :=
  match l with
  | [] => []
  | x :: r =>
      if JsSet.has x seen then first_occurrences seen r
      else x :: first_occurrences (seen ++ [x]) r
  end.

(** The pairs of [l] whose count is [c]. *)
Definition ties (c : Z) (l : list (string * Z)) : list (string * Z) :=
  filter (fun e => snd e =? c) l.

(** Counts never increase along the list. *)
Definition non_increasing (l : list (string * Z)) : Prop :=
  StronglySorted (fun a b => snd b <= snd a) l.

(** The entries of [top] among those of [all] are the highest ones: what
    [all] lists and [top] does not has a count no larger than any in
    [top]. *)
Definition highest_of (top all : list (string * Z)) : Prop :=
  forall x y, In x top -> In y all -> ~ In y top -> snd y <= snd x.

(** The streams that the loops of [analyzeChatLog] go through. *)
Definition senders (messages : list Message) : list string :=
  flat_map (fun msg => match sender msg with
                       | Some name => [name]
                       | None => []
                       end) (userMessages_of messages).

Definition reacted_senders (messages : list Message) : list string :=
  flat_map (fun msg => match sender msg with
                       | Some name =>
                           if (0 <? reactions msg)%nat then [name] else []
                       | None => []
                       end) (userMessages_of messages).

Definition words (messages : list Message) : list string :=
  flat_map (fun msg => match body msg with
                       | Some t => words_of t
                       | None => []
                       end) (userMessages_of messages).

Definition mention_tokens (messages : list Message) : list string :=
  flat_map (fun msg => match body msg with
                       | Some t => match_mentions t
                       | None => []
                       end) (userMessages_of messages).

Definition links_seen (messages : list Message) : list string :=
  flat_map (fun msg => match body msg with
                       | Some _ => link_targets msg
                       | None => []
                       end) (userMessages_of messages).

(** ** The ranking of the words as the specification words it

    The word counts of the whole batch: the sum by key of the complete
    word counts of every processed document. *)
Definition merged_wordFrequency (fileContents : list Content) : counter :=
  fold_left
    (fun o messages => add_counts (entries (wordFrequency_of messages)) o)
            (processed fileContents) [].

(** The fifty highest entries of the merged word counts. *)
Definition topWords_of_merged (fileContents : list Content)
  : list (string * Z) :=
  slice0 50 (sort_desc (entries (merged_wordFrequency fileContents))).

(** ** A [Date] for examples

    Date-only ISO strings [YYYY-MM-DD] read as UTC and shown in UTC; every
    other string is an invalid date, which the language allows. *)

Module UtcDate.

Definition is_leap (y : Z) : bool :=
  (y mod 4 =? 0) && (negb (y mod 100 =? 0) || (y mod 400 =? 0)).

Definition days_in_month (y m : Z) : Z :=
  if m =? 2 then (if is_leap y then 29 else 28)
  else if (m =? 4) || (m =? 6) || (m =? 9) || (m =? 11) then 30 else 31.

(** Days from 1970-01-01 to the civil date [y-m-d]. *)
Definition days_from_civil (y m d : Z) : Z :=
  let y' := if m <=? 2 then y - 1 else y in
  let era := y' / 400 in
  let yoe := y' - era * 400 in
  let mp := (m + 9) mod 12 in
  let doy := (153 * mp + 2) / 5 + d - 1 in
  let doe := yoe * 365 + yoe / 4 - yoe / 100 + doy in
  era * 146097 + doe - 719468.

Definition weekday_name (days : Z) : string :=
  nth (Z.to_nat ((days + 4) mod 7))
      ["Sunday"; "Monday"; "Tuesday"; "Wednesday"; "Thursday"; "Friday";
       "Saturday"] "".

(** The value of [s] when it is [n] digits and nothing else. *)
Definition number (n : nat) (s : string) : option Z :=
  if (String.length s =? n)%nat
     && forallb is_digit (list_ascii_of_string s)
  then read_digits digit_val 10 s 0 false else None.

Definition new_Date (s : string) : JsDate.t :=
  match split_on "-" s with
  | [ys; ms; ds] =>
      match number 4 ys, number 2 ms, number 2 ds with
      | Some y, Some m, Some d =>
          if (1 <=? m) && (m <=? 12) && (1 <=? d)
             && (d <=? days_in_month y m)
          then Some {| weekday := weekday_name (days_from_civil y m d);
                       iso_date := s |}
          else None
      | _, _, _ => None
      end
  | _ => None
  end.

End UtcDate.

(** ** Example documents *)

Module Fixture.

(** A service message on which every query comes back empty. *)
Definition bare : Message :=
  {| is_default := false; is_service := true; from_name := None;
     date_details := None; body_details := None; text := None;
     reactions := 0; anchors := []; reply_onclick := None |}.

(** A user message with a sender and a text. *)
Definition said (name t : string) : Message :=
  {| is_default := true; is_service := false; from_name := Some name;
     date_details := None; body_details := None; text := Some t;
     reactions := 0; anchors := []; reply_onclick := None |}.

(** A user message with a text and no sender element. *)
Definition wrote (t : string) : Message :=
  {| is_default := true; is_service := false; from_name := None;
     date_details := None; body_details := None; text := Some t;
     reactions := 0; anchors := []; reply_onclick := None |}.

(** A user message with a sender and a number of reactions. *)
Definition reacted (name : string) (n : nat) : Message :=
  {| is_default := true; is_service := false; from_name := Some name;
     date_details := None; body_details := None; text := None;
     reactions := n; anchors := []; reply_onclick := None |}.

(** A message dated [fullDate] and displayed at [shown]. *)
Definition stamped (fullDate shown : string) : Message :=
  {| is_default := true; is_service := false; from_name := None;
     date_details := Some {| title := Some fullDate; time_text := shown |};
     body_details := None; text := None;
     reactions := 0; anchors := []; reply_onclick := None |}.

(** A user message with links; [t] is its text element, if any. *)
Definition linking (t : option string) (hrefs : list (option string))
  : Message :=
  {| is_default := true; is_service := false; from_name := None;
     date_details := None; body_details := None; text := t;
     reactions := 0; anchors := hrefs; reply_onclick := None |}.

(** The words [p0 ... p49], separated by spaces. *)
Definition fillers (p : string) : string :=
  String.concat " " (map (fun i => p ++ of_Z (Z.of_nat i)) (seq 0 50)).

(** Fifty words [p0 ... p49] 27 times each and the word [wwww] 26
    times: [wwww] is at rank 51 of the document. *)
Definition crowded (p : string) : Content :=
  Markup (wrote (fillers p)
          :: repeat (wrote (fillers p ++ " wwww")) 26).

Definition two_crowded : list Content := [crowded "alpha"; crowded "beta"].

(** Length samples [2; 4; 6] and [8]. *)
Definition samples_246 : Content :=
  Markup [wrote "ab"; wrote "abcd"; wrote "abcdef"].

Definition samples_8 : Content := Markup [wrote "abcdefgh"].



(** A numeral seen after a word, both once. *)
Definition numeral_after_word : list Message := [wrote "zzzz 1234"].

(** A link in a user message that has no text element. *)
Definition link_without_text : list Message :=
  [linking None [Some "https://example.org/a"]].

(** Three messages dated 2024-01-01 and one dated 2024-01-02; two
    messages dated 2024-01-02. *)
Definition four_dated : Content :=
  Markup [stamped "01.01.2024 09:15:00 UTC+01:00" "09:15";
          stamped "01.01.2024 09:20:11 UTC+01:00" "09:20";
          stamped "01.01.2024 23:59:59 UTC+01:00" "23:59";
          stamped "02.01.2024 00:00:03 UTC+01:00" "00:00"].

Definition two_dated : Content :=
  Markup [stamped "02.01.2024 09:01:00 UTC+01:00" "09:01";
          stamped "02.01.2024 18:30:00 UTC+01:00" "18:30"].

(** A date that [Date] does not read, displayed at a quarter past ten. *)
Definition undated : list Message := [stamped "yesterday" "10:15"].

(** A service notice, and reactions to two senders. *)
Definition with_reactions : Content :=
  Markup [bare; reacted "bob" 3; said "ann" "thanks"; reacted "ann" 1;
          reacted "bob" 2].

(** The empty string parses to a document without messages. *)
Definition empty_string : Content := Markup [].

Definition three_messages : Content :=
  Markup [said "ann" "good morning"; said "bob" "hello @ann";
          said "ann" "see https://example.org"].

(** A user message with a sender, a date, a displayed time, a text and
    reactions. *)
Definition posted (name fullDate shown t : string) (n : nat) : Message :=
  {| is_default := true; is_service := false; from_name := Some name;
     date_details := Some {| title := Some fullDate; time_text := shown |};
     body_details := None; text := Some t;
     reactions := n; anchors := []; reply_onclick := None |}.

(** Two users on two days, and a service notice between them. *)
Definition conversation : list Message :=
  [posted " ann " "01.01.2024 09:15:00 UTC+01:00" "09:15"
          "Good morning everyone" 2;
   posted "bob" "01.01.2024 09:20:11 UTC+01:00" "09:20"
          "good morning @ann" 0;
   bare;
   posted "ann" "02.01.2024 00:00:03 UTC+01:00" "00:00"
          "still here everyone" 1].

End Fixture.


(** ** Statements about the metrics *)

(** The result for a batch in which nothing was counted. *)
Definition zeroed : Agg.t :=
  {| Agg.totalMessages := 0;
     Agg.userMessages := 0;
     Agg.serviceMessages := 0;
     Agg.uniqueUsers := 0;
     Agg.messagesByUser := [];
     Agg.messagesByHour := [];
     Agg.messagesByDayOfWeek := [];
     Agg.messagesByDate := [];
     Agg.reactionsByUser := [];
     Agg.datesCovered := [];
     Agg.averageMessageLength := 0;
     Agg.topWords := [];
     Agg.topMentions := [];
     Agg.uniqueLinks := [];
     Agg.userTypes := [];
     Agg.mostActiveUsers := [];
     Agg.mostReactedTo := [] |}.

(** Fields of the per-document result that the aggregator neither
    accumulates nor returns, and the two fields that it adds. *)
Definition per_document_only : list string :=
  ["userMessagesByDate"; "messageLengthDistribution"].

(** A list of field names without the field [f]. *)
Definition without (f : string) (l : list string) : list string :=
  filter (fun g => negb (String.eqb g f)) l.

Definition aggregated_only : list string :=
  ["mostActiveUsers"; "mostReactedTo"].

(** The number of distinct strings of a list. *)
Definition distinct (l : list string) : Z :=
  Z.of_nat (List.length (nodup string_dec l)).

(** The position of the first occurrence of [k] in [l], the length of [l]
    when there is none. *)
Fixpoint first_index (k : string) (l : list string) : nat :=
  match l with
  | [] => O
  | x :: r => if String.eqb x k then O else S (first_index k r)
  end.

(** Pairs of equal count stand in [top] in the order in which their keys
    first occur in [stream]. *)
Definition ties_in_first_encounter_order
           (stream : list string) (top : list (string * Z)) : Prop :=
  forall l1 x l2 y l3,
    top = (l1 ++ x :: l2 ++ y :: l3)%list ->
    snd x = snd y ->
    (first_index (fst x) stream < first_index (fst y) stream)%nat.

(** [r] ranks the [n] highest of the keys that satisfy [candidate] by
    [score]: at most [n] distinct candidates, each with its score, in an
    order of never increasing score, and no candidate left out has a
    higher score than one listed. *)
Definition top_ranking (n : nat) (candidate : string -> Prop)
           (score : string -> Z) (r : list (string * Z)) : Prop :=
  (List.length r <= n)%nat
  /\ NoDup (map fst r)
  /\ non_increasing r
  /\ (forall e, In e r -> candidate (fst e) /\ snd e = score (fst e))
  /\ (forall e k, In e r -> candidate k -> ~ In k (map fst r) ->
        score k <= snd e).

(** The name and count of each [{ user, count }] object of a list. *)
Definition pairs (r : list Agg.UserCount) : list (string * Z) :=
  map (fun e => (Agg.user e, Agg.count e)) r.


(** The key under which a message is counted in [hourCounts], if any. *)
Definition hour_key (msg : Message) : option string :=
  match dated msg with
  | Some (timeElem, _) => option_map of_Z (hour_of timeElem)
  | None => None
  end.

Definition is_key (k : string) (x : option string) : bool :=
  match x with Some k' => String.eqb k' k | None => false end.

(** The number of elements of [l] that satisfy [p]. *)
Definition count_of {A} (p : A -> bool) (l : list A) : Z :=
  Z.of_nat (List.length (filter p l)).



(** Every link target of every user message that does not begin with an
    at sign is in [listed]. *)
Definition every_link_listed (messages : list Message)
           (listed : list string) : Prop :=
  forall msg href,
    In msg (userMessages_of messages) ->
    In (Some href) (anchors msg) ->
    startsWith "@" href = false ->
    In href listed.

(** ** The documents that the stores describe *)

(** No sender name of the document is the name of an inherited property:
    the stores keyed by sender names then hold what the code's objects
    hold, and the code writes nothing into [Object.prototype]. *)
Definition plain_names (messages : list Message) : bool :=
  forallb (fun name => negb (inherited name)) (senders messages).

(** No counted word of the document is the name of an inherited
    property.  The word counts are what the code's objects hold when this
    holds together with [plain_names], which keeps [Object.prototype]
    free of dates that a word could repeat. *)
Definition plain_words (messages : list Message) : bool :=
  forallb (fun w => negb (inherited w)) (words messages).

(** Every hour that the document displays is an integer that the code's
    number holds exactly. *)
Definition safe_hours (messages : list Message) : bool :=
  forallb (fun msg => match dated msg with
                      | Some (timeElem, _) =>
                          match hour_of timeElem with
                          | Some hour => safe_integer hour
                          | None => true
                          end
                      | None => true
                      end) messages.

(** ** Further statements about the metrics *)

(** The sum of the counts of a counter. *)
Definition values (o : counter) : Z := sum_of snd o.

(** The number of occurrences of [k] in [l]. *)
Definition occurrences (k : string) (l : list string) : Z :=
  count_of (String.eqb k) l.

(** [x] is there. *)
Definition has_key {A} (x : option A) : bool :=
  match x with Some _ => true | None => false end.

(** The week day under which a message is counted, if any. *)
Definition weekday_key (new_Date : string -> JsDate.t) (msg : Message)
  : option string :=
  match dated msg with
  | Some (_, fullDate) => Some (toLocaleWeekday (parseDate new_Date fullDate))
  | None => None
  end.

(** The date under which a message is counted, if any. *)
Definition date_key (new_Date : string -> JsDate.t) (msg : Message)
  : option string :=
  match dated msg with
  | Some (_, fullDate) => toISODate (parseDate new_Date fullDate)
  | None => None
  end.

(** The message that a user message replies to, if any. *)
Definition reply_key (msg : Message) : option string :=
  match reply_onclick msg with
  | Some onclick => match_digits onclick
  | None => None
  end.

Definition reply_ids (messages : list Message) : list string :=
  flat_map (fun msg => match reply_key msg with
                       | Some replyId => [replyId]
                       | None => []
                       end) (userMessages_of messages).

(** The reactions to [msg] when [name] sent it, 0 otherwise. *)
Definition reactions_to (name : string) (msg : Message) : Z :=
  if is_key name (sender msg) then Z.of_nat (reactions msg) else 0.

(** [o[name][date] || 0] where a missing [o[name]] counts as empty. *)
Definition get2 (name date : string) (o : JsObject.t counter) : Z :=
  match lookup name o with
  | Some inner => get0 date inner
  | None => 0
  end.

(** The tag that a sender name earns by containing [marker]. *)
Definition user_tags : list (string * string) :=
  [("|", "Team Member"); ("admin", "Admin"); ("mod", "Moderator")].

(** The text that a message adds to [dates], if any. *)
Definition covered_date (msg : Message) : option string :=
  match body_details msg with
  | Some t =>
      if includes "2024" t && negb (includes ":" (trim t))
      then Some (trim t) else None
  | None => None
  end.

(** Strings in strictly ascending order of code units. *)
Definition ascending (l : list string) : Prop :=
  StronglySorted (fun a b => String.ltb a b = true) l.

(** The last character of [s] is white space. *)
Fixpoint ends_ws (s : string) : bool :=
  match s with
  | EmptyString => false
  | String c EmptyString => is_ws c
  | String _ r => ends_ws r
  end.

Definition all_chars (p : ascii -> bool) (s : string) : bool :=
  forallb p (list_ascii_of_string s).

(** ** The dashboard of [index.jsx] *)

Module Dashboard.

(** An element of [hourlyData]; the hour [None] is [NaN]. *)
Record HourRow := { hour : option Z; messages : Z }.

(** [a.hour - b.hour > 0]; a difference with [NaN] is [NaN], which the
    sort reads as 0. *)
Definition later (a b : HourRow) : bool :=
  match hour a, hour b with
  | Some x, Some y => y <? x
  | _, _ => false
  end.

Fixpoint insert_hour (x : HourRow) (l : list HourRow) : list HourRow :=
  match l with
  | [] => [x]
  | y :: r => if later x y then y :: insert_hour x r else x :: l
  end.

(** [Object.entries(metrics.messagesByHour)
      .map(([hour, count]) => ({ hour: parseInt(hour), messages: count }))
      .sort((a, b) => a.hour - b.hour)];
    the sort is the stable one, which the language fixes when no hour is
    [NaN]. *)
Definition hourlyData (metrics : Agg.t) : list HourRow :=
  fold_right insert_hour []
    (map (fun e => {| hour := parseInt (fst e); messages := snd e |})
         (entries (Agg.messagesByHour metrics))).

(** Both rows have an hour and the hour of [a] is the smaller one. *)
Definition earlier (a b : HourRow) : Prop :=
  match hour a, hour b with
  | Some x, Some y => x < y
  | _, _ => False
  end.

(** The state of a [SortableList]. *)
Record SortState := { sortKey : string; sortDirection : string }.

(** [useState(defaultSort)] and [useState('desc')] *)
Definition initial (defaultSort : string) : SortState :=
  {| sortKey := defaultSort; sortDirection := "desc" |}.

(** [toggleSort(key)]: the state of the next render. *)
Definition toggleSort (key : string) (st : SortState) : SortState :=
  if String.eqb (sortKey st) key
  then {| sortKey := sortKey st;
          sortDirection :=
            if String.eqb (sortDirection st) "asc" then "desc" else "asc" |}
  else {| sortKey := key; sortDirection := "desc" |}.

End Dashboard.

(** ** The dark mode toggle of [darkMode.jsx] *)

Module DarkMode.

(** What the component reads and writes in the browser: the item
    [darkMode] of [localStorage] ([None] when there is none) and the
    class list of the document element. *)
Record Browser := { stored : option string; classes : list string }.

(** The initial state: [localStorage.getItem('darkMode') === 'true']. *)
Definition init (b : Browser) : bool :=
  match stored b with
  | Some v => String.eqb v "true"
  | None => false
  end.

(** [classList.remove(x)] *)
Definition remove (x : string) (cl : list string) : list string :=
  filter (fun c => negb (String.eqb c x)) cl.

(** The effect that runs after a render with the state [darkMode];
    [classList.add] is the insertion of [Set.add]. *)
Definition effect (darkMode : bool) (b : Browser) : Browser :=
  if darkMode
  then {| stored := Some "true"; classes := JsSet.add "dark" (classes b) |}
  else {| stored := Some "false"; classes := remove "dark" (classes b) |}.

(** The click handler: [setDarkMode(!darkMode)]. *)
Definition click (darkMode : bool) : bool := negb darkMode.

End DarkMode.

(** * Properties *)

(** ** Sets *)

Lemma has_true x s : JsSet.has x s = true <-> In x s.
Proof.
  unfold JsSet.has. rewrite existsb_exists. split.
  - intros [y [Hy E]]. apply String.eqb_eq in E. now subst.
  - intros H. exists x. split; [assumption | apply String.eqb_refl].
Qed.

Lemma has_false x s : JsSet.has x s = false <-> ~ In x s.
Proof.
  rewrite <- has_true. destruct (JsSet.has x s); split; congruence.
Qed.

Lemma in_add y x s : In y (JsSet.add x s) <-> y = x \/ In y s.
Proof.
  unfold JsSet.add. destruct (JsSet.has x s) eqn:E.
  - apply has_true in E. split; [auto | intros [-> | H]; assumption].
  - rewrite in_app_iff. simpl. intuition congruence.
Qed.

Lemma NoDup_snoc (x : string) s : NoDup s -> ~ In x s -> NoDup (s ++ [x]).
Proof.
  intros Hs Hx. induction Hs as [| y s Hy Hs IH]; simpl.
  - constructor; [intros [] | constructor].
  - constructor.
    + rewrite in_app_iff. simpl. intros [H | [H | []]]; [tauto |].
      subst. apply Hx. now left.
    + apply IH. intros H. apply Hx. now right.
Qed.

Lemma NoDup_add x s : NoDup s -> NoDup (JsSet.add x s).
Proof.
  intros Hs. unfold JsSet.add. destruct (JsSet.has x s) eqn:E; [assumption |].
  apply NoDup_snoc; [assumption | now apply has_false].
Qed.

Lemma add_all_first_occurrences l : forall s,
  JsSet.add_all l s = (s ++ first_occurrences s l)%list.
Proof.
  induction l as [| x r IH]; intros s; simpl.
  - now rewrite app_nil_r.
  - unfold JsSet.add_all in *. simpl. unfold JsSet.add at 2.
    destruct (JsSet.has x s); rewrite IH; [reflexivity |].
    now rewrite <- app_assoc.
Qed.

Lemma in_add_all l : forall s y,
  In y (JsSet.add_all l s) <-> In y l \/ In y s.
Proof.
  unfold JsSet.add_all.
  induction l as [| x r IH]; intros s y; simpl; [tauto |].
  rewrite IH, in_add. intuition.
Qed.

Lemma NoDup_add_all l : forall s, NoDup s -> NoDup (JsSet.add_all l s).
Proof.
  unfold JsSet.add_all.
  induction l as [| x r IH]; intros s Hs; simpl; [assumption |].
  apply IH. now apply NoDup_add.
Qed.

Lemma add_all_app l1 l2 s :
  JsSet.add_all (l1 ++ l2) s = JsSet.add_all l2 (JsSet.add_all l1 s).
Proof. unfold JsSet.add_all. apply fold_left_app. Qed.

Lemma add_present x s : In x s -> JsSet.add x s = s.
Proof. intros H. unfold JsSet.add. apply has_true in H. now rewrite H. Qed.

(** Adding a set's own elements after the elements [l] it was made from
    is adding [l]: the aggregator may add the per-document sets or the
    streams behind them. *)
Lemma add_all_add_all l : forall s t,
  JsSet.add_all (JsSet.add_all l t) s
  = JsSet.add_all l (JsSet.add_all t s).
Proof.
  induction l as [| x r IH]; intros s t.
  - reflexivity.
  - change (JsSet.add_all (x :: r) t) with (JsSet.add_all r (JsSet.add x t)).
    rewrite IH.
    change (JsSet.add_all (x :: r) (JsSet.add_all t s))
      with (JsSet.add_all r (JsSet.add x (JsSet.add_all t s))).
    f_equal. unfold JsSet.add at 1.
    destruct (JsSet.has x t) eqn:E.
    + symmetry. apply add_present. apply in_add_all. left.
      now apply has_true.
    + now rewrite add_all_app.
Qed.

(** ** Stores *)

Section StoreFacts.

Context {V : Type}.
Implicit Types (o : JsObject.t V) (k : string) (v : V).

Lemma lookup_set_eq k v o : lookup k (set k v o) = Some v.
Proof.
  induction o as [| [k' v'] r IH]; simpl.
  - now rewrite String.eqb_refl.
  - destruct (String.eqb k' k) eqn:E; simpl; rewrite E; auto.
Qed.

Lemma lookup_set_ne k k' v o :
  k <> k' -> lookup k' (set k v o) = lookup k' o.
Proof.
  intros Hne. apply String.eqb_neq in Hne.
  induction o as [| [k0 v0] r IH]; simpl.
  - now rewrite Hne.
  - destruct (String.eqb k0 k) eqn:E; simpl.
    + apply String.eqb_eq in E. subst k0. now rewrite Hne.
    + now rewrite IH.
Qed.

(** Writing a property creates its key as [Set.add] inserts an element. *)
Lemma created_set k v o : created (set k v o) = JsSet.add k (created o).
Proof.
  unfold created, JsSet.add.
  induction o as [| [k' v'] r IH]; simpl; [reflexivity |].
  rewrite (String.eqb_sym k k').
  destruct (String.eqb k' k); simpl; [reflexivity |].
  rewrite IH. now destruct (JsSet.has k (map fst r)).
Qed.

Lemma in_lookup k v o : well_formed o -> In (k, v) o -> lookup k o = Some v.
Proof.
  unfold well_formed, created.
  induction o as [| [k' v'] r IH]; simpl; [tauto |].
  intros Hnd [[= -> ->] | Hin].
  - now rewrite String.eqb_refl.
  - inversion Hnd as [| ? ? Hk Hr]; subst.
    destruct (String.eqb k' k) eqn:E.
    + apply String.eqb_eq in E. subst. exfalso. apply Hk.
      now apply (in_map fst) in Hin.
    + now apply IH.
Qed.

Lemma partition_perm (f : string * V -> bool) (l : list (string * V)) :
  Permutation (filter f l ++ filter (fun e => negb (f e)) l) l.
Proof.
  induction l as [| x r IH]; simpl; [constructor |].
  destruct (f x); simpl.
  - now constructor.
  - now apply Permutation_sym, Permutation_cons_app, Permutation_sym.
Qed.

Lemma insert_index_perm (e : string * V) l :
  Permutation (insert_index e l) (e :: l).
Proof.
  induction l as [| y r IH]; simpl; [apply Permutation_refl |].
  destruct (index_of (fst y) <? index_of (fst e)).
  - eapply perm_trans; [apply perm_skip, IH | apply perm_swap].
  - apply Permutation_refl.
Qed.

Lemma sort_index_perm (l : list (string * V)) :
  Permutation (fold_right insert_index [] l) l.
Proof.
  induction l as [| x r IH]; simpl; [constructor |].
  eapply perm_trans; [apply insert_index_perm | now constructor].
Qed.

(** [Object.entries] lists every own property once. *)
Lemma entries_perm o : Permutation (entries o) o.
Proof.
  unfold entries.
  eapply perm_trans; [| apply (partition_perm (fun e => is_index (fst e)))].
  apply Permutation_app_tail, sort_index_perm.
Qed.

Lemma keys_perm o : Permutation (keys o) (created o).
Proof. apply Permutation_map, entries_perm. Qed.

Lemma in_keys k o : In k (keys o) <-> In k (created o).
Proof.
  split; apply Permutation_in;
    [apply keys_perm | apply Permutation_sym, keys_perm].
Qed.

Lemma in_entries e o : In e (entries o) <-> In e o.
Proof.
  split; apply Permutation_in;
    [apply entries_perm | apply Permutation_sym, entries_perm].
Qed.

Lemma keys_length o : List.length (keys o) = List.length (created o).
Proof. apply Permutation_length, keys_perm. Qed.

Lemma NoDup_keys o : well_formed o -> NoDup (keys o).
Proof.
  apply Permutation_NoDup, Permutation_sym, keys_perm.
Qed.

(** Without array-index keys, [Object.entries] follows creation order. *)
Lemma entries_no_index o :
  forallb (fun k => negb (is_index k)) (created o) = true ->
  entries o = o.
Proof.
  unfold entries, created. intros H.
  induction o as [| [k v] r IH]; [reflexivity |].
  simpl in *. apply andb_true_iff in H as [Hk Hr].
  destruct (is_index k); [discriminate |]. simpl.
  specialize (IH Hr).
  assert (E : filter (fun e : string * V => is_index (fst e)) r = []).
  { clear IH. induction r as [| [k' v'] r' IH']; [reflexivity |].
    simpl in *. apply andb_true_iff in Hr as [Hk' Hr'].
    destruct (is_index k'); [discriminate | now apply IH']. }
  rewrite E in *. simpl in *. now rewrite IH.
Qed.

End StoreFacts.

(** ** Counters *)

Lemma get0_bump k k' c (o : counter) :
  get0 k (bump k' c o) = get0 k o + (if String.eqb k' k then c else 0).
Proof.
  unfold bump, get0 at 1. destruct (String.eqb k' k) eqn:E.
  - apply String.eqb_eq in E. subst. rewrite lookup_set_eq. reflexivity.
  - apply String.eqb_neq in E. rewrite lookup_set_ne by assumption.
    unfold get0. lia.
Qed.

Lemma created_bump k c (o : counter) :
  created (bump k c o) = JsSet.add k (created o).
Proof. apply created_set. Qed.

Lemma created_count_all l : forall o : counter,
  created (count_all l o) = JsSet.add_all l (created o).
Proof.
  unfold count_all, JsSet.add_all.
  induction l as [| x r IH]; intros o; simpl; [reflexivity |].
  now rewrite IH, created_bump.
Qed.

Lemma created_add_counts l : forall o : counter,
  created (add_counts l o) = JsSet.add_all (map fst l) (created o).
Proof.
  unfold add_counts, JsSet.add_all.
  induction l as [| x r IH]; intros o; simpl; [reflexivity |].
  now rewrite IH, created_bump.
Qed.

Lemma get0_add_counts k l : forall o : counter,
  get0 k (add_counts l o) = get0 k o + total k l.
Proof.
  unfold add_counts, total.
  induction l as [| x r IH]; intros o; simpl; [lia |].
  rewrite IH, get0_bump. lia.
Qed.

Lemma total_perm k l l' : Permutation l l' -> total k l = total k l'.
Proof.
  unfold total. induction 1; simpl; lia.
Qed.

Lemma total_absent k (l : list (string * Z)) :
  ~ In k (map fst l) -> total k l = 0.
Proof.
  unfold total. induction l as [| [k' v] r IH]; simpl; [reflexivity |].
  intros H. destruct (String.eqb k' k) eqn:E.
  - apply String.eqb_eq in E. subst. tauto.
  - rewrite IH; tauto.
Qed.

(** In a store, the counts listed for a key are the one count it holds. *)
Lemma total_store k (o : counter) : well_formed o -> total k o = get0 k o.
Proof.
  unfold well_formed, created, get0.
  induction o as [| [k' v] r IH]; simpl; [reflexivity |].
  intros Hnd. inversion Hnd as [| ? ? Hk Hr]; subst.
  change (total k ((k', v) :: r))
    with ((if String.eqb k' k then v else 0) + total k r).
  destruct (String.eqb k' k) eqn:E.
  - apply String.eqb_eq in E. subst.
    rewrite (total_absent k r Hk). lia.
  - rewrite IH by assumption. lia.
Qed.

Lemma total_entries k (o : counter) :
  well_formed o -> total k (entries o) = get0 k o.
Proof.
  intros H. rewrite (total_perm k _ _ (entries_perm o)).
  now apply total_store.
Qed.

Lemma well_formed_add_counts l (o : counter) :
  well_formed o -> well_formed (add_counts l o).
Proof.
  unfold well_formed. rewrite created_add_counts. apply NoDup_add_all.
Qed.

Lemma well_formed_count_all l (o : counter) :
  well_formed o -> well_formed (count_all l o).
Proof.
  unfold well_formed. rewrite created_count_all. apply NoDup_add_all.
Qed.

Lemma well_formed_bump k c (o : counter) :
  well_formed o -> well_formed (bump k c o).
Proof.
  unfold well_formed. rewrite created_bump. apply NoDup_add.
Qed.

Lemma well_formed_empty {V} : well_formed (@nil (string * V)).
Proof. constructor. Qed.

Lemma get0_add_counts_all k lists : forall o : counter,
  get0 k (add_counts_all lists o) = get0 k o + sum_of (total k) lists.
Proof.
  unfold add_counts_all.
  induction lists as [| l r IH]; intros o; simpl; [lia |].
  rewrite IH, get0_add_counts. lia.
Qed.

Lemma created_add_counts_all lists : forall o : counter,
  created (add_counts_all lists o)
  = JsSet.add_all (List.concat (map (map fst) lists)) (created o).
Proof.
  unfold add_counts_all.
  induction lists as [| l r IH]; intros o; simpl; [reflexivity |].
  now rewrite IH, created_add_counts, add_all_app.
Qed.

Lemma well_formed_add_counts_all lists (o : counter) :
  well_formed o -> well_formed (add_counts_all lists o).
Proof.
  unfold well_formed. rewrite created_add_counts_all. apply NoDup_add_all.
Qed.

Lemma sum_of_map {A B} (f : B -> Z) (g : A -> B) l :
  sum_of f (map g l) = sum_of (fun x => f (g x)) l.
Proof. unfold sum_of. induction l; simpl; congruence. Qed.

Lemma sum_of_ext {A} (f g : A -> Z) l :
  Forall (fun x => f x = g x) l -> sum_of f l = sum_of g l.
Proof. unfold sum_of. induction 1; simpl; congruence. Qed.

(** Adding the entries of well-formed counters, one counter after the
    other, to the empty object gives their sum by key union. *)
Lemma add_entries_key_union_sum (parts : list counter) :
  Forall well_formed parts ->
  key_union_sum (add_counts_all (map entries parts) []) parts.
Proof.
  intros Hwf k. split.
  - rewrite in_keys, created_add_counts_all, in_add_all. simpl.
    rewrite in_concat. split.
    + intros [[l [Hl Hk]] | []].
      apply in_map_iff in Hl as [e [<- He]].
      apply in_map_iff in He as [p [<- Hp]].
      exists p. split; [assumption | exact Hk].
    + intros [p [Hp Hk]]. left. exists (map fst (entries p)).
      split; [| exact Hk]. now apply in_map, in_map.
  - rewrite get0_add_counts_all, sum_of_map. unfold get0 at 1. simpl.
    apply sum_of_ext. apply Forall_forall. intros p Hp.
    apply total_entries. rewrite Forall_forall in Hwf. now apply Hwf.
Qed.

(** ** Sorting by decreasing count and cutting *)

Lemma insert_desc_perm x l : Permutation (insert_desc x l) (x :: l).
Proof.
  induction l as [| y r IH]; simpl; [apply Permutation_refl |].
  destruct (snd x <? snd y).
  - eapply perm_trans; [apply perm_skip, IH | apply perm_swap].
  - apply Permutation_refl.
Qed.

Lemma sort_desc_perm l : Permutation (sort_desc l) l.
Proof.
  unfold sort_desc. induction l as [| x r IH]; simpl; [constructor |].
  eapply perm_trans; [apply insert_desc_perm | now constructor].
Qed.

Lemma insert_desc_sorted x l :
  non_increasing l -> non_increasing (insert_desc x l).
Proof.
  unfold non_increasing.
  induction l as [| y r IH]; simpl; intros Hs.
  - constructor; constructor.
  - inversion Hs as [| ? ? Hr Hy]; subst.
    destruct (snd x <? snd y) eqn:E.
    + apply Z.ltb_lt in E. constructor; [now apply IH |].
      eapply Permutation_Forall;
        [apply Permutation_sym, insert_desc_perm |].
      constructor; [lia | assumption].
    + apply Z.ltb_ge in E. constructor; [assumption |].
      constructor; [assumption |].
      eapply Forall_impl; [| exact Hy]. simpl. intros a Ha. lia.
Qed.

Lemma sort_desc_sorted l : non_increasing (sort_desc l).
Proof.
  unfold sort_desc. induction l as [| x r IH]; simpl.
  - constructor.
  - now apply insert_desc_sorted.
Qed.

(** The sort is stable: the pairs of one count keep their order. *)
Lemma ties_insert_desc c x l :
  ties c (insert_desc x l) = ties c (x :: l).
Proof.
  unfold ties. induction l as [| y r IH]; simpl; [reflexivity |].
  destruct (snd x <? snd y) eqn:E; [| reflexivity].
  apply Z.ltb_lt in E. simpl in *. rewrite IH.
  destruct (snd x =? c) eqn:Ex; [| reflexivity].
  apply Z.eqb_eq in Ex.
  assert (Ey : (snd y =? c) = false) by (apply Z.eqb_neq; lia).
  now rewrite Ey.
Qed.

Lemma ties_sort_desc c l : ties c (sort_desc l) = ties c l.
Proof.
  unfold sort_desc. induction l as [| x r IH]; simpl; [reflexivity |].
  rewrite ties_insert_desc. unfold ties in *. simpl. now rewrite IH.
Qed.

Lemma slice0_length {A} n (l : list A) : (List.length (slice0 n l) <= n)%nat.
Proof. apply firstn_le_length. Qed.

Lemma slice0_in {A} n (l : list A) x : In x (slice0 n l) -> In x l.
Proof.
  intros H. unfold slice0 in H. rewrite <- (firstn_skipn n l).
  apply in_app_iff. now left.
Qed.

Lemma slice0_sorted n l : non_increasing l -> non_increasing (slice0 n l).
Proof.
  unfold non_increasing, slice0. revert n.
  induction l as [| x r IH]; intros n Hs; destruct n; simpl;
    try constructor.
  - inversion Hs; subst. now apply IH.
  - inversion Hs as [| ? ? Hr Hx]; subst.
    apply Forall_forall. intros y Hy.
    rewrite Forall_forall in Hx. apply Hx. eapply slice0_in, Hy.
Qed.

(** Cutting a list keeps, for each count, a prefix of the pairs of that
    count. *)
Lemma ties_slice0 c n l :
  exists rest, ties c l = (ties c (slice0 n l) ++ rest)%list.
Proof.
  exists (ties c (skipn n l)). unfold ties, slice0.
  now rewrite <- filter_app, firstn_skipn.
Qed.

Lemma sorted_app_le (l1 l2 : list (string * Z)) :
  non_increasing (l1 ++ l2) ->
  forall x y, In x l1 -> In y l2 -> snd y <= snd x.
Proof.
  unfold non_increasing.
  induction l1 as [| a r IH]; simpl; intros Hs x y Hx Hy; [tauto |].
  inversion Hs as [| ? ? Hr Ha]; subst. destruct Hx as [-> | Hx].
  - rewrite Forall_forall in Ha. apply Ha. apply in_app_iff. now right.
  - now apply (IH Hr x y).
Qed.

(** What the cut drops from a sorted list is no larger than what it
    keeps. *)
Lemma slice0_highest n l : non_increasing l -> highest_of (slice0 n l) l.
Proof.
  intros Hs x y Hx Hy Hny. unfold slice0 in *.
  rewrite <- (firstn_skipn n l) in Hs, Hy.
  apply in_app_iff in Hy as [Hy | Hy]; [tauto |].
  now apply (sorted_app_le _ _ Hs).
Qed.

(** The ranking [slice0 n (sort_desc (entries o))] of a counter. *)
Lemma ranking_facts n (o : counter) :
  let top := slice0 n (sort_desc (entries o)) in
  (List.length top <= n)%nat
  /\ non_increasing top
  /\ (forall e, In e top -> In e o)
  /\ highest_of top o
  /\ (forall c, exists rest, ties c (entries o) = (ties c top ++ rest)%list).
Proof.
  intros top. subst top. repeat split.
  - apply slice0_length.
  - apply slice0_sorted, sort_desc_sorted.
  - intros e He. apply in_entries.
    eapply Permutation_in; [apply sort_desc_perm |].
    eapply slice0_in, He.
  - intros x y Hx Hy Hny.
    apply (slice0_highest n _ (sort_desc_sorted (entries o)) x y);
      [assumption | | assumption].
    eapply Permutation_in; [apply Permutation_sym, sort_desc_perm |].
    now apply in_entries.
  - intros c. rewrite <- (ties_sort_desc c (entries o)). apply ties_slice0.
Qed.

(** ** The loop of [aggregateMetrics] *)

Section AggregateFacts.

Variable new_Date : string -> JsDate.t.

Lemma successes_processed fileContents :
  successes new_Date fileContents
  = map (analyze new_Date) (processed fileContents).
Proof.
  unfold successes, processed.
  induction fileContents as [| [msgs |] r IH]; simpl; congruence.
Qed.

(** The loop merges the metrics of the contents that were processed. *)
Lemma aggregate_successes fileContents : forall acc,
  fold_left (step new_Date) fileContents acc
  = fold_left merge (successes new_Date fileContents) acc.
Proof.
  unfold successes.
  induction fileContents as [| c r IH]; intros acc; simpl; [reflexivity |].
  rewrite IH. unfold step. destruct (analyzeChatLog new_Date c); reflexivity.
Qed.

Ltac fold_field :=
  let ms := fresh "ms" in
  let IH := fresh "IH" in
  intros ms; induction ms as [| ? ? IH]; intros ?; simpl;
  [ try reflexivity; try lia
  | rewrite IH; simpl; try reflexivity ].

Lemma fold_totalMessages : forall ms acc,
  Acc.totalMessages (fold_left merge ms acc)
  = Acc.totalMessages acc + sum_of PerDoc.totalMessages ms.
Proof. fold_field. lia. Qed.

Lemma fold_userMessages : forall ms acc,
  Acc.userMessages (fold_left merge ms acc)
  = Acc.userMessages acc + sum_of PerDoc.userMessages ms.
Proof. fold_field. lia. Qed.

Lemma fold_serviceMessages : forall ms acc,
  Acc.serviceMessages (fold_left merge ms acc)
  = Acc.serviceMessages acc + sum_of PerDoc.serviceMessages ms.
Proof. fold_field. lia. Qed.

Lemma fold_messagesByUser : forall ms acc,
  Acc.messagesByUser (fold_left merge ms acc)
  = add_counts_all (map (fun m => entries (PerDoc.messagesByUser m)) ms)
                   (Acc.messagesByUser acc).
Proof. fold_field. Qed.

Lemma fold_messagesByHour : forall ms acc,
  Acc.messagesByHour (fold_left merge ms acc)
  = add_counts_all (map (fun m => entries (PerDoc.messagesByHour m)) ms)
                   (Acc.messagesByHour acc).
Proof. fold_field. Qed.

Lemma fold_messagesByDayOfWeek : forall ms acc,
  Acc.messagesByDayOfWeek (fold_left merge ms acc)
  = add_counts_all
      (map (fun m => entries (PerDoc.messagesByDayOfWeek m)) ms)
      (Acc.messagesByDayOfWeek acc).
Proof. fold_field. Qed.

Lemma fold_messagesByDate : forall ms acc,
  Acc.messagesByDate (fold_left merge ms acc)
  = add_counts_all (map (fun m => entries (PerDoc.messagesByDate m)) ms)
                   (Acc.messagesByDate acc).
Proof. fold_field. Qed.

Lemma fold_reactionsByUser : forall ms acc,
  Acc.reactionsByUser (fold_left merge ms acc)
  = add_counts_all (map (fun m => entries (PerDoc.reactionsByUser m)) ms)
                   (Acc.reactionsByUser acc).
Proof. fold_field. Qed.

Lemma fold_wordFrequency : forall ms acc,
  Acc.wordFrequency (fold_left merge ms acc)
  = add_counts_all (map PerDoc.topWords ms) (Acc.wordFrequency acc).
Proof. fold_field. Qed.

Lemma fold_mentions : forall ms acc,
  Acc.mentions (fold_left merge ms acc)
  = add_counts_all (map PerDoc.topMentions ms) (Acc.mentions acc).
Proof. fold_field. Qed.

Lemma fold_messageLengths : forall ms acc,
  Acc.messageLengths (fold_left merge ms acc)
  = (Acc.messageLengths acc
     ++ List.concat (map PerDoc.messageLengthDistribution ms))%list.
Proof. fold_field. - now rewrite app_nil_r. - now rewrite app_assoc. Qed.

Lemma fold_links : forall ms acc,
  Acc.links (fold_left merge ms acc)
  = JsSet.add_all (List.concat (map PerDoc.uniqueLinks ms)) (Acc.links acc).
Proof. fold_field. now rewrite add_all_app. Qed.

Lemma fold_uniqueUsers : forall ms acc,
  Acc.uniqueUsers (fold_left merge ms acc)
  = JsSet.add_all
      (List.concat (map (fun m => keys (PerDoc.messagesByUser m)) ms))
      (Acc.uniqueUsers acc).
Proof. fold_field. now rewrite add_all_app. Qed.

End AggregateFacts.

(** ** The counters of one document *)

Lemma fold_left_invariant {A B} (P : A -> Prop) (f : A -> B -> A) l :
  (forall a x, P a -> P (f a x)) -> forall a, P a -> P (fold_left f l a).
Proof.
  intros Hf. induction l as [| x r IH]; intros a Ha; simpl; auto.
Qed.

Create HintDb wf discriminated.
#[local] Hint Resolve well_formed_bump well_formed_count_all
  well_formed_add_counts well_formed_add_counts_all : wf.

Ltac step_wf f :=
  unfold f; intros;
  repeat match goal with
         | |- context [match ?x with _ => _ end] => destruct x
         end; auto with wf.

Ltac loop_wf loop f :=
  unfold loop; apply fold_left_invariant;
  [step_wf f | apply well_formed_empty].

Lemma well_formed_userCounts messages : well_formed (userCounts_of messages).
Proof. loop_wf userCounts_of count_user. Qed.

Lemma well_formed_reactionCounts messages :
  well_formed (reactionCounts_of messages).
Proof. loop_wf reactionCounts_of count_reactions. Qed.

Lemma well_formed_hourCounts messages : well_formed (hourCounts_of messages).
Proof. loop_wf hourCounts_of count_hour. Qed.

Lemma well_formed_dayOfWeekCounts new_Date messages :
  well_formed (dayOfWeekCounts_of new_Date messages).
Proof. loop_wf dayOfWeekCounts_of count_weekday. Qed.

Lemma well_formed_messagesByDate new_Date messages :
  well_formed (messagesByDate_of new_Date messages).
Proof. loop_wf messagesByDate_of count_date. Qed.

Lemma well_formed_mentions messages : well_formed (mentions_of messages).
Proof. loop_wf mentions_of count_mentions. Qed.

(** The keys of a counter filled by a loop are created in the order in
    which the loop first meets them. *)
Lemma created_loop {A} (f : counter -> A -> counter) (g : A -> list string) l :
  (forall o x, created (f o x) = JsSet.add_all (g x) (created o)) ->
  forall o, created (fold_left f l o)
            = JsSet.add_all (flat_map g l) (created o).
Proof.
  intros Hf. induction l as [| x r IH]; intros o; simpl; [reflexivity |].
  now rewrite IH, Hf, add_all_app.
Qed.

Lemma created_userCounts messages :
  created (userCounts_of messages) = JsSet.add_all (senders messages) [].
Proof.
  unfold userCounts_of, senders. apply (created_loop count_user).
  intros o msg. unfold count_user. destruct (sender msg); [| reflexivity].
  apply created_bump.
Qed.

Lemma created_reactionCounts messages :
  created (reactionCounts_of messages)
  = JsSet.add_all (reacted_senders messages) [].
Proof.
  unfold reactionCounts_of, reacted_senders.
  apply (created_loop count_reactions).
  intros o msg. unfold count_reactions. destruct (sender msg); [| reflexivity].
  destruct (0 <? reactions msg)%nat; [apply created_bump | reflexivity].
Qed.

Lemma created_wordFrequency messages :
  created (wordFrequency_of messages) = JsSet.add_all (words messages) [].
Proof.
  unfold wordFrequency_of, words. apply (created_loop count_words).
  intros o msg. unfold count_words. destruct (body msg); [| reflexivity].
  apply created_count_all.
Qed.

Lemma created_mentions messages :
  created (mentions_of messages)
  = JsSet.add_all (mention_tokens messages) [].
Proof.
  unfold mentions_of, mention_tokens. apply (created_loop count_mentions).
  intros o msg. unfold count_mentions. destruct (body msg); [| reflexivity].
  apply created_count_all.
Qed.

Lemma links_of_seen messages :
  links_of messages = JsSet.add_all (links_seen messages) [].
Proof.
  unfold links_of, links_seen.
  generalize (@nil string) at 1 3. 
  induction (userMessages_of messages) as [| msg r IH]; intros s; simpl;
    [reflexivity |].
  rewrite IH, add_all_app. unfold collect_links.
  now destruct (body msg).
Qed.

(** ** The batch: failures, pooled mean, shape and sums *)

Lemma aggregateMetrics_successes new_Date fileContents :
  aggregateMetrics new_Date fileContents
  = finish (fold_left merge (successes new_Date fileContents) aggregated0).
Proof.
  unfold aggregateMetrics, aggregate. now rewrite aggregate_successes.
Qed.

Lemma successes_app new_Date l1 l2 :
  successes new_Date (l1 ++ l2)
  = (successes new_Date l1 ++ successes new_Date l2)%list.
Proof. unfold successes. apply flat_map_app. Qed.

(** C3. A content on which the analysis raises is skipped and the loop
    goes on: the result is the merge of the metrics of the contents that
    were processed, in batch order, so that dropping a failing content
    from a batch changes nothing and the message counts are the sums over
    the processed documents.  A batch in which every content fails or is
    the empty string gives the zeroed result. *)
Theorem failed_documents_are_skipped :
  forall new_Date fileContents,
    let agg := aggregateMetrics new_Date fileContents in
    let ms := successes new_Date fileContents in
    agg = finish (fold_left merge ms aggregated0)
    /\ (forall before c after,
          fileContents = (before ++ c :: after)%list ->
          analyzeChatLog new_Date c = None ->
          agg = aggregateMetrics new_Date (before ++ after))
    /\ (Agg.totalMessages agg = sum_of PerDoc.totalMessages ms
        /\ Agg.userMessages agg = sum_of PerDoc.userMessages ms
        /\ Agg.serviceMessages agg = sum_of PerDoc.serviceMessages ms)
    /\ ((forall c, In c fileContents ->
           analyzeChatLog new_Date c = None \/ c = Markup []) ->
        agg = zeroed).
Proof.
  intros new_Date fileContents agg ms. subst agg ms.
  split; [| split; [| split]].
  - apply aggregateMetrics_successes.
  - intros before c after -> Hc.
    rewrite !aggregateMetrics_successes, !successes_app. simpl.
    now rewrite Hc.
  - rewrite aggregateMetrics_successes.
    cbn [finish Agg.totalMessages Agg.userMessages Agg.serviceMessages].
    now rewrite fold_totalMessages, fold_userMessages, fold_serviceMessages.
  - intros H. unfold aggregateMetrics, aggregate.
    assert (E : fold_left (step new_Date) fileContents aggregated0
                = aggregated0).
    { induction fileContents as [| c r IH]; [reflexivity |].
      simpl. destruct (H c (or_introl eq_refl)) as [Hc | ->].
      - unfold step at 2. rewrite Hc. apply IH.
        intros c' Hc'. apply H. now right.
      - change (step new_Date aggregated0 (Markup [])) with aggregated0.
        apply IH. intros c' Hc'. apply H. now right. }
    rewrite E. reflexivity.
Qed.

Lemma failed_documents_are_skipped_witness :
  aggregateMetrics UtcDate.new_Date
    [Fixture.empty_string; Unparseable; Fixture.three_messages]
  = aggregateMetrics UtcDate.new_Date
      ([Fixture.empty_string] ++ [Fixture.three_messages])
  /\ aggregateMetrics UtcDate.new_Date [Fixture.empty_string; Unparseable]
     = zeroed.
Proof.
  destruct (failed_documents_are_skipped UtcDate.new_Date
              [Fixture.empty_string; Unparseable; Fixture.three_messages])
    as [_ [Hskip _]].
  destruct (failed_documents_are_skipped UtcDate.new_Date
              [Fixture.empty_string; Unparseable]) as [_ [_ [_ Hzero]]].
  split.
  - exact (Hskip [Fixture.empty_string] Unparseable
                 [Fixture.three_messages] eq_refl eq_refl).
  - apply Hzero. simpl. intros c [<- | [<- | []]]; [now right | now left].
Defined.

(** The counts of the valid document of a batch are all there. *)
Example empty_string_and_three_messages :
  Agg.totalMessages
    (aggregateMetrics UtcDate.new_Date
       [Fixture.empty_string; Fixture.three_messages]) = 3.
Proof. reflexivity. Qed.

(** C4. The aggregated [averageMessageLength] is the rounded mean of the
    length samples of all processed documents put end to end, not the
    mean of the documents' means: samples 2, 4, 6 and 8 give 5, while the
    documents' means 4 and 8 would give 6. *)
Theorem average_is_over_pooled_samples :
  forall new_Date,
    (forall fileContents,
        Agg.averageMessageLength (aggregateMetrics new_Date fileContents)
        = rounded_mean
            (List.concat (map PerDoc.messageLengthDistribution
                              (successes new_Date fileContents))))
    /\ (let batch := [Fixture.samples_246; Fixture.samples_8] in
        map PerDoc.messageLengthDistribution (successes new_Date batch)
        = [[2; 4; 6]; [8]]
        /\ map PerDoc.averageMessageLength (successes new_Date batch) = [4; 8]
        /\ Agg.averageMessageLength (aggregateMetrics new_Date batch) = 5
        /\ rounded_mean [4; 8] = 6).
Proof.
  intros new_Date. split.
  - intros fileContents. rewrite aggregateMetrics_successes. simpl.
    now rewrite fold_messageLengths.
  - repeat split.
Qed.

(** C2, the claim as stated fails: the aggregated result has no field
    [userMessagesByDate]. *)
Lemma aggregated_result_lacks_fields :
  ~ (forall f, In f PerDoc.fields -> In f Agg.fields).
Proof.
  intros H.
  assert (Hin : In "userMessagesByDate" Agg.fields).
  { apply H. unfold PerDoc.fields. do 8 right. now left. }
  unfold Agg.fields in Hin.
  repeat (destruct Hin as [Hin | Hin]; [discriminate Hin |]).
  exact Hin.
Qed.

(** The counters of the result are the counters of the processed
    documents, added one document after the other. *)
Lemma counters_of_aggregateMetrics new_Date fileContents :
  let agg := aggregateMetrics new_Date fileContents in
  let docs := processed fileContents in
  Agg.messagesByUser agg
  = add_counts_all (map entries (map userCounts_of docs)) []
  /\ Agg.messagesByHour agg
     = add_counts_all (map entries (map hourCounts_of docs)) []
  /\ Agg.messagesByDayOfWeek agg
     = add_counts_all
         (map entries (map (dayOfWeekCounts_of new_Date) docs)) []
  /\ Agg.messagesByDate agg
     = add_counts_all
         (map entries (map (messagesByDate_of new_Date) docs)) []
  /\ Agg.reactionsByUser agg
     = add_counts_all (map entries (map reactionCounts_of docs)) [].
Proof.
  intros agg docs. subst agg docs.
  rewrite aggregateMetrics_successes, successes_processed.
  unfold finish.
  cbn [Agg.messagesByUser Agg.messagesByHour Agg.messagesByDayOfWeek
       Agg.messagesByDate Agg.reactionsByUser].
  rewrite fold_messagesByUser, fold_messagesByHour,
    fold_messagesByDayOfWeek, fold_messagesByDate, fold_reactionsByUser.
  rewrite !map_map. repeat split.
Qed.

(** Each of the five counters of the result is the sum by key union of
    the counters of the processed documents. *)
Lemma aggregated_counters_sum new_Date fileContents :
  let agg := aggregateMetrics new_Date fileContents in
  let ms := successes new_Date fileContents in
  key_union_sum (Agg.messagesByUser agg) (map PerDoc.messagesByUser ms)
  /\ key_union_sum (Agg.messagesByHour agg) (map PerDoc.messagesByHour ms)
  /\ key_union_sum (Agg.messagesByDayOfWeek agg)
                   (map PerDoc.messagesByDayOfWeek ms)
  /\ key_union_sum (Agg.messagesByDate agg) (map PerDoc.messagesByDate ms)
  /\ key_union_sum (Agg.reactionsByUser agg)
                   (map PerDoc.reactionsByUser ms).
Proof.
  intros agg ms. subst agg ms.
  destruct (counters_of_aggregateMetrics new_Date fileContents)
    as (Eu & Eh & Ew & Ed & Er).
  rewrite Eu, Eh, Ew, Ed, Er, successes_processed, !map_map.
  split; [| split; [| split; [| split]]].
  all: match goal with
       | |- key_union_sum _ (map ?f ?l) =>
           rewrite <- (map_map _ entries);
           apply (add_entries_key_union_sum (map f l))
       end.
  all: apply Forall_forall; intros o Ho;
    apply in_map_iff in Ho as [msgs [<- _]].
  - apply well_formed_userCounts.
  - apply well_formed_hourCounts.
  - apply well_formed_dayOfWeekCounts.
  - apply well_formed_messagesByDate.
  - apply well_formed_reactionCounts.
Qed.

(** C2, amended.  [longestThreads] aside, the aggregated result has the
    fields of the per-document result except [userMessagesByDate] and
    [messageLengthDistribution], and two more, [mostActiveUsers] and
    [mostReactedTo].  When no sender name of the processed documents is
    the name of an inherited property, each of its five counters is the
    sum by key union of the counters of the processed documents. *)
Theorem aggregated_fields_and_counters :
  forall new_Date fileContents,
    let agg := aggregateMetrics new_Date fileContents in
    let ms := successes new_Date fileContents in
    without "longestThreads" Agg.fields
    = (filter (fun f => negb (existsb (String.eqb f) per_document_only))
              (without "longestThreads" PerDoc.fields)
       ++ aggregated_only)%list
    /\ (forallb plain_names (processed fileContents) = true ->
        key_union_sum (Agg.messagesByUser agg) (map PerDoc.messagesByUser ms)
        /\ key_union_sum (Agg.messagesByHour agg)
                         (map PerDoc.messagesByHour ms)
        /\ key_union_sum (Agg.messagesByDayOfWeek agg)
                         (map PerDoc.messagesByDayOfWeek ms)
        /\ key_union_sum (Agg.messagesByDate agg)
                         (map PerDoc.messagesByDate ms)
        /\ key_union_sum (Agg.reactionsByUser agg)
                         (map PerDoc.reactionsByUser ms)).
Proof.
  intros new_Date fileContents agg ms. split; [reflexivity |].
  intros _. apply aggregated_counters_sum.
Qed.

Lemma aggregated_fields_and_counters_witness :
  forallb plain_names
          (processed [Fixture.four_dated; Fixture.with_reactions;
                      Fixture.three_messages]) = true
  /\ key_union_sum
       (Agg.messagesByUser
          (aggregateMetrics UtcDate.new_Date
             [Fixture.four_dated; Fixture.with_reactions;
              Fixture.three_messages]))
       (map PerDoc.messagesByUser
            (successes UtcDate.new_Date
               [Fixture.four_dated; Fixture.with_reactions;
                Fixture.three_messages])).
Proof.
  assert (H : forallb plain_names
                      (processed [Fixture.four_dated; Fixture.with_reactions;
                                  Fixture.three_messages]) = true)
    by (vm_compute; reflexivity).
  split; [exact H |].
  exact (proj1 (proj2 (aggregated_fields_and_counters UtcDate.new_Date
                         [Fixture.four_dated; Fixture.with_reactions;
                          Fixture.three_messages]) H)).
Defined.

(** ** Rankings *)

Lemma top_ranking_ext n (c c' : string -> Prop) (s s' : string -> Z) r :
  (forall k, c k <-> c' k) -> (forall k, s k = s' k) ->
  top_ranking n c s r -> top_ranking n c' s' r.
Proof.
  intros Hc Hs (Hlen & Hnd & Hsort & Hin & Htop).
  repeat split; try assumption.
  - apply Hc, Hin, H.
  - rewrite <- Hs. now apply Hin.
  - intros e k He Hk Hnk. rewrite <- Hs. apply Htop; [| apply Hc |]; assumption.
Qed.

Lemma NoDup_firstn {A} n (l : list A) : NoDup l -> NoDup (firstn n l).
Proof.
  intros H. rewrite <- (firstn_skipn n l) in H.
  now apply NoDup_app_remove_r in H.
Qed.

Lemma in_created_entry (o : counter) k :
  In k (created o) -> exists v, In (k, v) o.
Proof.
  unfold created. intros H. apply in_map_iff in H as [[k' v] [E H]].
  simpl in E. subst. now exists v.
Qed.

(** The cut ranking of a counter lists its highest keys with their
    counts. *)
Lemma ranking_top_ranking n (o : counter) :
  well_formed o ->
  let top := slice0 n (sort_desc (entries o)) in
  top_ranking n (fun k => In k (keys o)) (fun k => get0 k o) top
  /\ List.length top = Nat.min n (List.length (keys o)).
Proof.
  intros Hwf top.
  destruct (ranking_facts n o) as (Hlen & Hsort & Hin & Hhigh & _).
  fold top in Hlen, Hsort, Hin, Hhigh.
  assert (Hget : forall e, In e o -> get0 (fst e) o = snd e).
  { intros [k v] He. unfold get0. simpl. now rewrite (in_lookup k v o Hwf He). }
  split; [repeat split |].
  - exact Hlen.
  - subst top. unfold slice0. rewrite <- firstn_map. apply NoDup_firstn.
    eapply Permutation_NoDup; [| apply (NoDup_keys o Hwf)].
    apply Permutation_map, Permutation_sym, sort_desc_perm.
  - exact Hsort.
  - apply in_keys. unfold created. apply in_map. now apply Hin.
  - symmetry. now apply Hget, Hin.
  - intros e k He Hk Hnk. apply (proj1 (in_keys k o)) in Hk.
    apply in_created_entry in Hk as [v Hv].
    generalize (Hget _ Hv). simpl. intros ->.
    apply (Hhigh e (k, v) He Hv).
    intros Hc. apply Hnk. now apply (in_map fst) in Hc.
  - subst top. unfold slice0, keys. rewrite length_firstn, !length_map.
    f_equal. apply Permutation_length, sort_desc_perm.
Qed.

Lemma pairs_ranked n (o : counter) :
  pairs (ranked n o) = slice0 n (sort_desc (entries o)).
Proof.
  unfold pairs, ranked. rewrite map_map. simpl.
  induction (slice0 n (sort_desc (entries o))) as [| [k v] r IH];
    simpl; congruence.
Qed.


(** ** Mentions *)

Lemma distinct_add_all l :
  Z.of_nat (List.length (JsSet.add_all l [])) = distinct l.
Proof.
  unfold distinct. f_equal. apply Permutation_length, NoDup_Permutation.
  - apply NoDup_add_all. constructor.
  - apply NoDup_nodup.
  - intros x. rewrite in_add_all, nodup_In. simpl. tauto.
Qed.

Lemma in_created_add_counts_all k lists :
  In k (created (add_counts_all lists []))
  <-> exists l, In l lists /\ In k (map fst l).
Proof.
  rewrite created_add_counts_all, in_add_all, in_concat. simpl. split.
  - intros [[ks [Hks Hk]] | []]. apply in_map_iff in Hks as [l [<- Hl]]. eauto.
  - intros [l [Hl Hk]]. left. exists (map fst l). split; [| assumption].
    now apply in_map.
Qed.

(** The per-document ranking of the mentions is the whole counter. *)
Lemma topMentions_complete new_Date messages :
  Permutation (PerDoc.topMentions (analyze new_Date messages))
              (mentions_of messages).
Proof.
  simpl. eapply perm_trans; [apply sort_desc_perm | apply entries_perm].
Qed.

Lemma in_mentions_of k messages :
  In k (created (mentions_of messages)) <-> In k (mention_tokens messages).
Proof. rewrite created_mentions, in_add_all. simpl. tauto. Qed.

(** The mention counter of the batch is the sum of the mention counters
    of the processed documents. *)
Lemma aggregated_mentions new_Date fileContents :
  let merged := Acc.mentions (aggregate new_Date fileContents) in
  let docs := processed fileContents in
  well_formed merged
  /\ (forall k, get0 k merged
                = sum_of (fun msgs => get0 k (mentions_of msgs)) docs)
  /\ (forall k, In k (keys merged)
                <-> exists msgs, In msgs docs /\ In k (mention_tokens msgs)).
Proof.
  intros merged docs. subst merged docs. unfold aggregate.
  rewrite aggregate_successes, fold_mentions, successes_processed, map_map.
  cbn [Acc.mentions aggregated0]. split; [| split].
  - apply well_formed_add_counts_all, well_formed_empty.
  - intros k. rewrite get0_add_counts_all, sum_of_map.
    unfold get0 at 1. simpl lookup. cbv iota. rewrite Z.add_0_l.
    apply sum_of_ext, Forall_forall. intros msgs _.
    rewrite (total_perm k _ _ (topMentions_complete new_Date msgs)).
    apply total_store, well_formed_mentions.
  - intros k. rewrite in_keys, in_created_add_counts_all. split.
    + intros [l [Hl Hk]]. apply in_map_iff in Hl as [msgs [<- Hm]].
      exists msgs. split; [assumption |]. apply in_mentions_of.
      eapply Permutation_in; [| exact Hk].
      apply Permutation_map, topMentions_complete.
    + intros [msgs [Hm Hk]].
      exists (PerDoc.topMentions (analyze new_Date msgs)). split.
      * apply in_map_iff. now exists msgs.
      * eapply Permutation_in;
          [apply Permutation_map, Permutation_sym, topMentions_complete |].
        now apply in_mentions_of.
Qed.

(** C10.  The aggregated [topMentions] are the 20 highest entries of the
    mention counts summed over the processed documents (all of them when
    fewer than 20 tokens are mentioned), in an order of never increasing
    count, whereas the [topMentions] of one document list every mention
    token of the document. *)
Theorem aggregated_topMentions_are_cut_at_20 :
  forall new_Date fileContents,
    let top := Agg.topMentions (aggregateMetrics new_Date fileContents) in
    let docs := processed fileContents in
    top_ranking 20
      (fun k => exists msgs, In msgs docs /\ In k (mention_tokens msgs))
      (fun k => sum_of (fun msgs => get0 k (mentions_of msgs)) docs)
      top
    /\ List.length top
       = Nat.min 20 (List.length
                       (nodup string_dec (flat_map mention_tokens docs)))
    /\ (forall messages,
          let listed := PerDoc.topMentions (analyze new_Date messages) in
          Permutation listed (mentions_of messages)
          /\ non_increasing listed
          /\ List.length listed
             = List.length (nodup string_dec (mention_tokens messages))).
Proof.
  intros new_Date fileContents top docs.
  destruct (aggregated_mentions new_Date fileContents) as (Hwf & Hsum & Hkeys).
  fold docs in Hsum, Hkeys.
  destruct (ranking_top_ranking 20 _ Hwf) as [Ht Hl].
  change (slice0 20 (sort_desc
            (entries (Acc.mentions (aggregate new_Date fileContents)))))
    with top in Ht, Hl.
  split; [| split].
  - eapply top_ranking_ext; [exact Hkeys | exact Hsum | exact Ht].
  - rewrite Hl. f_equal. apply Permutation_length, NoDup_Permutation.
    + now apply NoDup_keys.
    + apply NoDup_nodup.
    + intros k. rewrite Hkeys, nodup_In, in_flat_map. reflexivity.
  - intros messages listed. subst listed. split; [| split].
    + apply topMentions_complete.
    + apply sort_desc_sorted.
    + rewrite (Permutation_length (topMentions_complete new_Date messages)).
      rewrite <- (length_map fst). fold (created (mentions_of messages)).
      rewrite created_mentions. apply Nat2Z.inj, distinct_add_all.
Qed.

(** ** Words *)

Lemma in_words_long k messages :
  In k (words messages) -> (3 < String.length k)%nat.
Proof.
  unfold words. intros H. apply in_flat_map in H as [msg [_ H]].
  destruct (body msg); [| contradiction].
  unfold words_of in H. apply filter_In in H as [_ H].
  now apply Nat.ltb_lt.
Qed.

Lemma in_wordFrequency k messages :
  In k (created (wordFrequency_of messages)) <-> In k (words messages).
Proof. rewrite created_wordFrequency, in_add_all. simpl. tauto. Qed.

Lemma topWords_keys new_Date messages e :
  In e (PerDoc.topWords (analyze new_Date messages)) ->
  In (fst e) (words messages).
Proof.
  intros H.
  change (In e (slice0 50 (sort_desc (entries (wordFrequency_of messages)))))
    in H.
  apply in_wordFrequency. unfold created. apply in_map.
  apply in_entries. eapply Permutation_in; [apply sort_desc_perm |].
  eapply slice0_in, H.
Qed.

(** The word counter of the batch is filled from the rankings of the
    documents. *)
Lemma aggregated_wordFrequency new_Date fileContents :
  Acc.wordFrequency (aggregate new_Date fileContents)
  = add_counts_all (map PerDoc.topWords (successes new_Date fileContents)) [].
Proof.
  unfold aggregate. now rewrite aggregate_successes, fold_wordFrequency.
Qed.

(** C7, the claim as stated fails: a numeral met after a word of the same
    count is ranked before it. *)
Lemma numeral_is_ranked_before_earlier_word :
  ~ ties_in_first_encounter_order
      (words Fixture.numeral_after_word)
      (PerDoc.topWords
         (analyze UtcDate.new_Date Fixture.numeral_after_word)).
Proof.
  intros H.
  specialize (H [] ("1234", 1) [] ("zzzz", 1) [] eq_refl eq_refl).
  vm_compute in H. lia.
Qed.

(** C7, amended.  When no sender name and no counted word is the name of
    an inherited property, [topWords], of a document and of a batch, has
    at most 50
    entries, its counts never increase, none of its tokens has three code
    units or fewer, and entries of equal count stand in the order in
    which [Object.entries] enumerates the frequency object: array-index
    tokens first, by ascending number, then the other tokens in the order
    of their creation.  In a document the tokens are created in the order
    of their first occurrence, so that without array-index tokens the
    ties follow first-encounter order; in a batch they are created in the
    order in which the documents' rankings list them. *)
Theorem topWords_ranking :
  forall new_Date,
    (forall messages,
        plain_names messages = true ->
        plain_words messages = true ->
        let wf := wordFrequency_of messages in
        let top := PerDoc.topWords (analyze new_Date messages) in
        (List.length top <= 50)%nat
        /\ non_increasing top
        /\ (forall e, In e top -> (3 < String.length (fst e))%nat)
        /\ (forall c, exists rest,
               ties c (entries wf) = (ties c top ++ rest)%list)
        /\ created wf = first_occurrences [] (words messages)
        /\ (forallb (fun k => negb (is_index k)) (words messages) = true ->
            forall c, exists rest, ties c wf = (ties c top ++ rest)%list))
    /\ (forall fileContents,
          forallb plain_names (processed fileContents) = true ->
          forallb plain_words (processed fileContents) = true ->
          let wf := Acc.wordFrequency (aggregate new_Date fileContents) in
          let top := Agg.topWords (aggregateMetrics new_Date fileContents) in
          (List.length top <= 50)%nat
          /\ non_increasing top
          /\ (forall e, In e top -> (3 < String.length (fst e))%nat)
          /\ (forall c, exists rest,
                 ties c (entries wf) = (ties c top ++ rest)%list)
          /\ created wf
             = first_occurrences []
                 (List.concat
                    (map (fun m => map fst (PerDoc.topWords m))
                         (successes new_Date fileContents)))).
Proof.
  intros new_Date. split.
  - intros messages _ _ wf top.
    destruct (ranking_facts 50 wf) as (Hlen & Hsort & _ & _ & Hties).
    change (slice0 50 (sort_desc (entries wf))) with top
      in Hlen, Hsort, Hties.
    repeat (split; [assumption |]).
    split; [| split; [| split]].
    + intros e He. eapply in_words_long, topWords_keys, He.
    + exact Hties.
    + subst wf. now rewrite created_wordFrequency, add_all_first_occurrences.
    + intros Hno c. rewrite <- (entries_no_index wf); [apply Hties |].
      apply forallb_forall. intros k Hk.
      rewrite forallb_forall in Hno. apply Hno.
      now apply in_wordFrequency.
  - intros fileContents _ _ wf top.
    destruct (ranking_facts 50 wf) as (Hlen & Hsort & Hin & _ & Hties).
    change (slice0 50 (sort_desc (entries wf))) with top
      in Hlen, Hsort, Hin, Hties.
    repeat (split; [assumption |]).
    split; [| split].
    + intros e He. apply Hin in He. apply (in_map fst) in He.
      fold (created wf) in He. subst wf.
      rewrite aggregated_wordFrequency in He.
      apply in_created_add_counts_all in He as [l [Hl He]].
      rewrite successes_processed, map_map in Hl.
      apply in_map_iff in Hl as [msgs [<- _]].
      apply in_map_iff in He as [e' [E He']]. rewrite <- E.
      eapply in_words_long, topWords_keys, He'.
    + exact Hties.
    + subst wf. rewrite aggregated_wordFrequency, created_add_counts_all.
      rewrite add_all_first_occurrences, map_map. reflexivity.
Qed.

Lemma topWords_ranking_witness :
  plain_names [Fixture.wrote "good morning good people"] = true
  /\ plain_words [Fixture.wrote "good morning good people"] = true
  /\ forallb (fun k => negb (is_index k))
             (words [Fixture.wrote "good morning good people"]) = true
  /\ exists rest,
      ties 1 (wordFrequency_of [Fixture.wrote "good morning good people"])
      = (ties 1 (PerDoc.topWords
                   (analyze UtcDate.new_Date
                            [Fixture.wrote "good morning good people"]))
         ++ rest)%list.
Proof.
  split; [reflexivity | split; [reflexivity | split; [reflexivity |]]].
  destruct (proj1 (topWords_ranking UtcDate.new_Date)
                  [Fixture.wrote "good morning good people"]
                  eq_refl eq_refl)
    as (_ & _ & _ & _ & _ & H).
  apply H. reflexivity.
Defined.

(** ** Links *)

Lemma in_link_targets href msg :
  In href (link_targets msg)
  <-> In (Some href) (anchors msg)
      /\ href <> "" /\ startsWith "@" href = false.
Proof.
  unfold link_targets. rewrite in_flat_map. split.
  - intros [[h |] [Ha Hh]]; [| contradiction].
    destruct (is_empty h) eqn:Ee; simpl in Hh; [contradiction |].
    destruct (startsWith "@" h) eqn:Es; simpl in Hh; [contradiction |].
    destruct Hh as [<- | []]. repeat split; try assumption.
    intros ->. discriminate.
  - intros (Ha & Hne & Hs). exists (Some href). split; [assumption |].
    destruct href; [congruence |]. simpl is_empty. rewrite Hs. now left.
Qed.

Lemma NoDup_first_occurrences l : NoDup (first_occurrences [] l).
Proof.
  change (first_occurrences [] l) with ([] ++ first_occurrences [] l)%list.
  rewrite <- add_all_first_occurrences. apply NoDup_add_all. constructor.
Qed.

Lemma in_first_occurrences x l : In x (first_occurrences [] l) <-> In x l.
Proof.
  change (first_occurrences [] l) with ([] ++ first_occurrences [] l)%list.
  rewrite <- add_all_first_occurrences, in_add_all. simpl. tauto.
Qed.

(** The links of the batch are the links seen in the processed documents,
    in batch order. *)
Lemma aggregated_links new_Date fileContents :
  Agg.uniqueLinks (aggregateMetrics new_Date fileContents)
  = JsSet.add_all (flat_map links_seen (processed fileContents)) [].
Proof.
  rewrite aggregateMetrics_successes, successes_processed.
  cbn [finish Agg.uniqueLinks]. rewrite fold_links, map_map.
  cbn [Acc.links aggregated0].
  generalize (@nil string).
  induction (processed fileContents) as [| msgs r IH]; intros s;
    [reflexivity |].
  simpl map. simpl List.concat. simpl flat_map.
  rewrite !add_all_app, IH. f_equal.
  change (PerDoc.uniqueLinks (analyze new_Date msgs)) with (links_of msgs).
  rewrite links_of_seen. apply add_all_add_all.
Qed.

(** C9, the claim as stated fails: the link of a user message that has no
    text element is not listed. *)
Lemma link_of_textless_message_is_dropped :
  ~ every_link_listed
      Fixture.link_without_text
      (PerDoc.uniqueLinks
         (analyze UtcDate.new_Date Fixture.link_without_text)).
Proof.
  intros H.
  apply (H (Fixture.linking None [Some "https://example.org/a"])
           "https://example.org/a"); simpl; auto.
Qed.

(** C9, amended.  [uniqueLinks] has no duplicates and lists, in the order
    in which they are first seen (through the documents in batch order for
    a batch), the link targets of the user messages that have a text
    element, an [href] that is empty or begins with an at sign left out. *)
Theorem uniqueLinks_first_seen :
  forall new_Date,
    (forall messages,
        let links := PerDoc.uniqueLinks (analyze new_Date messages) in
        NoDup links
        /\ links = first_occurrences [] (links_seen messages)
        /\ (forall href,
               In href links
               <-> exists msg,
                   In msg (userMessages_of messages)
                   /\ text msg <> None
                   /\ In (Some href) (anchors msg)
                   /\ href <> ""
                   /\ startsWith "@" href = false))
    /\ (forall fileContents,
          let links :=
            Agg.uniqueLinks (aggregateMetrics new_Date fileContents) in
          NoDup links
          /\ links
             = first_occurrences []
                 (flat_map links_seen (processed fileContents))).
Proof.
  intros new_Date. split.
  - intros messages links.
    assert (E : links = first_occurrences [] (links_seen messages)).
    { subst links.
      change (PerDoc.uniqueLinks (analyze new_Date messages))
        with (links_of messages).
      now rewrite links_of_seen, add_all_first_occurrences. }
    rewrite E. split; [apply NoDup_first_occurrences |].
    split; [reflexivity |].
    intros href. rewrite in_first_occurrences. unfold links_seen.
    rewrite in_flat_map. split.
    + intros [msg [Hm Hh]]. exists msg. split; [assumption |].
      unfold body in Hh. destruct (text msg); [| contradiction].
      split; [discriminate |]. now apply in_link_targets.
    + intros (msg & Hm & Ht & Hh). exists msg. split; [assumption |].
      unfold body. destruct (text msg); [| congruence].
      now apply in_link_targets.
  - intros fileContents links. subst links.
    rewrite aggregated_links, add_all_first_occurrences. simpl app.
    split; [apply NoDup_first_occurrences | reflexivity].
Qed.

(** ** Users *)


Lemma in_userCounts k messages :
  In k (keys (userCounts_of messages)) <-> In k (senders messages).
Proof. rewrite in_keys, created_userCounts, in_add_all. simpl. tauto. Qed.

Lemma in_reactionCounts k messages :
  In k (keys (reactionCounts_of messages))
  <-> In k (reacted_senders messages).
Proof. rewrite in_keys, created_reactionCounts, in_add_all. simpl. tauto. Qed.




Lemma keys_count (o : counter) (l : list string) :
  well_formed o ->
  (forall k, In k (keys o) <-> In k l) ->
  List.length (keys o) = List.length (nodup string_dec l).
Proof.
  intros Hwf Hin. apply Permutation_length, NoDup_Permutation.
  - now apply NoDup_keys.
  - apply NoDup_nodup.
  - intros k. rewrite nodup_In. apply Hin.
Qed.

(** C8.  For a batch in which no sender name is the name of an inherited
    property, [mostActiveUsers] and [mostReactedTo] are lists of name and
    count pairs, of at most 10 entries: 10 of the distinct senders of the
    processed documents (of the senders of a message with a reaction), or
    all of them when there are fewer.  The count of a user is the sum of
    the user's counts over the processed documents, the counts never
    increase, and no user left out has a higher sum than a user listed. *)
Theorem most_active_and_most_reacted :
  forall new_Date fileContents,
    forallb plain_names (processed fileContents) = true ->
    let agg := aggregateMetrics new_Date fileContents in
    let ms := successes new_Date fileContents in
    let docs := processed fileContents in
    (top_ranking 10
       (fun u => exists m, In m ms /\ In u (keys (PerDoc.messagesByUser m)))
       (fun u => sum_of (fun m => get0 u (PerDoc.messagesByUser m)) ms)
       (pairs (Agg.mostActiveUsers agg))
     /\ List.length (Agg.mostActiveUsers agg)
        = Nat.min 10 (List.length (nodup string_dec (flat_map senders docs))))
    /\ (top_ranking 10
          (fun u => exists m, In m ms /\ In u (keys (PerDoc.reactionsByUser m)))
          (fun u => sum_of (fun m => get0 u (PerDoc.reactionsByUser m)) ms)
          (pairs (Agg.mostReactedTo agg))
        /\ List.length (Agg.mostReactedTo agg)
           = Nat.min 10 (List.length
                           (nodup string_dec
                                  (flat_map reacted_senders docs)))).
Proof.
  intros new_Date fileContents _ agg ms docs.
  destruct (aggregated_counters_sum new_Date fileContents)
    as (Hu & _ & _ & _ & Hr).
  fold agg ms in Hu, Hr.
  assert (Hwf : well_formed (Agg.messagesByUser agg)
                /\ well_formed (Agg.reactionsByUser agg)).
  { destruct (counters_of_aggregateMetrics new_Date fileContents)
      as (Eu & _ & _ & _ & Er).
    fold agg in Eu, Er. rewrite Eu, Er.
    split; apply well_formed_add_counts_all, well_formed_empty. }
  destruct Hwf as [Hwu Hwr].
  assert (Ea : Agg.mostActiveUsers agg = ranked 10 (Agg.messagesByUser agg))
    by reflexivity.
  assert (Eb : Agg.mostReactedTo agg = ranked 10 (Agg.reactionsByUser agg))
    by reflexivity.
  rewrite Ea, Eb, !pairs_ranked.
  unfold ranked at 1 2. rewrite !length_map.
  split.
  - destruct (ranking_top_ranking 10 _ Hwu) as [Ht Hl]. split.
    + eapply top_ranking_ext; [| | exact Ht].
      * intros k. destruct (Hu k) as [Hk _]. rewrite Hk. split.
        -- intros [p [Hp Hkp]]. apply in_map_iff in Hp as [m [<- Hm]]. eauto.
        -- intros [m [Hm Hkm]]. exists (PerDoc.messagesByUser m).
           split; [now apply in_map | assumption].
      * intros k. destruct (Hu k) as [_ Hs]. now rewrite Hs, sum_of_map.
    + rewrite Hl. f_equal. apply keys_count; [exact Hwu |].
      intros k. destruct (Hu k) as [-> _]. unfold ms.
      rewrite successes_processed, map_map, in_flat_map. fold docs. split.
      * intros [p [Hp Hk]]. apply in_map_iff in Hp as [msgs [<- Hm]].
        exists msgs. split; [assumption |]. now apply in_userCounts.
      * intros [msgs [Hm Hk]]. exists (userCounts_of msgs).
        split; [apply in_map_iff; now exists msgs |].
        now apply in_userCounts.
  - destruct (ranking_top_ranking 10 _ Hwr) as [Ht Hl]. split.
    + eapply top_ranking_ext; [| | exact Ht].
      * intros k. destruct (Hr k) as [Hk _]. rewrite Hk. split.
        -- intros [p [Hp Hkp]]. apply in_map_iff in Hp as [m [<- Hm]]. eauto.
        -- intros [m [Hm Hkm]]. exists (PerDoc.reactionsByUser m).
           split; [now apply in_map | assumption].
      * intros k. destruct (Hr k) as [_ Hs]. now rewrite Hs, sum_of_map.
    + rewrite Hl. f_equal. apply keys_count; [exact Hwr |].
      intros k. destruct (Hr k) as [-> _]. unfold ms.
      rewrite successes_processed, map_map, in_flat_map. fold docs. split.
      * intros [p [Hp Hk]]. apply in_map_iff in Hp as [msgs [<- Hm]].
        exists msgs. split; [assumption |]. now apply in_reactionCounts.
      * intros [msgs [Hm Hk]]. exists (reactionCounts_of msgs).
        split; [apply in_map_iff; now exists msgs |].
        now apply in_reactionCounts.
Qed.

Lemma most_active_and_most_reacted_witness :
  forallb plain_names
          (processed [Fixture.with_reactions; Fixture.three_messages]) = true
  /\ List.length
       (Agg.mostActiveUsers
          (aggregateMetrics UtcDate.new_Date
             [Fixture.with_reactions; Fixture.three_messages]))
     = Nat.min 10
         (List.length
            (nodup string_dec
                   (flat_map senders
                      (processed [Fixture.with_reactions;
                                  Fixture.three_messages])))).
Proof.
  assert (H : forallb plain_names
                      (processed [Fixture.with_reactions;
                                  Fixture.three_messages]) = true)
    by (vm_compute; reflexivity).
  split; [exact H |].
  exact (proj2 (proj1 (most_active_and_most_reacted UtcDate.new_Date
                         [Fixture.with_reactions; Fixture.three_messages]
                         H))).
Defined.

(** ** Hours *)

Lemma count_hour_key o msg :
  count_hour o msg
  = match hour_key msg with Some k => bump k 1 o | None => o end.
Proof.
  unfold count_hour, hour_key.
  destruct (dated msg) as [[timeElem fullDate] |]; [| reflexivity].
  now destruct (hour_of timeElem).
Qed.

Lemma created_hourCounts messages :
  created (hourCounts_of messages)
  = JsSet.add_all
      (flat_map (fun msg => match hour_key msg with
                            | Some k => [k]
                            | None => []
                            end) messages) [].
Proof.
  unfold hourCounts_of. apply (created_loop count_hour).
  intros o msg. rewrite count_hour_key.
  destruct (hour_key msg); [apply created_bump | reflexivity].
Qed.


Section Displayed.

Variable new_Date : string -> JsDate.t.
Variable shown : Message -> string.










End Displayed.




(** ** The example of the two crowded documents *)

(** C1, evaluated.  In each of two documents the word [wwww] occurs 26
    times and fifty other words 27 times.  The fifty highest entries of
    the summed word counts begin with [wwww] and its 52 occurrences;
    [aggregateMetrics], which adds up the [topWords] of the documents,
    does not list [wwww] at all. *)
Theorem crowded_word_is_lost :
  let code :=
    Agg.topWords (aggregateMetrics UtcDate.new_Date Fixture.two_crowded) in
  let expected := topWords_of_merged Fixture.two_crowded in
  get0 "wwww" (merged_wordFrequency Fixture.two_crowded) = 52
  /\ hd_error expected = Some ("wwww", 52)
  /\ existsb (fun e => String.eqb (fst e) "wwww") code = false
  /\ hd_error code = Some ("alpha0", 27)
  /\ get0 "wwww" (wordFrequency_of
                    (List.concat (processed [Fixture.crowded "alpha"])))
     = 26.
Proof.
  vm_compute. repeat split.
Qed.

(** ** Examples *)

(** Dates 2024-01-01 (3) and 2024-01-02 (1) in one document and 2024-01-02
    (2) in another. *)
Example dates_are_summed :
  let agg := aggregateMetrics UtcDate.new_Date
               [Fixture.four_dated; Fixture.two_dated] in
  Agg.messagesByDate agg = [("2024-01-01", 3); ("2024-01-02", 3)]
  /\ Agg.totalMessages agg = 6
  /\ Agg.messagesByDayOfWeek agg = [("Monday", 3); ("Tuesday", 3)]
  /\ entries (Agg.messagesByHour agg)
     = [("0", 1); ("9", 3); ("18", 1); ("23", 1)].
Proof. vm_compute. repeat split. Qed.

(** A timestamp that gives no date is counted under the week day
    [Invalid Date], under its hour and under no date. *)
Example invalid_date_is_a_week_day :
  let m := analyze UtcDate.new_Date Fixture.undated in
  PerDoc.messagesByDayOfWeek m = [("Invalid Date", 1)]
  /\ PerDoc.messagesByDate m = []
  /\ PerDoc.messagesByHour m = [("10", 1)].
Proof. vm_compute. repeat split. Qed.

Example reactions_are_ranked :
  let agg := aggregateMetrics UtcDate.new_Date [Fixture.with_reactions] in
  pairs (Agg.mostReactedTo agg) = [("bob", 5); ("ann", 1)]
  /\ pairs (Agg.mostActiveUsers agg) = [("bob", 2); ("ann", 2)]
  /\ Agg.totalMessages agg = 5
  /\ Agg.userMessages agg = 4
  /\ Agg.serviceMessages agg = 1
  /\ Agg.uniqueUsers agg = 2.
Proof. vm_compute. repeat split. Qed.

(** * Further properties *)

(** ** Counting with a loop *)

Lemma get0_loop {A} (f : counter -> A -> counter) (w : A -> Z) k l :
  (forall o x, get0 k (f o x) = get0 k o + w x) ->
  forall o, get0 k (fold_left f l o) = get0 k o + sum_of w l.
Proof.
  intros Hf. induction l as [| x r IH]; intros o; simpl; [lia |].
  rewrite IH, Hf. lia.
Qed.

Lemma sum_of_indicator {A} (p : A -> bool) l :
  sum_of (fun x => if p x then 1 else 0) l = count_of p l.
Proof.
  unfold count_of. induction l as [| x r IH]; simpl; [reflexivity |].
  rewrite IH. destruct (p x); simpl List.length; lia.
Qed.

Lemma sum_of_app {A} (f : A -> Z) l1 l2 :
  sum_of f (l1 ++ l2) = sum_of f l1 + sum_of f l2.
Proof. unfold sum_of. induction l1; simpl; lia. Qed.

Lemma sum_of_flat_map {A B} (f : B -> Z) (g : A -> list B) l :
  sum_of f (flat_map g l) = sum_of (fun x => sum_of f (g x)) l.
Proof.
  induction l as [| x r IH]; simpl; [reflexivity |].
  rewrite sum_of_app, IH. reflexivity.
Qed.

Lemma sum_of_nonneg {A} (f : A -> Z) l :
  (forall x, In x l -> 0 <= f x) -> 0 <= sum_of f l.
Proof.
  induction l as [| x r IH]; simpl; intros H; [lia |].
  specialize (H x (or_introl eq_refl)) as Hx.
  assert (0 <= sum_of f r) by (apply IH; intros y Hy; apply H; now right).
  lia.
Qed.

Lemma sum_of_le {A} (f g : A -> Z) l :
  (forall x, In x l -> f x <= g x) -> sum_of f l <= sum_of g l.
Proof.
  induction l as [| x r IH]; simpl; intros H; [lia |].
  specialize (H x (or_introl eq_refl)) as Hx.
  assert (sum_of f r <= sum_of g r) by (apply IH; intros y Hy; apply H; now right).
  lia.
Qed.

Lemma sum_of_perm {A} (f : A -> Z) l l' :
  Permutation l l' -> sum_of f l = sum_of f l'.
Proof. induction 1; simpl; lia. Qed.

Lemma count_of_nonneg {A} (p : A -> bool) l : 0 <= count_of p l.
Proof. unfold count_of. lia. Qed.

Lemma count_of_le_length {A} (p : A -> bool) l :
  count_of p l <= Z.of_nat (List.length l).
Proof.
  unfold count_of. apply Nat2Z.inj_le. induction l as [| x r IH]; simpl.
  - lia.
  - destruct (p x); simpl; lia.
Qed.

Lemma count_of_filter {A} (p q : A -> bool) l :
  count_of p (filter q l) = count_of (fun x => q x && p x) l.
Proof.
  unfold count_of.
  assert (E : filter p (filter q l) = filter (fun x => q x && p x) l).
  { induction l as [| x r IH]; simpl; [reflexivity |].
    destruct (q x); simpl; [| exact IH].
    destruct (p x); now rewrite IH. }
  now rewrite E.
Qed.

Lemma count_of_le {A} (p q : A -> bool) l :
  (forall x, p x = true -> q x = true) -> count_of p l <= count_of q l.
Proof.
  intros H. rewrite <- !sum_of_indicator. apply sum_of_le. intros x _.
  specialize (H x).
  destruct (p x), (q x); first [lia | discriminate (H eq_refl)].
Qed.

Lemma occurrences_app k l1 l2 :
  occurrences k (l1 ++ l2) = occurrences k l1 + occurrences k l2.
Proof.
  unfold occurrences, count_of. rewrite filter_app, length_app. lia.
Qed.

Lemma occurrences_flat_map {A} k (g : A -> list string) l :
  occurrences k (flat_map g l) = sum_of (fun x => occurrences k (g x)) l.
Proof.
  induction l as [| x r IH]; simpl; [reflexivity |].
  now rewrite occurrences_app, IH.
Qed.

Lemma occurrences_pos k l : In k l <-> 1 <= occurrences k l.
Proof.
  unfold occurrences, count_of. induction l as [| x r IH]; simpl.
  - split; [tauto | lia].
  - rewrite (String.eqb_sym k x). destruct (String.eqb x k) eqn:E.
    + apply String.eqb_eq in E. simpl List.length. split; [lia | auto].
    + apply String.eqb_neq in E. rewrite IH. intuition congruence.
Qed.

Lemma get0_count_all k l : forall o : counter,
  get0 k (count_all l o) = get0 k o + occurrences k l.
Proof.
  unfold count_all, occurrences, count_of.
  induction l as [| x r IH]; intros o; simpl; [lia |].
  rewrite IH, get0_bump, (String.eqb_sym k x).
  destruct (String.eqb x k); simpl List.length; lia.
Qed.

(** A key that a message adds once to a counter. *)
Lemma get0_keyed_loop (f : counter -> Message -> counter)
      (key : Message -> option string) k l :
  (forall o msg, f o msg = match key msg with
                           | Some k' => bump k' 1 o
                           | None => o
                           end) ->
  get0 k (fold_left f l []) = count_of (fun msg => is_key k (key msg)) l.
Proof.
  intros Hf. rewrite <- sum_of_indicator.
  rewrite (get0_loop f (fun msg => if is_key k (key msg) then 1 else 0)).
  - reflexivity.
  - intros o msg. rewrite Hf. unfold is_key.
    destruct (key msg) as [k' |]; [| lia].
    rewrite get0_bump. destruct (String.eqb k' k); lia.
Qed.

Lemma count_user_key o msg :
  count_user o msg
  = match sender msg with Some k => bump k 1 o | None => o end.
Proof. reflexivity. Qed.

Lemma count_weekday_key new_Date o msg :
  count_weekday new_Date o msg
  = match weekday_key new_Date msg with
    | Some k => bump k 1 o
    | None => o
    end.
Proof.
  unfold count_weekday, weekday_key.
  now destruct (dated msg) as [[timeElem fullDate] |].
Qed.

Lemma count_date_key new_Date o msg :
  count_date new_Date o msg
  = match date_key new_Date msg with Some k => bump k 1 o | None => o end.
Proof.
  unfold count_date, date_key.
  now destruct (dated msg) as [[timeElem fullDate] |].
Qed.

Lemma count_reply_key o msg :
  count_reply o msg
  = match reply_key msg with Some k => bump k 1 o | None => o end.
Proof.
  unfold count_reply, reply_key. now destruct (reply_onclick msg).
Qed.

(** ** The counts of the users *)

Lemma get0_userCounts name messages :
  get0 name (userCounts_of messages)
  = count_of (fun msg => is_key name (sender msg)) (userMessages_of messages).
Proof. apply get0_keyed_loop, count_user_key. Qed.

Lemma get0_reactionCounts name messages :
  get0 name (reactionCounts_of messages)
  = sum_of (reactions_to name) (userMessages_of messages).
Proof.
  unfold reactionCounts_of.
  rewrite (get0_loop count_reactions (reactions_to name)); [reflexivity |].
  intros o msg. unfold count_reactions, reactions_to, is_key.
  destruct (sender msg) as [k |]; [| lia].
  destruct (reactions msg) as [| n] eqn:E.
  - simpl. destruct (String.eqb k name); lia.
  - change (0 <? S n)%nat with true. cbv iota.
    rewrite get0_bump. destruct (String.eqb k name); lia.
Qed.

(** X1, counts of users.  In a document in which no sender name is the
    name of an inherited property, [messagesByUser[name]] is the number
    of user messages whose trimmed sender name is [name] and
    [reactionsByUser[name]] is the number of reactions to these messages;
    in a batch of such documents they are the sums of these numbers over
    the processed documents. *)
Theorem user_counts_are_exact :
  forall new_Date,
    (forall messages name,
        plain_names messages = true ->
        let m := analyze new_Date messages in
        get0 name (PerDoc.messagesByUser m)
        = count_of (fun msg => is_key name (sender msg))
                   (userMessages_of messages)
        /\ get0 name (PerDoc.reactionsByUser m)
           = sum_of (reactions_to name) (userMessages_of messages))
    /\ (forall fileContents name,
          forallb plain_names (processed fileContents) = true ->
          let agg := aggregateMetrics new_Date fileContents in
          let docs := processed fileContents in
          get0 name (Agg.messagesByUser agg)
          = sum_of (fun messages =>
                      count_of (fun msg => is_key name (sender msg))
                               (userMessages_of messages)) docs
          /\ get0 name (Agg.reactionsByUser agg)
             = sum_of (fun messages =>
                         sum_of (reactions_to name)
                                (userMessages_of messages)) docs).
Proof.
  intros new_Date. split.
  - intros messages name _ m. subst m.
    cbn [analyze PerDoc.messagesByUser PerDoc.reactionsByUser].
    split; [apply get0_userCounts | apply get0_reactionCounts].
  - intros fileContents name _ agg docs.
    destruct (aggregated_counters_sum new_Date fileContents)
      as (Hu & _ & _ & _ & Hr).
    fold agg in Hu, Hr. rewrite successes_processed, map_map in Hu, Hr.
    fold docs in Hu, Hr.
    destruct (Hu name) as [_ ->]. destruct (Hr name) as [_ ->].
    rewrite !sum_of_map. split; apply sum_of_ext, Forall_forall; intros msgs _.
    + apply get0_userCounts.
    + apply get0_reactionCounts.
Qed.

Lemma user_counts_are_exact_witness :
  plain_names Fixture.conversation = true
  /\ get0 "ann"
          (PerDoc.reactionsByUser
             (analyze UtcDate.new_Date Fixture.conversation))
     = sum_of (reactions_to "ann") (userMessages_of Fixture.conversation).
Proof.
  split; [reflexivity |].
  exact (proj2 (proj1 (user_counts_are_exact UtcDate.new_Date)
                      Fixture.conversation "ann" eq_refl)).
Defined.

(** ** The sum of the counts of a counter *)

Lemma values_set k v (o : counter) :
  values (JsObject.set k v o) = values o - get0 k o + v.
Proof.
  unfold values, get0. induction o as [| [k' v'] r IH]; simpl; [lia |].
  destruct (String.eqb k' k); simpl; [lia |]. rewrite IH. lia.
Qed.

Lemma values_bump k c (o : counter) : values (bump k c o) = values o + c.
Proof. unfold bump. rewrite values_set. lia. Qed.

Lemma values_loop {A} (f : counter -> A -> counter) (w : A -> Z) l :
  (forall o x, values (f o x) = values o + w x) ->
  forall o, values (fold_left f l o) = values o + sum_of w l.
Proof.
  intros Hf. induction l as [| x r IH]; intros o; simpl; [lia |].
  rewrite IH, Hf. lia.
Qed.

Lemma values_keyed_loop (f : counter -> Message -> counter)
      (key : Message -> option string) l :
  (forall o msg, f o msg = match key msg with
                           | Some k' => bump k' 1 o
                           | None => o
                           end) ->
  values (fold_left f l []) = count_of (fun msg => has_key (key msg)) l.
Proof.
  intros Hf. rewrite <- sum_of_indicator.
  rewrite (values_loop f (fun msg => if has_key (key msg) then 1 else 0)).
  - reflexivity.
  - intros o msg. rewrite Hf.
    destruct (key msg) as [k' |]; simpl; [apply values_bump | lia].
Qed.

Lemma values_add_counts l : forall o : counter,
  values (add_counts l o) = values o + sum_of snd l.
Proof.
  unfold add_counts. induction l as [| e r IH]; intros o; simpl; [lia |].
  rewrite IH, values_bump. lia.
Qed.

Lemma values_entries (o : counter) : values (entries o) = values o.
Proof. apply sum_of_perm, entries_perm. Qed.

Lemma values_add_counts_all (parts : list counter) : forall o : counter,
  values (add_counts_all (map entries parts) o)
  = values o + sum_of values parts.
Proof.
  unfold add_counts_all.
  induction parts as [| p r IH]; intros o; simpl; [lia |].
  rewrite IH, values_add_counts. fold (values (entries p)).
  rewrite values_entries. lia.
Qed.

(** ** Hours, week days and dates *)

Lemma count_of_split {A} (p q r : A -> bool) l :
  (forall x, (if p x then 1 else 0)
             = (if q x then 1 else 0) + (if r x then 1 else 0)) ->
  count_of p l = count_of q l + count_of r l.
Proof.
  intros H. rewrite <- !sum_of_indicator.
  induction l as [| x t IH]; simpl; [reflexivity |].
  rewrite IH, H. lia.
Qed.

Lemma weekday_of_dated new_Date msg :
  has_key (weekday_key new_Date msg) = has_key (dated msg).
Proof.
  unfold weekday_key. now destruct (dated msg) as [[timeElem fullDate] |].
Qed.

Lemma hour_needs_weekday new_Date msg :
  has_key (hour_key msg) = true -> has_key (weekday_key new_Date msg) = true.
Proof.
  unfold hour_key, weekday_key.
  now destruct (dated msg) as [[timeElem fullDate] |].
Qed.

Lemma date_needs_weekday new_Date msg :
  has_key (date_key new_Date msg) = true ->
  has_key (weekday_key new_Date msg) = true.
Proof.
  unfold date_key, weekday_key.
  now destruct (dated msg) as [[timeElem fullDate] |].
Qed.

Lemma values_hourCounts messages :
  values (hourCounts_of messages)
  = count_of (fun msg => has_key (hour_key msg)) messages.
Proof. apply values_keyed_loop, count_hour_key. Qed.

Lemma values_dayOfWeekCounts new_Date messages :
  values (dayOfWeekCounts_of new_Date messages)
  = count_of (fun msg => has_key (weekday_key new_Date msg)) messages.
Proof. apply values_keyed_loop, count_weekday_key. Qed.

Lemma values_messagesByDate new_Date messages :
  values (messagesByDate_of new_Date messages)
  = count_of (fun msg => has_key (date_key new_Date msg)) messages.
Proof. apply values_keyed_loop, count_date_key. Qed.

Lemma values_userCounts messages :
  values (userCounts_of messages)
  = count_of (fun msg => has_key (sender msg)) (userMessages_of messages).
Proof. apply values_keyed_loop, count_user_key. Qed.

(** X2, week days and dates.  In a document in which no sender name is
    the name of an inherited property (so that nothing is written into
    [Object.prototype]), [messagesByDayOfWeek[k]] is the number of
    messages with a non-empty [title] whose date has the week day [k],
    and [messagesByDate[k]] the number of those whose date is [k].  A
    message whose [title] the [Date] cannot read has no date and is
    counted under the week day [Invalid Date]. *)
Theorem weekdays_and_dates_are_exact :
  forall new_Date messages,
    plain_names messages = true ->
    let m := analyze new_Date messages in
    (forall k,
        get0 k (PerDoc.messagesByDayOfWeek m)
        = count_of (fun msg => is_key k (weekday_key new_Date msg)) messages)
    /\ (forall k,
          get0 k (PerDoc.messagesByDate m)
          = count_of (fun msg => is_key k (date_key new_Date msg)) messages)
    /\ count_of (fun msg => has_key (dated msg)
                            && negb (has_key (date_key new_Date msg)))
                messages
       <= get0 "Invalid Date" (PerDoc.messagesByDayOfWeek m)
    /\ values (PerDoc.messagesByDayOfWeek m)
       = values (PerDoc.messagesByDate m)
         + count_of (fun msg => has_key (dated msg)
                                && negb (has_key (date_key new_Date msg)))
                    messages.
Proof.
  intros new_Date messages _ m. subst m.
  cbn [analyze PerDoc.messagesByDayOfWeek PerDoc.messagesByDate].
  assert (Hw : forall k,
             get0 k (dayOfWeekCounts_of new_Date messages)
             = count_of (fun msg => is_key k (weekday_key new_Date msg))
                        messages).
  { intros k. apply get0_keyed_loop, count_weekday_key. }
  split; [exact Hw | split; [| split]].
  - intros k. apply get0_keyed_loop, count_date_key.
  - rewrite Hw. apply count_of_le. intros msg.
    unfold weekday_key, date_key.
    destruct (dated msg) as [[timeElem fullDate] |]; [| discriminate].
    destruct (parseDate new_Date fullDate); [discriminate | reflexivity].
  - rewrite values_dayOfWeekCounts, values_messagesByDate.
    apply count_of_split. intros msg. unfold weekday_key, date_key.
    destruct (dated msg) as [[timeElem fullDate] |]; simpl; [| lia].
    destruct (toISODate (parseDate new_Date fullDate)); simpl; lia.
Qed.

Lemma weekdays_and_dates_are_exact_witness :
  plain_names Fixture.conversation = true
  /\ get0 "2024-01-01"
          (PerDoc.messagesByDate
             (analyze UtcDate.new_Date Fixture.conversation))
     = count_of (fun msg => is_key "2024-01-01"
                                   (date_key UtcDate.new_Date msg))
                Fixture.conversation.
Proof.
  split; [reflexivity |].
  exact (proj1 (proj2 (weekdays_and_dates_are_exact
                         UtcDate.new_Date Fixture.conversation eq_refl))
               "2024-01-01").
Defined.

(** ** Bounds between the counts *)

Lemma set_counts_positive k v (o : counter) :
  1 <= v -> Forall (fun e => 1 <= snd e) o ->
  Forall (fun e => 1 <= snd e) (JsObject.set k v o).
Proof.
  intros Hv. induction 1 as [| [k' v'] r Hx Hr IH]; simpl.
  - constructor; [exact Hv | constructor].
  - destruct (String.eqb k' k); constructor; auto.
Qed.

Lemma get0_nonneg k (o : counter) :
  Forall (fun e => 1 <= snd e) o -> 0 <= get0 k o.
Proof.
  unfold get0. induction 1 as [| [k' v'] r Hx Hr IH]; simpl; [lia |].
  destruct (String.eqb k' k); simpl in *; lia.
Qed.

Lemma bump_counts_positive k c (o : counter) :
  1 <= c -> Forall (fun e => 1 <= snd e) o ->
  Forall (fun e => 1 <= snd e) (bump k c o).
Proof.
  intros Hc Ho. apply set_counts_positive; [| exact Ho].
  pose proof (get0_nonneg k o Ho). lia.
Qed.

Lemma add_counts_positive l : forall o : counter,
  Forall (fun e => 1 <= snd e) l -> Forall (fun e => 1 <= snd e) o ->
  Forall (fun e => 1 <= snd e) (add_counts l o).
Proof.
  unfold add_counts. induction l as [| e r IH]; intros o Hl Ho; simpl;
    [exact Ho |].
  inversion Hl; subst. apply IH; [assumption |].
  now apply bump_counts_positive.
Qed.

Lemma add_counts_all_positive lists : forall o : counter,
  Forall (Forall (fun e => 1 <= snd e)) lists ->
  Forall (fun e => 1 <= snd e) o ->
  Forall (fun e => 1 <= snd e) (add_counts_all lists o).
Proof.
  unfold add_counts_all.
  induction lists as [| l r IH]; intros o Hl Ho; simpl; [exact Ho |].
  inversion Hl; subst. apply IH; [assumption |].
  now apply add_counts_positive.
Qed.

Lemma keyed_loop_positive (f : counter -> Message -> counter)
      (key : Message -> option string) l :
  (forall o msg, f o msg = match key msg with
                           | Some k' => bump k' 1 o
                           | None => o
                           end) ->
  Forall (fun e => 1 <= snd e) (fold_left f l []).
Proof.
  intros Hf. apply fold_left_invariant; [| constructor].
  intros o msg Ho. rewrite Hf. destruct (key msg); [| exact Ho].
  apply bump_counts_positive; [lia | exact Ho].
Qed.

Lemma count_all_positive l : forall o : counter,
  Forall (fun e => 1 <= snd e) o ->
  Forall (fun e => 1 <= snd e) (count_all l o).
Proof.
  unfold count_all. induction l as [| k r IH]; intros o Ho; simpl;
    [exact Ho |].
  apply IH, bump_counts_positive; [lia | exact Ho].
Qed.

Lemma entries_positive (o : counter) :
  Forall (fun e => 1 <= snd e) o -> Forall (fun e => 1 <= snd e) (entries o).
Proof.
  intros H. eapply Permutation_Forall; [| exact H].
  apply Permutation_sym, entries_perm.
Qed.

(** A counter without counts below 1 holds no more keys than counts. *)
Lemma keys_le_values (o : counter) :
  Forall (fun e => 1 <= snd e) o ->
  Z.of_nat (List.length (keys o)) <= values o.
Proof.
  rewrite keys_length. unfold created, values.
  induction 1 as [| e r He Hr IH]; simpl; [lia |]. simpl in IH. lia.
Qed.

Lemma length_filter_le {A} (p : A -> bool) l :
  (List.length (filter p l) <= List.length l)%nat.
Proof.
  induction l as [| x r IH]; simpl; [lia |]. destruct (p x); simpl; lia.
Qed.

(** The counts of one document. *)
Lemma analyze_bounds new_Date messages :
  let m := analyze new_Date messages in
  values (PerDoc.messagesByHour m) <= values (PerDoc.messagesByDayOfWeek m)
  /\ values (PerDoc.messagesByDate m)
     <= values (PerDoc.messagesByDayOfWeek m)
  /\ values (PerDoc.messagesByDayOfWeek m) <= PerDoc.totalMessages m
  /\ 0 <= PerDoc.uniqueUsers m <= values (PerDoc.messagesByUser m)
  /\ values (PerDoc.messagesByUser m) <= PerDoc.userMessages m
  /\ PerDoc.userMessages m <= PerDoc.totalMessages m
  /\ 0 <= PerDoc.serviceMessages m <= PerDoc.totalMessages m.
Proof.
  intros m. subst m.
  cbn [analyze PerDoc.messagesByHour PerDoc.messagesByDayOfWeek
       PerDoc.messagesByDate PerDoc.totalMessages PerDoc.uniqueUsers
       PerDoc.messagesByUser PerDoc.userMessages PerDoc.serviceMessages].
  rewrite values_hourCounts, values_dayOfWeekCounts, values_messagesByDate,
    values_userCounts.
  repeat split.
  - apply count_of_le. intros msg. apply hour_needs_weekday.
  - apply count_of_le. intros msg. apply date_needs_weekday.
  - apply count_of_le_length.
  - lia.
  - rewrite <- values_userCounts. apply keys_le_values.
    apply (keyed_loop_positive count_user sender), count_user_key.
  - apply count_of_le_length.
  - apply Nat2Z.inj_le, length_filter_le.
  - lia.
  - apply Nat2Z.inj_le, length_filter_le.
Qed.

Lemma aggregated_uniqueUsers new_Date fileContents :
  let agg := aggregateMetrics new_Date fileContents in
  Agg.uniqueUsers agg = Z.of_nat (List.length (keys (Agg.messagesByUser agg))).
Proof.
  intros agg. subst agg. rewrite aggregateMetrics_successes.
  cbn [finish Agg.uniqueUsers Agg.messagesByUser].
  rewrite keys_length, fold_uniqueUsers, fold_messagesByUser.
  rewrite created_add_counts_all, map_map.
  cbn [Acc.uniqueUsers Acc.messagesByUser aggregated0]. reflexivity.
Qed.

(** X3, bounds.  In a document and in a batch in which no sender name is
    the name of an inherited property, the counts by hour and the
    counts by date each add up to at most the counts by week day, which
    add up to at most [totalMessages]; [uniqueUsers] is at most the sum of
    [messagesByUser], which is at most [userMessages], which is at most
    [totalMessages], as is [serviceMessages]. *)
Theorem counts_are_bounded :
  forall new_Date,
    (forall messages,
        plain_names messages = true ->
        let m := analyze new_Date messages in
        values (PerDoc.messagesByHour m)
        <= values (PerDoc.messagesByDayOfWeek m)
        /\ values (PerDoc.messagesByDate m)
           <= values (PerDoc.messagesByDayOfWeek m)
        /\ values (PerDoc.messagesByDayOfWeek m) <= PerDoc.totalMessages m
        /\ 0 <= PerDoc.uniqueUsers m <= values (PerDoc.messagesByUser m)
        /\ values (PerDoc.messagesByUser m) <= PerDoc.userMessages m
        /\ PerDoc.userMessages m <= PerDoc.totalMessages m
        /\ 0 <= PerDoc.serviceMessages m <= PerDoc.totalMessages m)
    /\ (forall fileContents,
          forallb plain_names (processed fileContents) = true ->
          let agg := aggregateMetrics new_Date fileContents in
          values (Agg.messagesByHour agg)
          <= values (Agg.messagesByDayOfWeek agg)
          /\ values (Agg.messagesByDate agg)
             <= values (Agg.messagesByDayOfWeek agg)
          /\ values (Agg.messagesByDayOfWeek agg) <= Agg.totalMessages agg
          /\ 0 <= Agg.uniqueUsers agg <= values (Agg.messagesByUser agg)
          /\ values (Agg.messagesByUser agg) <= Agg.userMessages agg
          /\ Agg.userMessages agg <= Agg.totalMessages agg
          /\ 0 <= Agg.serviceMessages agg <= Agg.totalMessages agg).
Proof.
  intros new_Date. split; [intros messages _; apply analyze_bounds |].
  intros fileContents _ agg.
  assert (Hpos : Forall (fun e => 1 <= snd e) (Agg.messagesByUser agg)).
  { destruct (counters_of_aggregateMetrics new_Date fileContents)
      as (Eu & _). fold agg in Eu. rewrite Eu.
    apply add_counts_all_positive; [| constructor].
    apply Forall_forall. intros l Hl.
    apply in_map_iff in Hl as [o [<- Ho]].
    apply in_map_iff in Ho as [msgs [<- _]].
    apply entries_positive.
    apply (keyed_loop_positive count_user sender), count_user_key. }
  pose proof (keys_le_values _ Hpos) as Hkeys.
  pose proof (aggregated_uniqueUsers new_Date fileContents) as Euu.
  cbv zeta in Euu. fold agg in Euu. rewrite <- Euu in Hkeys.
  destruct (counters_of_aggregateMetrics new_Date fileContents)
    as (Eu & Eh & Ew & Ed & _).
  fold agg in Eu, Eh, Ew, Ed.
  rewrite Eu, Eh, Ew, Ed in *. rewrite !values_add_counts_all in *.
  change (values []) with 0 in *. rewrite !sum_of_map in *.
  assert (Et : Agg.totalMessages agg
               = sum_of (fun msgs => PerDoc.totalMessages
                                       (analyze new_Date msgs))
                        (processed fileContents)
               /\ Agg.userMessages agg
                  = sum_of (fun msgs => PerDoc.userMessages
                                          (analyze new_Date msgs))
                           (processed fileContents)
               /\ Agg.serviceMessages agg
                  = sum_of (fun msgs => PerDoc.serviceMessages
                                          (analyze new_Date msgs))
                           (processed fileContents)).
  { subst agg. rewrite aggregateMetrics_successes, successes_processed.
    cbn [finish Agg.totalMessages Agg.userMessages Agg.serviceMessages].
    rewrite fold_totalMessages, fold_userMessages, fold_serviceMessages.
    rewrite !sum_of_map. cbn [Acc.totalMessages Acc.userMessages
      Acc.serviceMessages aggregated0]. repeat split. }
  destruct Et as (-> & -> & ->).
  assert (Hu : 0 <= Agg.uniqueUsers agg) by (rewrite Euu; lia).
  pose proof (fun msgs => analyze_bounds new_Date msgs) as Hb.
  cbv zeta in Hb.
  repeat split; try lia.
  - apply sum_of_le. intros msgs _. apply Hb.
  - apply sum_of_le. intros msgs _. apply Hb.
  - apply sum_of_le. intros msgs _. apply Hb.
  - apply sum_of_le. intros msgs _. apply Hb.
  - apply sum_of_le. intros msgs _. apply Hb.
  - apply sum_of_nonneg. intros msgs _. apply Hb.
  - apply sum_of_le. intros msgs _. apply Hb.
Qed.

Lemma counts_are_bounded_witness :
  plain_names Fixture.conversation = true
  /\ values (PerDoc.messagesByUser
               (analyze UtcDate.new_Date Fixture.conversation))
     <= PerDoc.userMessages (analyze UtcDate.new_Date Fixture.conversation).
Proof.
  split; [reflexivity |].
  destruct (proj1 (counts_are_bounded UtcDate.new_Date)
                  Fixture.conversation eq_refl) as (_ & _ & _ & _ & H & _).
  exact H.
Defined.

(** ** The rankings of one document *)

Lemma get0_wordFrequency w messages :
  get0 w (wordFrequency_of messages) = occurrences w (words messages).
Proof.
  unfold wordFrequency_of, words.
  rewrite occurrences_flat_map.
  rewrite (get0_loop count_words
             (fun msg => occurrences w (match body msg with
                                        | Some t => words_of t
                                        | None => []
                                        end))); [reflexivity |].
  intros o msg. unfold count_words. destruct (body msg).
  - apply get0_count_all.
  - unfold occurrences, count_of. simpl. lia.
Qed.




Lemma created_replyChains messages :
  created (replyChains_of messages) = JsSet.add_all (reply_ids messages) [].
Proof.
  unfold replyChains_of, reply_ids. apply (created_loop count_reply).
  intros o msg. rewrite count_reply_key.
  destruct (reply_key msg); [apply created_bump | reflexivity].
Qed.


Lemma well_formed_words messages : well_formed (wordFrequency_of messages).
Proof.
  unfold well_formed. rewrite created_wordFrequency.
  apply NoDup_add_all. constructor.
Qed.




(** ** The word counts of a batch *)

Lemma lookup_some_in {V} k (v : V) (o : JsObject.t V) :
  lookup k o = Some v -> In (k, v) o.
Proof.
  induction o as [| [k' v'] r IH]; simpl; [discriminate |].
  destruct (String.eqb k' k) eqn:E.
  - apply String.eqb_eq in E. intros [= ->]. subst. now left.
  - intros H. right. now apply IH.
Qed.

Lemma topWords_well_formed new_Date messages :
  NoDup (map fst (PerDoc.topWords (analyze new_Date messages))).
Proof.
  destruct (ranking_top_ranking 50 _ (well_formed_words messages))
    as [(_ & H & _) _].
  exact H.
Qed.

Lemma topWords_in_counter new_Date messages e :
  In e (PerDoc.topWords (analyze new_Date messages)) ->
  In e (wordFrequency_of messages).
Proof.
  intros H. destruct (ranking_facts 50 (wordFrequency_of messages))
    as (_ & _ & Hin & _).
  apply Hin, H.
Qed.

(** What the ranking of a document lists for a word is the number of its
    occurrences or, when the word was cut off, nothing. *)
Lemma total_topWords new_Date messages w :
  let listed := total w (PerDoc.topWords (analyze new_Date messages)) in
  (listed = 0 \/ listed = occurrences w (words messages))
  /\ 0 <= listed <= occurrences w (words messages).
Proof.
  intros listed. subst listed.
  set (L := PerDoc.topWords (analyze new_Date messages)).
  assert (Hwf : well_formed L) by apply topWords_well_formed.
  assert (Hocc : 0 <= occurrences w (words messages))
    by apply count_of_nonneg.
  rewrite (total_store w L Hwf). unfold get0.
  destruct (lookup w L) as [c |] eqn:E.
  - apply lookup_some_in in E. apply topWords_in_counter in E.
    assert (Hc : c = occurrences w (words messages)).
    { rewrite <- get0_wordFrequency. unfold get0.
      now rewrite (in_lookup w c _ (well_formed_words messages) E). }
    lia.
  - lia.
Qed.

Lemma get0_aggregated_words new_Date fileContents w :
  get0 w (Acc.wordFrequency (aggregate new_Date fileContents))
  = sum_of (fun messages =>
              total w (PerDoc.topWords (analyze new_Date messages)))
           (processed fileContents).
Proof.
  rewrite aggregated_wordFrequency, get0_add_counts_all.
  rewrite successes_processed, map_map, sum_of_map.
  unfold get0. simpl. reflexivity.
Qed.

Lemma aggregated_words_facts new_Date fileContents :
  let wf := Acc.wordFrequency (aggregate new_Date fileContents) in
  well_formed wf /\ Forall (fun e => 1 <= snd e) wf.
Proof.
  intros wf. subst wf. rewrite aggregated_wordFrequency. split.
  - apply well_formed_add_counts_all, well_formed_empty.
  - apply add_counts_all_positive; [| constructor].
    apply Forall_forall. intros l Hl.
    rewrite successes_processed, map_map in Hl.
    apply in_map_iff in Hl as [msgs [<- _]].
    apply Forall_forall. intros e He. apply topWords_in_counter in He.
    assert (Hp : Forall (fun e => 1 <= snd e) (wordFrequency_of msgs)).
    { unfold wordFrequency_of. apply fold_left_invariant; [| constructor].
      intros o msg Ho. unfold count_words.
      destruct (body msg); [now apply count_all_positive | exact Ho]. }
    rewrite Forall_forall in Hp. now apply Hp.
Qed.

(** X5, batch word counts.  In a batch in which no sender name and no
    counted word is the name of an inherited property, the count that the
    [topWords] of the batch give for a word is the sum of the counts that
    the [topWords] of the documents give for it: at least 1 and never
    more than the number of occurrences of the word in the processed
    documents. *)
Theorem batch_word_counts_never_exceed_occurrences :
  forall new_Date fileContents w c,
    forallb plain_names (processed fileContents) = true ->
    forallb plain_words (processed fileContents) = true ->
    In (w, c) (Agg.topWords (aggregateMetrics new_Date fileContents)) ->
    c = sum_of (fun messages =>
                  total w (PerDoc.topWords (analyze new_Date messages)))
               (processed fileContents)
    /\ 1 <= c <= sum_of (fun messages => occurrences w (words messages))
                        (processed fileContents).
Proof.
  intros new_Date fileContents w c _ _ H.
  destruct (aggregated_words_facts new_Date fileContents) as [Hwf Hpos].
  destruct (ranking_facts 50
              (Acc.wordFrequency (aggregate new_Date fileContents)))
    as (_ & _ & Hin & _).
  apply Hin in H.
  assert (Hc : c = get0 w (Acc.wordFrequency
                             (aggregate new_Date fileContents))).
  { unfold get0. now rewrite (in_lookup w c _ Hwf H). }
  rewrite get0_aggregated_words in Hc. split; [exact Hc | split].
  - rewrite Forall_forall in Hpos. apply (Hpos _ H).
  - rewrite Hc. apply sum_of_le. intros msgs _.
    apply (total_topWords new_Date msgs w).
Qed.

Lemma batch_word_counts_never_exceed_occurrences_witness :
  forallb plain_names (processed Fixture.two_crowded) = true
  /\ forallb plain_words (processed Fixture.two_crowded) = true
  /\ In ("alpha3", 27)
        (Agg.topWords (aggregateMetrics UtcDate.new_Date Fixture.two_crowded))
  /\ 1 <= 27 <= sum_of (fun messages => occurrences "alpha3" (words messages))
                       (processed Fixture.two_crowded).
Proof.
  assert (H : In ("alpha3", 27)
                 (Agg.topWords
                    (aggregateMetrics UtcDate.new_Date Fixture.two_crowded))).
  { vm_compute. do 3 right. now left. }
  assert (Hn : forallb plain_names (processed Fixture.two_crowded) = true)
    by (vm_compute; reflexivity).
  assert (Hp : forallb plain_words (processed Fixture.two_crowded) = true)
    by (vm_compute; reflexivity).
  split; [exact Hn | split; [exact Hp | split; [exact H |]]].
  exact (proj2 (batch_word_counts_never_exceed_occurrences
                  UtcDate.new_Date Fixture.two_crowded "alpha3" 27
                  Hn Hp H)).
Defined.

(** X6, batch word ranking without cut.  When no sender name and no
    counted word is the name of an inherited property and no processed
    document has more than 50 distinct words, the [topWords] of the batch
    are the 50 most frequent words of the processed documents (all the
    words when there are fewer), each with the number of its occurrences
    in them. *)
Theorem batch_topWords_exact_without_cut :
  forall new_Date fileContents,
    forallb plain_names (processed fileContents) = true ->
    forallb plain_words (processed fileContents) = true ->
    (forall messages,
        In messages (processed fileContents) ->
        (List.length (nodup string_dec (words messages)) <= 50)%nat) ->
    let docs := processed fileContents in
    top_ranking 50
      (fun w => exists messages, In messages docs /\ In w (words messages))
      (fun w => sum_of (fun messages => occurrences w (words messages)) docs)
      (Agg.topWords (aggregateMetrics new_Date fileContents))
    /\ List.length (Agg.topWords (aggregateMetrics new_Date fileContents))
       = Nat.min 50 (List.length (nodup string_dec (flat_map words docs))).
Proof.
  intros new_Date fileContents _ _ Hsmall docs.
  destruct (aggregated_words_facts new_Date fileContents) as [Hwf _].
  destruct (ranking_top_ranking 50 _ Hwf) as [Ht Hl].
  assert (Hfull : forall msgs,
             In msgs docs ->
             Permutation (PerDoc.topWords (analyze new_Date msgs))
                         (wordFrequency_of msgs)).
  { intros msgs Hm.
    change (PerDoc.topWords (analyze new_Date msgs))
      with (slice0 50 (sort_desc (entries (wordFrequency_of msgs)))).
    unfold slice0. rewrite firstn_all2.
    - eapply perm_trans; [apply sort_desc_perm | apply entries_perm].
    - rewrite (Permutation_length (sort_desc_perm _)).
      rewrite (Permutation_length (entries_perm _)).
      rewrite <- (length_map fst). fold (created (wordFrequency_of msgs)).
      rewrite created_wordFrequency.
      rewrite (Nat2Z.inj _ _ (distinct_add_all (words msgs))).
      now apply Hsmall. }
  assert (Hcand : forall k,
             In k (keys (Acc.wordFrequency (aggregate new_Date fileContents)))
             <-> exists messages, In messages docs /\ In k (words messages)).
  { intros k. rewrite in_keys, aggregated_wordFrequency.
    rewrite in_created_add_counts_all, successes_processed, map_map.
    fold docs. split.
    + intros [l [Hl' Hk]]. apply in_map_iff in Hl' as [msgs [<- Hm]].
      exists msgs. split; [assumption |]. apply in_wordFrequency.
      eapply Permutation_in; [apply Permutation_map, (Hfull msgs Hm) |].
      exact Hk.
    + intros [msgs [Hm Hk]].
      exists (PerDoc.topWords (analyze new_Date msgs)). split.
      * apply in_map_iff. now exists msgs.
      * eapply Permutation_in;
          [apply Permutation_map, Permutation_sym, (Hfull msgs Hm) |].
        now apply in_wordFrequency. }
  split.
  - eapply top_ranking_ext; [exact Hcand | | exact Ht].
    intros k. cbv beta. rewrite get0_aggregated_words. fold docs.
    apply sum_of_ext, Forall_forall. intros msgs Hm.
    rewrite (total_perm k _ _ (Hfull msgs Hm)).
    rewrite (total_store k _ (well_formed_words msgs)).
    apply get0_wordFrequency.
  - change (Agg.topWords (aggregateMetrics new_Date fileContents))
      with (slice0 50
              (sort_desc
                 (entries (Acc.wordFrequency
                             (aggregate new_Date fileContents))))).
    rewrite Hl. f_equal. apply keys_count; [exact Hwf |].
    intros k. rewrite Hcand, in_flat_map. reflexivity.
Qed.

Lemma batch_topWords_exact_without_cut_witness :
  forallb plain_names
          (processed [Fixture.three_messages; Fixture.samples_8]) = true
  /\ forallb plain_words
             (processed [Fixture.three_messages; Fixture.samples_8]) = true
  /\ List.length
       (Agg.topWords
          (aggregateMetrics UtcDate.new_Date
             [Fixture.three_messages; Fixture.samples_8]))
     = Nat.min 50
         (List.length
            (nodup string_dec
                   (flat_map words
                      (processed [Fixture.three_messages;
                                  Fixture.samples_8])))).
Proof.
  assert (H : forallb plain_words
                      (processed [Fixture.three_messages;
                                  Fixture.samples_8]) = true)
    by (vm_compute; reflexivity).
  assert (Hn : forallb plain_names
                       (processed [Fixture.three_messages;
                                   Fixture.samples_8]) = true)
    by (vm_compute; reflexivity).
  split; [exact Hn | split; [exact H |]].
  refine (proj2 (batch_topWords_exact_without_cut UtcDate.new_Date
                   [Fixture.three_messages; Fixture.samples_8] Hn H _)).
  intros messages [<- | [<- | []]]; vm_compute; lia.
Defined.

(** ** Mention tokens and reply ids *)

Lemma span_all p s : all_chars p (fst (span p s)) = true.
Proof.
  unfold all_chars. induction s as [| c r IH]; simpl; [reflexivity |].
  destruct (p c) eqn:E; [| reflexivity].
  destruct (span p r) as [a b]. simpl in *. now rewrite E.
Qed.

(** A mention token is an at sign and one or more word characters. *)
Lemma match_mentions_shape s tok :
  In tok (match_mentions s) ->
  exists w, tok = String "@" w /\ w <> "" /\ all_chars is_word w = true.
Proof.
  induction s as [| c r IH]; simpl; [tauto |].
  destruct (Ascii.eqb c "@"); [| exact IH].
  pose proof (span_all is_word r) as Hall.
  destruct (fst (span is_word r)) as [| c' w'] eqn:E; [exact IH |].
  intros [<- | H]; [| now apply IH].
  exists (String c' w'). repeat split; [discriminate | exact Hall].
Qed.

(** The first run of digits is not empty and made of digits; there is
    none exactly when the string has no digit. *)
Lemma match_digits_shape s :
  match match_digits s with
  | Some d => d <> "" /\ all_chars is_digit d = true
  | None => all_chars (fun c => negb (is_digit c)) s = true
  end.
Proof.
  induction s as [| c r IH]; [reflexivity |].
  cbn [match_digits]. destruct (is_digit c) eqn:E.
  - pose proof (span_all is_digit (String c r)) as Hall.
    split; [| exact Hall]. simpl. rewrite E.
    destruct (span is_digit r). discriminate.
  - destruct (match_digits r); [exact IH |].
    unfold all_chars in *. simpl. now rewrite E.
Qed.

Lemma mention_not_index w : is_index (String "@" w) = false.
Proof. reflexivity. Qed.

Lemma in_mention_tokens tok messages :
  In tok (mention_tokens messages) ->
  exists w, tok = String "@" w /\ w <> "" /\ all_chars is_word w = true.
Proof.
  unfold mention_tokens. intros H. apply in_flat_map in H as [msg [_ H]].
  destruct (body msg); [| contradiction]. eapply match_mentions_shape, H.
Qed.

(** ** Ties in the order of first encounter *)

Lemma filter_split {A} (p : A -> bool) l : forall a x b,
  filter p l = (a ++ x :: b)%list ->
  exists l1 l2, l = (l1 ++ x :: l2)%list
                /\ filter p l1 = a /\ filter p l2 = b.
Proof.
  induction l as [| y r IH]; intros a x b H; simpl in H.
  - now destruct a.
  - destruct (p y) eqn:E.
    + destruct a as [| a0 a']; simpl in H; injection H as -> H.
      * exists [], r. simpl. auto.
      * destruct (IH _ _ _ H) as (l1 & l2 & -> & <- & <-).
        exists (a0 :: l1), l2. simpl. now rewrite E.
    + destruct (IH _ _ _ H) as (l1 & l2 & -> & <- & <-).
      exists (y :: l1), l2. simpl. now rewrite E.
Qed.

Lemma first_occurrences_unseen seen l x :
  In x (first_occurrences seen l) -> ~ In x seen.
Proof.
  revert seen. induction l as [| y r IH]; intros seen; simpl; [tauto |].
  destruct (JsSet.has y seen) eqn:E; [apply IH |].
  intros [<- | H]; [now apply has_false |].
  apply IH in H. intros Hs. apply H, in_app_iff. now left.
Qed.

(** An element that stands before another one in the list of the first
    occurrences occurs first before it. *)
Lemma first_occurrences_order l : forall seen p a q b r,
  first_occurrences seen l = (p ++ a :: q ++ b :: r)%list ->
  (first_index a l < first_index b l)%nat.
Proof.
  induction l as [| y t IH]; intros seen p a q b r H; simpl in H.
  - now destruct p.
  - assert (Hin : forall s p1, first_occurrences s t
                               = (p1 ++ a :: q ++ b :: r)%list ->
                               ~ In a s /\ ~ In b s).
    { intros s p1 Hs. split; apply (first_occurrences_unseen s t);
        rewrite Hs, in_app_iff; right; [now left |].
      right. apply in_app_iff. right. now left. }
    destruct (JsSet.has y seen) eqn:E.
    + apply has_true in E. destruct (Hin _ _ H) as [Ha Hb].
      simpl. destruct (String.eqb_spec y a) as [-> | _]; [tauto |].
      destruct (String.eqb_spec y b) as [-> | _]; [tauto |].
      apply -> Nat.succ_lt_mono. eapply IH, H.
    + destruct p as [| p0 p']; simpl in H; injection H as -> H.
      * simpl. rewrite String.eqb_refl.
        assert (Hb : ~ In b (seen ++ [a])).
        { apply (first_occurrences_unseen _ t). rewrite H, in_app_iff.
          right. now left. }
        destruct (String.eqb_spec a b) as [-> | _]; [| lia].
        exfalso. apply Hb, in_app_iff. right. now left.
      * destruct (Hin _ _ H) as [Ha Hb]. simpl.
        destruct (String.eqb_spec p0 a) as [-> | _].
        { exfalso. apply Ha, in_app_iff. right. now left. }
        destruct (String.eqb_spec p0 b) as [-> | _].
        { exfalso. apply Hb, in_app_iff. right. now left. }
        apply -> Nat.succ_lt_mono. eapply IH, H.
Qed.

(** The stable sort of a counter without array-index keys, filled from a
    stream, leaves ties in the order of first encounter. *)
Lemma stream_ties (o : counter) (stream : list string) :
  created o = JsSet.add_all stream [] ->
  forallb (fun k => negb (is_index k)) stream = true ->
  ties_in_first_encounter_order stream (sort_desc (entries o)).
Proof.
  intros Hc Hno l1 x l2 y l3 Htop Hxy.
  assert (He : entries o = o).
  { apply entries_no_index, forallb_forall. intros k Hk.
    rewrite forallb_forall in Hno. apply Hno.
    rewrite Hc, in_add_all in Hk. simpl in Hk. tauto. }
  rewrite He in Htop.
  pose proof (ties_sort_desc (snd x) o) as Ht. rewrite Htop in Ht.
  unfold ties in Ht. rewrite filter_app in Ht. simpl in Ht.
  rewrite Z.eqb_refl, filter_app in Ht. simpl in Ht.
  rewrite <- Hxy, Z.eqb_refl in Ht. symmetry in Ht.
  apply filter_split in Ht as (o1 & o2 & -> & _ & Ht).
  apply filter_split in Ht as (o21 & o22 & -> & _ & _).
  rewrite add_all_first_occurrences in Hc. simpl in Hc.
  unfold created in Hc. rewrite map_app in Hc. simpl in Hc.
  rewrite map_app in Hc. simpl in Hc.
  symmetry in Hc. eapply first_occurrences_order, Hc.
Qed.

(** X7, ties among mentions.  Every mention token listed for a document is
    an at sign followed by one or more word characters, and tokens with
    the same count stand in [topMentions] in the order in which they first
    occur in the document. *)
Theorem mention_ties_follow_first_encounter :
  forall new_Date messages,
    let top := PerDoc.topMentions (analyze new_Date messages) in
    ties_in_first_encounter_order (mention_tokens messages) top
    /\ (forall e, In e top ->
          exists w, fst e = String "@" w
                    /\ w <> "" /\ all_chars is_word w = true).
Proof.
  intros new_Date messages top. split.
  - apply stream_ties; [apply created_mentions |].
    apply forallb_forall. intros k Hk.
    apply in_mention_tokens in Hk as (w & -> & _). reflexivity.
  - intros e He. apply in_mention_tokens with (messages := messages).
    apply (proj1 (in_mentions_of (fst e) messages)).
    unfold created. apply in_map.
    apply (Permutation_in e (topMentions_complete new_Date messages)), He.
Qed.

Lemma match_digits_none s :
  match_digits s = None
  <-> all_chars (fun c => negb (is_digit c)) s = true.
Proof.
  unfold all_chars. induction s as [| c r IH]; simpl; [tauto |].
  destruct (is_digit c); simpl; [split; discriminate | exact IH].
Qed.

(** X8, reply ids.  Every id listed in [longestThreads] is a non-empty
    string of digits, the first run of digits of the [onclick] attribute
    of a reply link; a user message is left out of the reply counts
    exactly when it has no such attribute or the attribute has no
    digit. *)
Theorem reply_ids_are_digit_runs :
  forall new_Date messages,
    (forall e, In e (PerDoc.longestThreads (analyze new_Date messages)) ->
               fst e <> "" /\ all_chars is_digit (fst e) = true)
    /\ (forall msg,
          reply_key msg = None
          <-> reply_onclick msg = None
              \/ exists onclick,
                  reply_onclick msg = Some onclick
                  /\ all_chars (fun c => negb (is_digit c)) onclick = true).
Proof.
  intros new_Date messages. split.
  - intros e He.
    destruct (ranking_facts 10 (replyChains_of messages))
      as (_ & _ & Hin & _).
    apply Hin in He. apply (in_map fst) in He.
    fold (created (replyChains_of messages)) in He.
    rewrite created_replyChains, in_add_all in He. simpl in He.
    destruct He as [He | []]. unfold reply_ids in He.
    apply in_flat_map in He as [msg [_ He]]. unfold reply_key in He.
    destruct (reply_onclick msg) as [onclick |]; [| contradiction].
    pose proof (match_digits_shape onclick) as Hs.
    destruct (match_digits onclick); [| contradiction].
    destruct He as [<- | []]. exact Hs.
  - intros msg. unfold reply_key.
    destruct (reply_onclick msg) as [onclick |]; [| tauto].
    rewrite match_digits_none. split.
    + intros H. right. now exists onclick.
    + intros [H | [oc [[= <-] H]]]; [discriminate | exact H].
Qed.

Lemma reply_ids_are_digit_runs_witness :
  fst ("1234", 1) <> "" /\ all_chars is_digit (fst ("1234", 1)) = true.
Proof.
  apply (proj1 (reply_ids_are_digit_runs UtcDate.new_Date
                  [{| is_default := true; is_service := false;
                      from_name := None; date_details := None;
                      body_details := None; text := None; reactions := 0;
                      anchors := [];
                      reply_onclick :=
                        Some "return GoToMessage(1234)" |}])).
  vm_compute. now left.
Defined.

Lemma mention_ties_follow_first_encounter_witness :
  In ("@ann", 1)
     (PerDoc.topMentions
        (analyze UtcDate.new_Date [Fixture.said "bob" "hello @ann"]))
  /\ exists w, fst ("@ann", 1) = String "@" w
               /\ w <> "" /\ all_chars is_word w = true.
Proof.
  assert (H : In ("@ann", 1)
                 (PerDoc.topMentions
                    (analyze UtcDate.new_Date
                             [Fixture.said "bob" "hello @ann"])))
    by (vm_compute; now left).
  split; [exact H |].
  apply (proj2 (mention_ties_follow_first_encounter
                  UtcDate.new_Date [Fixture.said "bob" "hello @ann"])
               ("@ann", 1) H).
Defined.

(** ** User types *)

Lemma tag_user_tags s msg :
  tag_user s msg
  = JsSet.add_all
      (match sender msg with
       | Some name =>
           flat_map (fun mt => if includes (fst mt) name then [snd mt] else [])
                    user_tags
       | None => []
       end) s.
Proof.
  unfold tag_user, user_tags. destruct (sender msg) as [name |];
    [| reflexivity].
  simpl. destruct (includes "|" name), (includes "admin" name),
    (includes "mod" name); reflexivity.
Qed.

Lemma userTypes_of_senders messages :
  userTypes_of messages
  = JsSet.add_all
      (flat_map (fun name =>
                   flat_map (fun mt => if includes (fst mt) name
                                       then [snd mt] else [])
                            user_tags)
                (senders messages)) [].
Proof.
  unfold userTypes_of, senders.
  assert (H : forall l s,
             fold_left tag_user l s
             = JsSet.add_all
                 (flat_map
                    (fun name =>
                       flat_map (fun mt => if includes (fst mt) name
                                           then [snd mt] else [])
                                user_tags)
                    (flat_map (fun msg => match sender msg with
                                          | Some name => [name]
                                          | None => []
                                          end) l)) s).
  { induction l as [| msg r IH]; intros s; [reflexivity |].
    simpl fold_left. rewrite IH, tag_user_tags. simpl flat_map.
    rewrite flat_map_app, add_all_app.
    destruct (sender msg); simpl; rewrite ?app_nil_r; reflexivity. }
  apply H.
Qed.

Lemma fold_userTypes : forall ms acc,
  Acc.userTypes (fold_left merge ms acc)
  = JsSet.add_all (List.concat (map PerDoc.userTypes ms)) (Acc.userTypes acc).
Proof.
  induction ms as [| m r IH]; intros acc; simpl; [reflexivity |].
  rewrite IH. simpl. now rewrite add_all_app.
Qed.

Lemma fold_datesCovered : forall ms acc,
  Acc.datesCovered (fold_left merge ms acc)
  = JsSet.add_all (List.concat (map PerDoc.datesCovered ms))
                  (Acc.datesCovered acc).
Proof.
  induction ms as [| m r IH]; intros acc; simpl; [reflexivity |].
  rewrite IH. simpl. now rewrite add_all_app.
Qed.

(** X9, user types.  [userTypes] has no duplicates and holds a tag exactly
    when the trimmed sender name of some user message contains the marker
    of the tag ([|] for Team Member, [admin] for Admin, [mod] for
    Moderator, in this case); the markers are looked for independently,
    and a batch holds the tags of its processed documents. *)
Theorem userTypes_follow_markers :
  forall new_Date,
    (forall messages,
        let types := PerDoc.userTypes (analyze new_Date messages) in
        NoDup types
        /\ (forall tag,
               In tag types
               <-> exists marker name,
                   In (marker, tag) user_tags
                   /\ In name (senders messages)
                   /\ includes marker name = true))
    /\ (forall fileContents,
          let types :=
            Agg.userTypes (aggregateMetrics new_Date fileContents) in
          NoDup types
          /\ (forall tag,
                 In tag types
                 <-> exists messages,
                     In messages (processed fileContents)
                     /\ In tag (userTypes_of messages))).
Proof.
  intros new_Date. split.
  - intros messages types. subst types.
    change (PerDoc.userTypes (analyze new_Date messages))
      with (userTypes_of messages).
    rewrite userTypes_of_senders. split.
    + apply NoDup_add_all. constructor.
    + intros tag. rewrite in_add_all, in_flat_map. simpl In at 3. split.
      * intros [[name [Hn Ht]] | []].
        apply in_flat_map in Ht as [[marker tag'] [Hm Ht]]. simpl in Ht.
        destruct (includes marker name) eqn:E; [| contradiction].
        destruct Ht as [<- | []]. now exists marker, name.
      * intros (marker & name & Hm & Hn & Hi). left. exists name.
        split; [assumption |]. apply in_flat_map. exists (marker, tag).
        split; [assumption |]. simpl. rewrite Hi. now left.
  - intros fileContents types. subst types.
    rewrite aggregateMetrics_successes, successes_processed.
    cbn [finish Agg.userTypes]. rewrite fold_userTypes, map_map.
    cbn [Acc.userTypes aggregated0]. split.
    + apply NoDup_add_all. constructor.
    + intros tag. rewrite in_add_all, in_concat. simpl In at 3. split.
      * intros [[l [Hl Ht]] | []]. apply in_map_iff in Hl as [msgs [<- Hm]].
        now exists msgs.
      * intros [msgs [Hm Ht]]. left. exists (userTypes_of msgs).
        split; [| exact Ht]. apply in_map_iff. now exists msgs.
Qed.

(** ** The order of strings and the default sort *)

Lemma ascii_compare_lt_trans a b c :
  Ascii.compare a b = Lt -> Ascii.compare b c = Lt -> Ascii.compare a c = Lt.
Proof.
  unfold Ascii.compare. rewrite !N.compare_lt_iff. lia.
Qed.

Lemma compare_lt_trans : forall s1 s2 s3,
  String.compare s1 s2 = Lt -> String.compare s2 s3 = Lt ->
  String.compare s1 s3 = Lt.
Proof.
  induction s1 as [| a s1 IH]; intros [| b s2] [| c s3]; simpl;
    try discriminate; try reflexivity.
  destruct (Ascii.compare a b) eqn:Eab; try discriminate;
    destruct (Ascii.compare b c) eqn:Ebc; try discriminate; intros H1 H2.
  - apply Ascii.compare_eq_iff in Eab, Ebc. subst.
    assert (E : Ascii.compare c c = Eq).
    { unfold Ascii.compare. apply N.compare_refl. }
    rewrite E. eapply IH; eassumption.
  - apply Ascii.compare_eq_iff in Eab. subst. now rewrite Ebc.
  - apply Ascii.compare_eq_iff in Ebc. subst. now rewrite Eab.
  - now rewrite (ascii_compare_lt_trans _ _ _ Eab Ebc).
Qed.

Lemma ltb_trans a b c :
  String.ltb a b = true -> String.ltb b c = true -> String.ltb a c = true.
Proof.
  unfold String.ltb.
  destruct (String.compare a b) eqn:E1; try discriminate.
  destruct (String.compare b c) eqn:E2; try discriminate.
  now rewrite (compare_lt_trans _ _ _ E1 E2).
Qed.

Lemma ltb_total a b :
  a <> b -> String.ltb a b = false -> String.ltb b a = true.
Proof.
  unfold String.ltb. rewrite (String.compare_antisym b a).
  destruct (String.compare a b) eqn:E; simpl; try discriminate; auto.
  intros H. apply String.compare_eq_iff in E. contradiction.
Qed.

Lemma ltb_irrefl a : String.ltb a a = false.
Proof.
  unfold String.ltb. pose proof (String.compare_antisym a a) as H.
  destruct (String.compare a a); simpl in H; congruence.
Qed.

Lemma insert_string_perm x l : Permutation (insert_string x l) (x :: l).
Proof.
  induction l as [| y r IH]; simpl; [apply Permutation_refl |].
  destruct (String.ltb y x).
  - eapply perm_trans; [apply perm_skip, IH | apply perm_swap].
  - apply Permutation_refl.
Qed.

Lemma sort_strings_perm l : Permutation (sort_strings l) l.
Proof.
  unfold sort_strings. induction l as [| x r IH]; simpl; [constructor |].
  eapply perm_trans; [apply insert_string_perm | now constructor].
Qed.

Lemma insert_string_ascending x l :
  ~ In x l -> ascending l -> ascending (insert_string x l).
Proof.
  unfold ascending. induction l as [| y r IH]; simpl; intros Hx Hs.
  - constructor; constructor.
  - inversion Hs as [| ? ? Hr Hy]; subst.
    destruct (String.ltb y x) eqn:E.
    + constructor; [apply IH; tauto |].
      eapply Permutation_Forall;
        [apply Permutation_sym, insert_string_perm |].
      constructor; assumption.
    + assert (Hxy : String.ltb x y = true).
      { apply ltb_total; [intros -> | exact E]. apply Hx. now left. }
      constructor; [assumption |]. constructor; [assumption |].
      eapply Forall_impl; [| exact Hy]. simpl. intros z Hz.
      eapply ltb_trans; eassumption.
Qed.

(** The default sort puts distinct strings in strictly ascending order. *)
Lemma sort_strings_ascending l : NoDup l -> ascending (sort_strings l).
Proof.
  unfold sort_strings. induction 1 as [| x r Hx Hr IH]; simpl.
  - constructor.
  - apply insert_string_ascending; [| exact IH].
    intros H. apply Hx. eapply Permutation_in; [| exact H].
    apply sort_strings_perm.
Qed.

(** ** The dates covered *)

Lemma cover_date_key s msg :
  cover_date s msg
  = match covered_date msg with Some d => JsSet.add d s | None => s end.
Proof.
  unfold cover_date, covered_date. destruct (body_details msg) as [t |];
    [| reflexivity].
  destruct (includes "2024" t); simpl; [| reflexivity].
  now destruct (includes ":" (trim t)).
Qed.

Lemma dates_of_covered messages :
  dates_of messages
  = JsSet.add_all (flat_map (fun msg => match covered_date msg with
                                        | Some d => [d]
                                        | None => []
                                        end) messages) [].
Proof.
  unfold dates_of.
  assert (H : forall l s,
             fold_left cover_date l s
             = JsSet.add_all (flat_map (fun msg => match covered_date msg with
                                                   | Some d => [d]
                                                   | None => []
                                                   end) l) s).
  { induction l as [| msg r IH]; intros s; [reflexivity |].
    simpl. rewrite IH, add_all_app, cover_date_key.
    now destruct (covered_date msg). }
  apply H.
Qed.

Lemma in_dates_of d messages :
  In d (dates_of messages)
  <-> exists msg, In msg messages /\ covered_date msg = Some d.
Proof.
  rewrite dates_of_covered, in_add_all, in_flat_map. simpl In at 3. split.
  - intros [[msg [Hm Hd]] | []]. exists msg. split; [assumption |].
    destruct (covered_date msg); [| contradiction].
    destruct Hd as [<- | []]. reflexivity.
  - intros [msg [Hm Hd]]. left. exists msg. split; [assumption |].
    rewrite Hd. now left.
Qed.

(** X10, dates covered.  [datesCovered], of a document and of a batch, is
    in strictly ascending order of code units, hence without duplicates,
    and holds the trimmed text of the [.body.details] element of each
    message of a processed document whose text contains [2024] and, once
    trimmed, no colon: no other year is ever listed. *)
Theorem datesCovered_sorted_texts_of_2024 :
  forall new_Date,
    (forall messages,
        let dates := PerDoc.datesCovered (analyze new_Date messages) in
        ascending dates
        /\ (forall d,
               In d dates
               <-> exists msg t,
                   In msg messages
                   /\ body_details msg = Some t
                   /\ includes "2024" t = true
                   /\ includes ":" (trim t) = false
                   /\ d = trim t))
    /\ (forall fileContents,
          let dates :=
            Agg.datesCovered (aggregateMetrics new_Date fileContents) in
          ascending dates
          /\ (forall d,
                 In d dates
                 <-> exists messages,
                     In messages (processed fileContents)
                     /\ In d (PerDoc.datesCovered
                                (analyze new_Date messages)))).
Proof.
  intros new_Date. split.
  - intros messages dates. subst dates.
    change (PerDoc.datesCovered (analyze new_Date messages))
      with (sort_strings (dates_of messages)).
    split.
    + apply sort_strings_ascending. rewrite dates_of_covered.
      apply NoDup_add_all. constructor.
    + intros d.
      assert (Hp : In d (sort_strings (dates_of messages))
                   <-> In d (dates_of messages)).
      { split; apply Permutation_in;
          [| apply Permutation_sym]; apply sort_strings_perm. }
      rewrite Hp, in_dates_of. unfold covered_date. split.
      * intros [msg [Hm Hd]].
        destruct (body_details msg) as [t |] eqn:Et; [| discriminate].
        destruct (includes "2024" t) eqn:E1; [| discriminate].
        destruct (includes ":" (trim t)) eqn:E2; [discriminate |].
        simpl in Hd. injection Hd as <-. exists msg, t. auto.
      * intros (msg & t & Hm & Et & E1 & E2 & ->). exists msg.
        split; [assumption |]. now rewrite Et, E1, E2.
  - intros fileContents dates. subst dates.
    rewrite aggregateMetrics_successes, successes_processed.
    cbn [finish Agg.datesCovered]. rewrite fold_datesCovered, map_map.
    cbn [Acc.datesCovered aggregated0]. split.
    + apply sort_strings_ascending, NoDup_add_all. constructor.
    + intros d.
      match goal with
      | |- In d (sort_strings ?l) <-> _ =>
          assert (Hp : In d (sort_strings l) <-> In d l)
      end.
      { split; apply Permutation_in;
          [| apply Permutation_sym]; apply sort_strings_perm. }
      rewrite Hp, in_add_all, in_concat. simpl In at 3. split.
      * intros [[l [Hl Hd]] | []]. apply in_map_iff in Hl as [msgs [<- Hm]].
        now exists msgs.
      * intros [msgs [Hm Hd]]. left.
        exists (PerDoc.datesCovered (analyze new_Date msgs)).
        split; [| exact Hd]. apply in_map_iff. now exists msgs.
Qed.

(** ** Message lengths *)

Lemma sum_fold (l : list Z) : forall a,
  fold_left Z.add l a = a + sum_of (fun x => x) l.
Proof.
  induction l as [| x r IH]; intros a; simpl; [lia |]. rewrite IH. lia.
Qed.

Lemma sum_bounds lo hi (l : list Z) :
  (forall x, In x l -> lo <= x <= hi) ->
  Z.of_nat (List.length l) * lo <= JsArray.sum l
  <= Z.of_nat (List.length l) * hi.
Proof.
  unfold JsArray.sum. rewrite sum_fold.
  induction l as [| x r IH]; intros H; [simpl; lia |].
  assert (Hx : lo <= x <= hi) by (apply H; now left).
  assert (Hr : forall y, In y r -> lo <= y <= hi)
    by (intros y Hy; apply H; now right).
  specialize (IH Hr). cbn [List.length sum_of fold_right] in *.
  fold (sum_of (fun x : Z => x) r). rewrite Nat2Z.inj_succ. nia.
Qed.

(** The rounded mean of samples lies between their bounds. *)
Lemma rounded_mean_bounds lo hi (l : list Z) :
  l <> [] -> (forall x, In x l -> lo <= x <= hi) ->
  lo <= rounded_mean l <= hi.
Proof.
  intros Hne H. unfold rounded_mean.
  pose proof (sum_bounds lo hi l H) as Hs.
  assert (Hn : 0 < Z.of_nat (List.length l)) by (destruct l; simpl; [congruence | lia]).
  set (n := Z.of_nat (List.length l)) in *.
  destruct (0 <? n) eqn:E; [| apply Z.ltb_ge in E; lia]. split.
  - apply Z.div_le_lower_bound; nia.
  - apply Z.lt_succ_r, Z.div_lt_upper_bound; nia.
Qed.

Lemma length_samples messages :
  Z.of_nat (List.length (messageLengths_of messages))
  = count_of (fun msg => has_key (text msg)) (userMessages_of messages).
Proof.
  unfold messageLengths_of, count_of. f_equal.
  induction (userMessages_of messages) as [| msg r IH]; [reflexivity |].
  simpl. rewrite length_app, IH. unfold length_sample, body.
  destruct (text msg); reflexivity.
Qed.

Lemma samples_nonneg messages x :
  In x (messageLengths_of messages) -> 0 <= x.
Proof.
  unfold messageLengths_of. intros H. apply in_flat_map in H as [msg [_ H]].
  unfold length_sample in H. destruct (body msg); [| contradiction].
  destruct H as [<- | []]. unfold len. lia.
Qed.

(** X11, message lengths.  A document has one length sample for each user
    message with a text element, none of them negative;
    [averageMessageLength], of a document and of a batch, is 0 without
    samples and otherwise lies between the smallest and the largest
    sample. *)
Theorem average_lies_between_samples :
  forall new_Date,
    (forall messages,
        let m := analyze new_Date messages in
        let samples := PerDoc.messageLengthDistribution m in
        Z.of_nat (List.length samples)
        = count_of (fun msg => has_key (text msg)) (userMessages_of messages)
        /\ (forall x, In x samples -> 0 <= x)
        /\ (samples = [] -> PerDoc.averageMessageLength m = 0)
        /\ (forall lo hi,
               samples <> [] ->
               (forall x, In x samples -> lo <= x <= hi) ->
               lo <= PerDoc.averageMessageLength m <= hi))
    /\ (forall fileContents,
          let agg := aggregateMetrics new_Date fileContents in
          let samples :=
            List.concat (map PerDoc.messageLengthDistribution
                             (successes new_Date fileContents)) in
          (samples = [] -> Agg.averageMessageLength agg = 0)
          /\ (forall lo hi,
                 samples <> [] ->
                 (forall x, In x samples -> lo <= x <= hi) ->
                 lo <= Agg.averageMessageLength agg <= hi)).
Proof.
  intros new_Date. split.
  - intros messages m samples. subst m samples.
    cbn [analyze PerDoc.messageLengthDistribution
         PerDoc.averageMessageLength].
    split; [apply length_samples | split; [apply samples_nonneg |]].
    split.
    + intros ->. reflexivity.
    + intros lo hi. apply rounded_mean_bounds.
  - intros fileContents agg samples.
    assert (E : Agg.averageMessageLength agg = rounded_mean samples).
    { subst agg samples. rewrite aggregateMetrics_successes.
      cbn [finish Agg.averageMessageLength].
      now rewrite fold_messageLengths. }
    rewrite E. split.
    + intros ->. reflexivity.
    + intros lo hi. apply rounded_mean_bounds.
Qed.

Lemma average_lies_between_samples_witness :
  List.concat (map PerDoc.messageLengthDistribution
                   (successes UtcDate.new_Date
                      [Fixture.samples_246; Fixture.samples_8])) <> []
  /\ 2 <= Agg.averageMessageLength
            (aggregateMetrics UtcDate.new_Date
               [Fixture.samples_246; Fixture.samples_8]) <= 8.
Proof.
  assert (Hne : List.concat (map PerDoc.messageLengthDistribution
                   (successes UtcDate.new_Date
                      [Fixture.samples_246; Fixture.samples_8])) <> [])
    by (vm_compute; discriminate).
  split; [exact Hne |].
  apply (proj2 (proj2 (average_lies_between_samples UtcDate.new_Date)
                      [Fixture.samples_246; Fixture.samples_8])
               2 8 Hne).
  vm_compute. intros x [<- | [<- | [<- | [<- | []]]]]; split; discriminate.
Defined.

(** ** Batches put together and reordered *)

Lemma aggregated_scalars new_Date fileContents :
  let agg := aggregateMetrics new_Date fileContents in
  let ms := successes new_Date fileContents in
  Agg.totalMessages agg = sum_of PerDoc.totalMessages ms
  /\ Agg.userMessages agg = sum_of PerDoc.userMessages ms
  /\ Agg.serviceMessages agg = sum_of PerDoc.serviceMessages ms
  /\ Agg.averageMessageLength agg
     = rounded_mean
         (List.concat (map PerDoc.messageLengthDistribution ms))
  /\ Agg.datesCovered agg
     = sort_strings
         (JsSet.add_all (List.concat (map PerDoc.datesCovered ms)) []).
Proof.
  intros agg ms. subst agg ms. rewrite aggregateMetrics_successes.
  cbn [finish Agg.totalMessages Agg.userMessages Agg.serviceMessages
       Agg.averageMessageLength Agg.datesCovered].
  rewrite fold_totalMessages, fold_userMessages, fold_serviceMessages,
    fold_messageLengths, fold_datesCovered.
  repeat split.
Qed.

Lemma successes_perm new_Date l l' :
  Permutation l l' ->
  Permutation (successes new_Date l) (successes new_Date l').
Proof. unfold successes. apply Permutation_flat_map. Qed.

Lemma concat_perm {A} (l l' : list (list A)) :
  Permutation l l' -> Permutation (List.concat l) (List.concat l').
Proof.
  induction 1; simpl.
  - constructor.
  - now apply Permutation_app_head.
  - rewrite !app_assoc. apply Permutation_app_tail, Permutation_app_comm.
  - eapply perm_trans; eassumption.
Qed.

Lemma rounded_mean_perm l l' :
  Permutation l l' -> rounded_mean l = rounded_mean l'.
Proof.
  intros H. unfold rounded_mean, JsArray.sum.
  rewrite !sum_fold, (sum_of_perm _ _ _ H), (Permutation_length H).
  reflexivity.
Qed.

(** Strictly ascending lists with the same elements are equal. *)
Lemma ascending_unique : forall l1 l2,
  ascending l1 -> ascending l2 ->
  (forall x, In x l1 <-> In x l2) -> l1 = l2.
Proof.
  unfold ascending.
  induction l1 as [| x r1 IH]; intros [| y r2] H1 H2 Hin.
  - reflexivity.
  - destruct (proj2 (Hin y) (or_introl eq_refl)).
  - destruct (proj1 (Hin x) (or_introl eq_refl)).
  - inversion H1 as [| ? ? Hr1 Hx]; inversion H2 as [| ? ? Hr2 Hy]; subst.
    rewrite Forall_forall in Hx, Hy.
    assert (E : x = y).
    { destruct (proj1 (Hin x) (or_introl eq_refl)) as [E | Hxr];
        [now symmetry |].
      destruct (proj2 (Hin y) (or_introl eq_refl)) as [E | Hyr];
        [assumption |].
      pose proof (ltb_trans _ _ _ (Hx _ Hyr) (Hy _ Hxr)) as Hc.
      rewrite ltb_irrefl in Hc. discriminate. }
    subst y. f_equal. apply IH; [assumption | assumption |].
    intros z. split; intros Hz.
    + destruct (proj1 (Hin z) (or_intror Hz)) as [<- | H]; [| exact H].
      specialize (Hx _ Hz). rewrite ltb_irrefl in Hx. discriminate.
    + destruct (proj2 (Hin z) (or_intror Hz)) as [<- | H]; [| exact H].
      specialize (Hy _ Hz). rewrite ltb_irrefl in Hy. discriminate.
Qed.

Lemma sort_strings_set l l' :
  NoDup l -> NoDup l' -> (forall x, In x l <-> In x l') ->
  sort_strings l = sort_strings l'.
Proof.
  intros Hl Hl' Hin. apply ascending_unique;
    try now apply sort_strings_ascending.
  intros x. split; intros H.
  - eapply Permutation_in; [apply Permutation_sym, sort_strings_perm |].
    apply Hin. eapply Permutation_in; [apply sort_strings_perm | exact H].
  - eapply Permutation_in; [apply Permutation_sym, sort_strings_perm |].
    apply Hin. eapply Permutation_in; [apply sort_strings_perm | exact H].
Qed.

(** X12, batches put together.  When no sender name is the name of an
    inherited property, the message counts of two batches put together
    are the sums of the counts of the two, and so is every count of the
    five counters. *)
Theorem batches_add_up :
  forall new_Date b1 b2,
    forallb plain_names (processed (b1 ++ b2)) = true ->
    let agg := aggregateMetrics new_Date (b1 ++ b2) in
    let agg1 := aggregateMetrics new_Date b1 in
    let agg2 := aggregateMetrics new_Date b2 in
    Agg.totalMessages agg = Agg.totalMessages agg1 + Agg.totalMessages agg2
    /\ Agg.userMessages agg = Agg.userMessages agg1 + Agg.userMessages agg2
    /\ Agg.serviceMessages agg
       = Agg.serviceMessages agg1 + Agg.serviceMessages agg2
    /\ (forall k,
          get0 k (Agg.messagesByUser agg)
          = get0 k (Agg.messagesByUser agg1) + get0 k (Agg.messagesByUser agg2)
          /\ get0 k (Agg.messagesByHour agg)
             = get0 k (Agg.messagesByHour agg1)
               + get0 k (Agg.messagesByHour agg2)
          /\ get0 k (Agg.messagesByDayOfWeek agg)
             = get0 k (Agg.messagesByDayOfWeek agg1)
               + get0 k (Agg.messagesByDayOfWeek agg2)
          /\ get0 k (Agg.messagesByDate agg)
             = get0 k (Agg.messagesByDate agg1)
               + get0 k (Agg.messagesByDate agg2)
          /\ get0 k (Agg.reactionsByUser agg)
             = get0 k (Agg.reactionsByUser agg1)
               + get0 k (Agg.reactionsByUser agg2)).
Proof.
  intros new_Date b1 b2 _ agg agg1 agg2.
  destruct (aggregated_scalars new_Date (b1 ++ b2)) as (Et & Eu & Es & _).
  destruct (aggregated_scalars new_Date b1) as (Et1 & Eu1 & Es1 & _).
  destruct (aggregated_scalars new_Date b2) as (Et2 & Eu2 & Es2 & _).
  fold agg in Et, Eu, Es. fold agg1 in Et1, Eu1, Es1.
  fold agg2 in Et2, Eu2, Es2.
  rewrite Et, Eu, Es, Et1, Eu1, Es1, Et2, Eu2, Es2.
  rewrite successes_app, !sum_of_app.
  split; [reflexivity | split; [reflexivity | split; [reflexivity |]]].
  intros k.
  destruct (aggregated_counters_sum new_Date (b1 ++ b2))
    as (A1 & A2 & A3 & A4 & A5).
  destruct (aggregated_counters_sum new_Date b1)
    as (B1 & B2 & B3 & B4 & B5).
  destruct (aggregated_counters_sum new_Date b2)
    as (C1 & C2 & C3 & C4 & C5).
  fold agg in A1, A2, A3, A4, A5. fold agg1 in B1, B2, B3, B4, B5.
  fold agg2 in C1, C2, C3, C4, C5.
  rewrite (proj2 (A1 k)), (proj2 (A2 k)), (proj2 (A3 k)), (proj2 (A4 k)),
    (proj2 (A5 k)), (proj2 (B1 k)), (proj2 (B2 k)), (proj2 (B3 k)),
    (proj2 (B4 k)), (proj2 (B5 k)), (proj2 (C1 k)), (proj2 (C2 k)),
    (proj2 (C3 k)), (proj2 (C4 k)), (proj2 (C5 k)).
  rewrite successes_app, !map_app, !sum_of_app. repeat split.
Qed.

Lemma batches_add_up_witness :
  forallb plain_names
          (processed ([Fixture.with_reactions; Fixture.four_dated]
                      ++ [Fixture.three_messages])) = true
  /\ Agg.userMessages
       (aggregateMetrics UtcDate.new_Date
          ([Fixture.with_reactions; Fixture.four_dated]
           ++ [Fixture.three_messages]))
     = Agg.userMessages
         (aggregateMetrics UtcDate.new_Date
            [Fixture.with_reactions; Fixture.four_dated])
       + Agg.userMessages
           (aggregateMetrics UtcDate.new_Date [Fixture.three_messages]).
Proof.
  assert (H : forallb plain_names
                      (processed ([Fixture.with_reactions; Fixture.four_dated]
                                  ++ [Fixture.three_messages])) = true)
    by (vm_compute; reflexivity).
  split; [exact H |].
  exact (proj1 (proj2 (batches_add_up UtcDate.new_Date
                         [Fixture.with_reactions; Fixture.four_dated]
                         [Fixture.three_messages] H))).
Defined.

(** X13, order of the documents.  When no sender name is the name of an
    inherited property, reordering the documents of a batch changes none
    of the message counts, no count of the five counters, and neither
    [uniqueUsers], [averageMessageLength] nor [datesCovered]. *)
Theorem batch_counts_ignore_order :
  forall new_Date b1 b2,
    Permutation b1 b2 ->
    forallb plain_names (processed b1) = true ->
    let agg1 := aggregateMetrics new_Date b1 in
    let agg2 := aggregateMetrics new_Date b2 in
    Agg.totalMessages agg1 = Agg.totalMessages agg2
    /\ Agg.userMessages agg1 = Agg.userMessages agg2
    /\ Agg.serviceMessages agg1 = Agg.serviceMessages agg2
    /\ Agg.uniqueUsers agg1 = Agg.uniqueUsers agg2
    /\ Agg.averageMessageLength agg1 = Agg.averageMessageLength agg2
    /\ Agg.datesCovered agg1 = Agg.datesCovered agg2
    /\ (forall k,
          get0 k (Agg.messagesByUser agg1) = get0 k (Agg.messagesByUser agg2)
          /\ get0 k (Agg.messagesByHour agg1)
             = get0 k (Agg.messagesByHour agg2)
          /\ get0 k (Agg.messagesByDayOfWeek agg1)
             = get0 k (Agg.messagesByDayOfWeek agg2)
          /\ get0 k (Agg.messagesByDate agg1)
             = get0 k (Agg.messagesByDate agg2)
          /\ get0 k (Agg.reactionsByUser agg1)
             = get0 k (Agg.reactionsByUser agg2)).
Proof.
  intros new_Date b1 b2 Hp _ agg1 agg2.
  pose proof (successes_perm new_Date _ _ Hp) as Hs.
  destruct (aggregated_scalars new_Date b1) as (Et1 & Eu1 & Es1 & Ea1 & Ed1).
  destruct (aggregated_scalars new_Date b2) as (Et2 & Eu2 & Es2 & Ea2 & Ed2).
  fold agg1 in Et1, Eu1, Es1, Ea1, Ed1.
  fold agg2 in Et2, Eu2, Es2, Ea2, Ed2.
  destruct (aggregated_counters_sum new_Date b1)
    as (B1 & B2 & B3 & B4 & B5).
  destruct (aggregated_counters_sum new_Date b2)
    as (C1 & C2 & C3 & C4 & C5).
  fold agg1 in B1, B2, B3, B4, B5. fold agg2 in C1, C2, C3, C4, C5.
  rewrite Et1, Eu1, Es1, Ea1, Ed1, Et2, Eu2, Es2, Ea2, Ed2.
  split; [apply sum_of_perm, Hs |].
  split; [apply sum_of_perm, Hs |].
  split; [apply sum_of_perm, Hs |].
  split; [| split; [| split]].
  - pose proof (aggregated_uniqueUsers new_Date b1) as U1.
    pose proof (aggregated_uniqueUsers new_Date b2) as U2.
    cbv zeta in U1, U2. fold agg1 in U1. fold agg2 in U2.
    rewrite U1, U2. f_equal. apply Permutation_length, NoDup_Permutation.
    + apply NoDup_keys.
      destruct (counters_of_aggregateMetrics new_Date b1) as (E & _).
      fold agg1 in E. rewrite E.
      apply well_formed_add_counts_all, well_formed_empty.
    + apply NoDup_keys.
      destruct (counters_of_aggregateMetrics new_Date b2) as (E & _).
      fold agg2 in E. rewrite E.
      apply well_formed_add_counts_all, well_formed_empty.
    + intros k. rewrite (proj1 (B1 k)), (proj1 (C1 k)).
      split; intros [p [Hin Hk]]; exists p; (split; [| exact Hk]).
      * eapply Permutation_in; [apply Permutation_map, Hs | exact Hin].
      * eapply Permutation_in;
          [apply Permutation_map, Permutation_sym, Hs | exact Hin].
  - apply rounded_mean_perm, concat_perm, Permutation_map, Hs.
  - apply sort_strings_set; try (apply NoDup_add_all; constructor).
    intros d. rewrite !in_add_all. simpl.
    assert (Hc : Permutation
                   (List.concat (map PerDoc.datesCovered
                                     (successes new_Date b1)))
                   (List.concat (map PerDoc.datesCovered
                                     (successes new_Date b2))))
      by (apply concat_perm, Permutation_map, Hs).
    split; (intros [H | []]; left).
    + eapply Permutation_in; [exact Hc | exact H].
    + eapply Permutation_in; [apply Permutation_sym, Hc | exact H].
  - intros k.
    rewrite (proj2 (B1 k)), (proj2 (B2 k)), (proj2 (B3 k)), (proj2 (B4 k)),
      (proj2 (B5 k)), (proj2 (C1 k)), (proj2 (C2 k)), (proj2 (C3 k)),
      (proj2 (C4 k)), (proj2 (C5 k)).
    repeat split; apply sum_of_perm, Permutation_map, Hs.
Qed.

Lemma batch_counts_ignore_order_witness :
  Permutation [Fixture.four_dated; Fixture.with_reactions]
              [Fixture.with_reactions; Fixture.four_dated]
  /\ forallb plain_names
             (processed [Fixture.four_dated; Fixture.with_reactions]) = true
  /\ Agg.totalMessages
       (aggregateMetrics UtcDate.new_Date
          [Fixture.four_dated; Fixture.with_reactions])
     = Agg.totalMessages
         (aggregateMetrics UtcDate.new_Date
            [Fixture.with_reactions; Fixture.four_dated]).
Proof.
  assert (Hp : Permutation [Fixture.four_dated; Fixture.with_reactions]
                           [Fixture.with_reactions; Fixture.four_dated])
    by apply perm_swap.
  assert (H : forallb plain_names
                      (processed [Fixture.four_dated;
                                  Fixture.with_reactions]) = true)
    by (vm_compute; reflexivity).
  split; [exact Hp | split; [exact H |]].
  exact (proj1 (batch_counts_ignore_order UtcDate.new_Date _ _ Hp H)).
Defined.

(** ** Numbers written and read back *)

Lemma read_digits_acc d : forall acc,
  read_digits digit_val 10 (NilEmpty.string_of_uint d) (Zpos acc) true
  = Some (Zpos (Pos.of_uint_acc d acc)).
Proof.
  induction d; intros acc;
    cbn [NilEmpty.string_of_uint read_digits Pos.of_uint_acc];
    try reflexivity;
    match goal with
    | |- context [digit_val ?c] =>
        let v := eval vm_compute in (digit_val c) in
        change (digit_val c) with v
    end;
    cbv iota; rewrite <- IHd; f_equal; lia.
Qed.

Lemma read_digits_uint d :
  read_digits digit_val 10 (NilEmpty.string_of_uint d) 0 true
  = Some (Z.of_N (Pos.of_uint d)).
Proof.
  induction d;
    cbn [NilEmpty.string_of_uint read_digits Pos.of_uint];
    try reflexivity;
    match goal with
    | |- context [digit_val ?c] =>
        let v := eval vm_compute in (digit_val c) in
        change (digit_val c) with v
    end;
    cbv iota; try exact IHd; apply read_digits_acc.
Qed.

Lemma read_digits_unseen val radix s acc :
  s <> "" ->
  read_digits val radix s acc false = None
  \/ read_digits val radix s acc false = read_digits val radix s acc true.
Proof.
  destruct s as [| c r]; [congruence |]. intros _. simpl.
  destruct (val c); auto.
Qed.

Lemma digits_of_uint d :
  all_chars is_digit (NilEmpty.string_of_uint d) = true.
Proof. unfold all_chars. induction d; simpl; auto. Qed.

Lemma digit_is_plain c :
  is_digit c = true ->
  is_ws c = false /\ Ascii.eqb c "-" = false /\ Ascii.eqb c "+" = false
  /\ Ascii.eqb c "x" = false /\ Ascii.eqb c "X" = false
  /\ exists v, digit_val c = Some v.
Proof.
  destruct c as [[] [] [] [] [] [] [] []]; try discriminate; intros _;
    repeat split; eexists; reflexivity.
Qed.

Lemma option_map_mul_1 x : option_map (Z.mul 1) x = x.
Proof.
  destruct x as [z |]; cbn [option_map]; [| reflexivity].
  now rewrite Z.mul_1_l.
Qed.

(** [parseInt] of a string of digits, with or without a minus sign. *)
Lemma parseInt_digits s :
  s <> "" -> all_chars is_digit s = true ->
  parseInt s = read_digits digit_val 10 s 0 true
  /\ parseInt (String "-" s)
     = option_map (Z.mul (-1)) (read_digits digit_val 10 s 0 true).
Proof.
  destruct s as [| c r]; [congruence |]. intros _ H.
  unfold all_chars in H. simpl in H. apply andb_true_iff in H as [Hc Hr].
  destruct (digit_is_plain c Hc) as (Hw & Hm & Hp & _ & _ & v & Hv).
  assert (Hhex : match r with
                 | String c1 r' =>
                     Ascii.eqb c "0"
                     && (Ascii.eqb c1 "x" || Ascii.eqb c1 "X") = false
                 | EmptyString => True
                 end).
  { destruct r as [| c1 r']; [exact I |]. simpl in Hr.
    apply andb_true_iff in Hr as [Hc1 _].
    destruct (digit_is_plain c1 Hc1) as (_ & _ & _ & Hx & HX & _).
    rewrite Hx, HX. apply andb_false_r. }
  assert (Hread : read_digits digit_val 10 (String c r) 0 false
                  = read_digits digit_val 10 (String c r) 0 true).
  { simpl. now rewrite Hv. }
  split.
  - unfold parseInt. simpl trim_start. rewrite Hw, Hm, Hp.
    destruct r as [| c1 r'].
    + rewrite option_map_mul_1. exact Hread.
    + rewrite Hhex, option_map_mul_1. exact Hread.
  - unfold parseInt. simpl trim_start.
    change (is_ws "-") with false. cbv iota.
    change (Ascii.eqb "-" "-") with true. cbv iota.
    destruct r as [| c1 r'].
    + now rewrite Hread.
    + now rewrite Hhex, Hread.
Qed.

Lemma parseInt_of_Z n : parseInt (of_Z n) = Some n.
Proof.
  destruct n as [| p | p]; unfold of_Z; simpl Z.to_int.
  - reflexivity.
  - unfold NilZero.string_of_int, NilZero.string_of_uint.
    pose proof (DecimalPos.Unsigned.to_uint_nonnil p) as Hn.
    pose proof (DecimalPos.Unsigned.of_to p) as Hv.
    destruct (Pos.to_uint p) as [| | | | | | | | | |] eqn:E;
      [congruence | ..];
      (rewrite <- E in *;
       destruct (parseInt_digits (NilEmpty.string_of_uint (Pos.to_uint p)))
         as [-> _];
       [ rewrite E; discriminate
       | apply digits_of_uint
       | now rewrite read_digits_uint, Hv ]).
  - unfold NilZero.string_of_int, NilZero.string_of_uint.
    pose proof (DecimalPos.Unsigned.to_uint_nonnil p) as Hn.
    pose proof (DecimalPos.Unsigned.of_to p) as Hv.
    destruct (Pos.to_uint p) as [| | | | | | | | | |] eqn:E;
      [congruence | ..];
      (rewrite <- E in *;
       destruct (parseInt_digits (NilEmpty.string_of_uint (Pos.to_uint p)))
         as [_ ->];
       [ rewrite E; discriminate
       | apply digits_of_uint
       | now rewrite read_digits_uint, Hv ]).
Qed.

Lemma of_Z_injective n m : of_Z n = of_Z m -> n = m.
Proof.
  intros E. apply (f_equal parseInt) in E. rewrite !parseInt_of_Z in E.
  now injection E.
Qed.

(** ** The hourly chart *)

Lemma insert_hour_perm x l :
  Permutation (Dashboard.insert_hour x l) (x :: l).
Proof.
  induction l as [| y r IH]; simpl; [apply Permutation_refl |].
  destruct (Dashboard.later x y).
  - eapply perm_trans; [apply perm_skip, IH | apply perm_swap].
  - apply Permutation_refl.
Qed.

Lemma sort_hours_perm l :
  Permutation (fold_right Dashboard.insert_hour [] l) l.
Proof.
  induction l as [| x r IH]; simpl; [constructor |].
  eapply perm_trans; [apply insert_hour_perm | now constructor].
Qed.

Lemma insert_hour_sorted x l hx :
  Dashboard.hour x = Some hx ->
  ~ In (Some hx) (map Dashboard.hour l) ->
  StronglySorted Dashboard.earlier l ->
  Forall (fun y => exists h, Dashboard.hour y = Some h) l ->
  StronglySorted Dashboard.earlier (Dashboard.insert_hour x l).
Proof.
  intros Hx. induction l as [| y r IH]; simpl; intros Hn Hs Hh.
  - constructor; constructor.
  - inversion Hs as [| ? ? Hr Hy]; subst.
    inversion Hh as [| ? ? [hy Ey] Hhr]; subst.
    unfold Dashboard.later. rewrite Hx, Ey.
    destruct (hy <? hx) eqn:E.
    + apply Z.ltb_lt in E. constructor; [apply IH; tauto |].
      eapply Permutation_Forall;
        [apply Permutation_sym, insert_hour_perm |].
      constructor; [| assumption].
      unfold Dashboard.earlier. now rewrite Ey, Hx.
    + apply Z.ltb_ge in E.
      assert (Hlt : hx < hy).
      { assert (hx <> hy); [| lia]. intros ->. apply Hn. left.
        now rewrite Ey. }
      constructor; [assumption |]. constructor.
      * unfold Dashboard.earlier. now rewrite Hx, Ey.
      * eapply Forall_impl; [| exact Hy]. intros z.
        unfold Dashboard.earlier. rewrite Hx, Ey.
        destruct (Dashboard.hour z); [lia | tauto].
Qed.

Lemma sort_hours_sorted l :
  Forall (fun y => exists h, Dashboard.hour y = Some h) l ->
  NoDup (map Dashboard.hour l) ->
  StronglySorted Dashboard.earlier (fold_right Dashboard.insert_hour [] l).
Proof.
  induction l as [| x r IH]; simpl; intros Hh Hn; [constructor |].
  inversion Hh as [| ? ? [hx Ex] Hhr]; subst.
  inversion Hn as [| ? ? Hx Hr]; subst.
  apply (insert_hour_sorted x _ hx Ex).
  - rewrite Ex in Hx. intros H. apply Hx.
    eapply Permutation_in; [apply Permutation_map, sort_hours_perm | exact H].
  - now apply IH.
  - eapply Permutation_Forall; [apply Permutation_sym, sort_hours_perm |].
    assumption.
Qed.

(** The keys of the hours of a batch are integers in decimal notation. *)
Lemma aggregated_hour_keys new_Date fileContents k :
  In k (keys (Agg.messagesByHour (aggregateMetrics new_Date fileContents))) ->
  exists h, k = of_Z h.
Proof.
  destruct (aggregated_counters_sum new_Date fileContents)
    as (_ & Hh & _).
  intros H. apply (proj1 (proj1 (Hh k))) in H as [p [Hp Hk]].
  apply in_map_iff in Hp as [m [<- Hm]].
  rewrite successes_processed in Hm.
  apply in_map_iff in Hm as [msgs [<- _]].
  cbn [analyze PerDoc.messagesByHour] in Hk.
  rewrite in_keys, created_hourCounts, in_add_all in Hk. simpl in Hk.
  destruct Hk as [Hk | []]. apply in_flat_map in Hk as [msg [_ Hk]].
  unfold hour_key in Hk.
  destruct (dated msg) as [[timeElem fullDate] |]; [| contradiction].
  destruct (hour_of timeElem) as [h |]; [| contradiction].
  destruct Hk as [<- | []]. now exists h.
Qed.

(** X15, hourly chart.  For the result of a batch whose displayed hours
    are integers that a number holds exactly (below 2^53 in magnitude),
    the rows of [hourlyData] all have an integer hour, stand in strictly
    ascending order of the hour, and are the counts of [messagesByHour],
    one row for each key: the hour of a key is the integer that the key
    denotes. *)
Theorem hourlyData_rows_in_order :
  forall new_Date fileContents,
    forallb safe_hours (processed fileContents) = true ->
    let agg := aggregateMetrics new_Date fileContents in
    let rows := Dashboard.hourlyData agg in
    StronglySorted Dashboard.earlier rows
    /\ Forall (fun row => exists h, Dashboard.hour row = Some h) rows
    /\ (forall h c,
          In {| Dashboard.hour := Some h; Dashboard.messages := c |} rows
          <-> In (of_Z h, c) (Agg.messagesByHour agg))
    /\ List.length rows = List.length (keys (Agg.messagesByHour agg)).
Proof.
  intros new_Date fileContents _ agg rows.
  pose proof parseInt_of_Z as Hread.
  set (E := entries (Agg.messagesByHour agg)).
  set (f := fun e : string * Z =>
              {| Dashboard.hour := parseInt (fst e);
                 Dashboard.messages := snd e |}).
  assert (Hk : forall e, In e E -> exists h, fst e = of_Z h).
  { intros e He. apply (aggregated_hour_keys new_Date fileContents).
    unfold keys. now apply in_map. }
  assert (Hwf : NoDup (map fst E)).
  { apply NoDup_keys.
    destruct (counters_of_aggregateMetrics new_Date fileContents)
      as (_ & Eh & _).
    fold agg in Eh. rewrite Eh.
    apply well_formed_add_counts_all, well_formed_empty. }
  assert (Hsome : Forall (fun y => exists h, Dashboard.hour y = Some h)
                         (map f E)).
  { apply Forall_forall. intros row Hrow.
    apply in_map_iff in Hrow as [e [<- He]].
    destruct (Hk e He) as [h Eh]. exists h. simpl. now rewrite Eh. }
  assert (Hnd : NoDup (map Dashboard.hour (map f E))).
  { rewrite map_map. simpl. clear Hsome.
    induction E as [| e r IH]; simpl; [constructor |].
    inversion Hwf as [| ? ? Hx Hr]; subst. constructor.
    - intros Hin. apply Hx. apply in_map_iff in Hin as [e' [Ee He']].
      destruct (Hk e (or_introl eq_refl)) as [h Eh].
      destruct (Hk e' (or_intror He')) as [h' Eh'].
      rewrite Eh, Eh', !Hread in Ee. injection Ee as ->.
      rewrite Eh, <- Eh'. now apply in_map.
    - apply IH; [| assumption]. intros e' He'. apply Hk. now right. }
  assert (Hperm : Permutation rows (map f E)) by apply sort_hours_perm.
  split; [| split; [| split]].
  - now apply sort_hours_sorted.
  - eapply Permutation_Forall; [apply Permutation_sym, Hperm | exact Hsome].
  - intros h c.
    assert (Hp : In {| Dashboard.hour := Some h; Dashboard.messages := c |}
                    rows
                 <-> In {| Dashboard.hour := Some h;
                           Dashboard.messages := c |} (map f E)).
    { split; apply Permutation_in; [| apply Permutation_sym]; exact Hperm. }
    rewrite Hp, <- (in_entries (of_Z h, c) (Agg.messagesByHour agg)).
    fold E. rewrite in_map_iff. split.
    + intros [[k c'] [Ee He]]. destruct (Hk _ He) as [h' Eh].
      simpl in Eh. subst k. unfold f in Ee. simpl in Ee.
      rewrite Hread in Ee. injection Ee as -> ->. exact He.
    + intros He. exists (of_Z h, c). split; [| exact He].
      unfold f. simpl. now rewrite Hread.
  - rewrite (Permutation_length Hperm). unfold keys. fold E.
    now rewrite !length_map.
Qed.

Lemma hourlyData_rows_in_order_witness :
  forallb safe_hours (processed [Fixture.four_dated; Fixture.two_dated])
  = true
  /\ StronglySorted Dashboard.earlier
       (Dashboard.hourlyData
          (aggregateMetrics UtcDate.new_Date
             [Fixture.four_dated; Fixture.two_dated])).
Proof.
  assert (H : forallb safe_hours
                      (processed [Fixture.four_dated; Fixture.two_dated])
              = true)
    by (vm_compute; reflexivity).
  split; [exact H |].
  exact (proj1 (hourlyData_rows_in_order UtcDate.new_Date
                  [Fixture.four_dated; Fixture.two_dated] H)).
Defined.

(** ** The sortable lists and the dark mode toggle *)

Lemma toggleSort_direction key st :
  let st' := Dashboard.toggleSort key st in
  Dashboard.sortDirection st' = "asc" \/ Dashboard.sortDirection st' = "desc".
Proof.
  unfold Dashboard.toggleSort.
  destruct (String.eqb (Dashboard.sortKey st) key); simpl; [| now right].
  destruct (String.eqb (Dashboard.sortDirection st) "asc"); auto.
Qed.

Lemma toggleSort_twice st :
  Dashboard.sortDirection st = "asc" \/ Dashboard.sortDirection st = "desc" ->
  Dashboard.toggleSort (Dashboard.sortKey st)
    (Dashboard.toggleSort (Dashboard.sortKey st) st) = st.
Proof.
  destruct st as [k d]. unfold Dashboard.toggleSort. simpl.
  rewrite String.eqb_refl. simpl. rewrite String.eqb_refl.
  intros [-> | ->]; reflexivity.
Qed.

(** X16, sort toggles.  After any clicks on the headers of a sortable list
    the direction is [asc] or [desc].  A click on the active header keeps
    the key and flips the direction, from [desc] to [asc] and from [asc]
    to [desc], so that two such clicks restore the state; a click on
    another header makes it the active one with the direction [desc]. *)
Theorem toggleSort_cycles :
  forall defaultSort clicks key,
    let st := fold_left (fun st k => Dashboard.toggleSort k st) clicks
                        (Dashboard.initial defaultSort) in
    (Dashboard.sortDirection st = "asc"
     \/ Dashboard.sortDirection st = "desc")
    /\ (Dashboard.sortDirection st = "desc" ->
        Dashboard.toggleSort (Dashboard.sortKey st) st
        = {| Dashboard.sortKey := Dashboard.sortKey st;
             Dashboard.sortDirection := "asc" |})
    /\ (Dashboard.sortDirection st = "asc" ->
        Dashboard.toggleSort (Dashboard.sortKey st) st
        = {| Dashboard.sortKey := Dashboard.sortKey st;
             Dashboard.sortDirection := "desc" |})
    /\ Dashboard.toggleSort (Dashboard.sortKey st)
         (Dashboard.toggleSort (Dashboard.sortKey st) st) = st
    /\ (key <> Dashboard.sortKey st ->
        Dashboard.toggleSort key st
        = {| Dashboard.sortKey := key; Dashboard.sortDirection := "desc" |}).
Proof.
  intros defaultSort clicks key st.
  assert (Hd : Dashboard.sortDirection st = "asc"
               \/ Dashboard.sortDirection st = "desc").
  { subst st. apply fold_left_invariant.
    - intros a k _. apply toggleSort_direction.
    - now right. }
  split; [exact Hd |].
  split.
  { intros E. unfold Dashboard.toggleSort.
    now rewrite String.eqb_refl, E. }
  split.
  { intros E. unfold Dashboard.toggleSort.
    now rewrite String.eqb_refl, E. }
  split; [now apply toggleSort_twice |].
  intros Hne. unfold Dashboard.toggleSort.
  destruct (String.eqb_spec (Dashboard.sortKey st) key) as [E | _];
    [congruence | reflexivity].
Qed.

Lemma toggleSort_cycles_witness :
  Dashboard.sortDirection
    (fold_left (fun st k => Dashboard.toggleSort k st)
               ["name"; "count"; "count"] (Dashboard.initial "count"))
  = "asc"
  /\ Dashboard.toggleSort "count"
       (fold_left (fun st k => Dashboard.toggleSort k st)
                  ["name"; "count"; "count"] (Dashboard.initial "count"))
     = {| Dashboard.sortKey := "count"; Dashboard.sortDirection := "desc" |}
  /\ "name" <> "count"
  /\ Dashboard.toggleSort "name"
       (fold_left (fun st k => Dashboard.toggleSort k st)
                  ["name"; "count"; "count"] (Dashboard.initial "count"))
     = {| Dashboard.sortKey := "name"; Dashboard.sortDirection := "desc" |}.
Proof.
  assert (Ha : Dashboard.sortDirection
                 (fold_left (fun st k => Dashboard.toggleSort k st)
                            ["name"; "count"; "count"]
                            (Dashboard.initial "count")) = "asc")
    by reflexivity.
  assert (Hn : "name" <> "count") by discriminate.
  destruct (toggleSort_cycles "count" ["name"; "count"; "count"] "name")
    as (_ & _ & Hflip & _ & Hother).
  split; [exact Ha | split; [exact (Hflip Ha) | split; [exact Hn |]]].
  exact (Hother Hn).
Defined.

Lemma in_remove c x cl : In c (DarkMode.remove x cl) <-> In c cl /\ c <> x.
Proof.
  unfold DarkMode.remove. rewrite filter_In.
  destruct (String.eqb_spec c x); simpl; intuition congruence.
Qed.

(** X17, dark mode.  Once the effect has run, the mode read at the next
    start is the current mode, the class [dark] is on the document
    element exactly in dark mode, the other classes are as they were, and
    running the effect again changes nothing; two clicks give back the
    mode. *)
Theorem dark_mode_is_kept :
  forall darkMode b,
    let b' := DarkMode.effect darkMode b in
    DarkMode.init b' = darkMode
    /\ (In "dark" (DarkMode.classes b') <-> darkMode = true)
    /\ (forall c, c <> "dark" ->
                  (In c (DarkMode.classes b') <-> In c (DarkMode.classes b)))
    /\ DarkMode.effect darkMode b' = b'
    /\ DarkMode.click (DarkMode.click darkMode) = darkMode.
Proof.
  intros darkMode b b'. subst b'. unfold DarkMode.effect, DarkMode.init.
  destruct darkMode; simpl.
  - split; [reflexivity |]. split; [| split; [| split]].
    + rewrite in_add. tauto.
    + intros c Hc. rewrite in_add. tauto.
    + f_equal. apply add_present, in_add. now left.
    + reflexivity.
  - split; [reflexivity |]. split; [| split; [| split]].
    + rewrite in_remove. split; [tauto | discriminate].
    + intros c Hc. rewrite in_remove. tauto.
    + f_equal. unfold DarkMode.remove.
      induction (DarkMode.classes b) as [| c r IH]; simpl; [reflexivity |].
      destruct (String.eqb c "dark") eqn:E; simpl; [exact IH |].
      rewrite E. simpl. now rewrite IH.
    + reflexivity.
Qed.

Lemma dark_mode_is_kept_witness :
  "app" <> "dark"
  /\ (In "app" (DarkMode.classes
                  (DarkMode.effect true
                     {| DarkMode.stored := None;
                        DarkMode.classes := ["app"] |}))
      <-> In "app" ["app"]).
Proof.
  assert (H : "app" <> "dark") by discriminate.
  split; [exact H |].
  apply (proj1 (proj2 (proj2 (dark_mode_is_kept true
                                {| DarkMode.stored := None;
                                   DarkMode.classes := ["app"] |})))
               "app" H).
Defined.

(** ** The date handed to [Date] *)

Lemma split_on_none sep s :
  all_chars (fun c => negb (Ascii.eqb c sep)) s = true ->
  split_on sep s = [s].
Proof.
  unfold all_chars. induction s as [| c r IH]; simpl; [reflexivity |].
  intros H. apply andb_true_iff in H as [Hc Hr].
  apply negb_true_iff in Hc. rewrite Hc, (IH Hr). reflexivity.
Qed.

Lemma split_on_first sep a b :
  all_chars (fun c => negb (Ascii.eqb c sep)) a = true ->
  split_on sep (a ++ String sep b) = a :: split_on sep b.
Proof.
  unfold all_chars. induction a as [| c r IH]; simpl.
  - intros _. now rewrite Ascii.eqb_refl.
  - intros H. apply andb_true_iff in H as [Hc Hr].
    apply negb_true_iff in Hc. rewrite Hc, (IH Hr). reflexivity.
Qed.

Lemma all_chars_weaken (p q : ascii -> bool) s :
  (forall c, p c = true -> q c = true) ->
  all_chars p s = true -> all_chars q s = true.
Proof.
  unfold all_chars. intros Hpq. induction s as [| c r IH]; simpl;
    [reflexivity |].
  intros H. apply andb_true_iff in H as [Hc Hr].
  now rewrite (Hpq c Hc), (IH Hr).
Qed.

Lemma all_chars_app p a b :
  all_chars p (a ++ b) = all_chars p a && all_chars p b.
Proof.
  unfold all_chars. induction a as [| c r IH]; simpl; [reflexivity |].
  now rewrite IH, andb_assoc.
Qed.

Lemma append_assoc (a b c : string) : ((a ++ b) ++ c = a ++ (b ++ c))%string.
Proof. induction a as [| x r IH]; simpl; [reflexivity | now rewrite IH]. Qed.

(** X18, date of a timestamp.  For a [title] of the form
    [day.month.year rest], where the three parts have neither dot nor
    space, [parseDate] hands [year-month-day] to [Date] and does not look
    at the rest; for a [title] without dot and space it hands over
    [undefined-undefined-] and the title. *)
Theorem parseDate_reorders_the_date :
  forall new_Date day month year rest,
    let plain := fun c => negb (Ascii.eqb c ".") && negb (Ascii.eqb c " ") in
    all_chars plain day = true ->
    all_chars plain month = true ->
    all_chars plain year = true ->
    parseDate new_Date (day ++ "." ++ month ++ "." ++ year ++ " " ++ rest)
    = new_Date (year ++ "-" ++ month ++ "-" ++ day)
    /\ parseDate new_Date day = new_Date ("undefined-undefined-" ++ day).
Proof.
  intros new_Date day month year rest plain Hd Hm Hy.
  assert (Hdot : forall s, all_chars plain s = true ->
                           all_chars (fun c => negb (Ascii.eqb c ".")) s
                           = true).
  { intros s. apply all_chars_weaken. intros c H.
    now apply andb_true_iff in H as [H _]. }
  assert (Hsp : forall s, all_chars plain s = true ->
                          all_chars (fun c => negb (Ascii.eqb c " ")) s
                          = true).
  { intros s. apply all_chars_weaken. intros c H.
    now apply andb_true_iff in H as [_ H]. }
  split.
  - unfold parseDate.
    assert (E : (day ++ "." ++ month ++ "." ++ year ++ " " ++ rest)
                = ((day ++ "." ++ month ++ "." ++ year)
                     ++ String " " rest)).
    { change (day ++ "." ++ month ++ "." ++ year)
        with (day ++ String "." (month ++ String "." year)).
      rewrite append_assoc. simpl. rewrite append_assoc. reflexivity. }
    rewrite E, split_on_first.
    + cbn [hd].
      change (day ++ "." ++ month ++ "." ++ year)
        with (day ++ String "." (month ++ String "." year)).
      rewrite (split_on_first "." day) by now apply Hdot.
      rewrite (split_on_first "." month) by now apply Hdot.
      rewrite (split_on_none "." year) by now apply Hdot.
      reflexivity.
    + change (day ++ "." ++ month ++ "." ++ year)
        with (day ++ String "." (month ++ String "." year)).
      rewrite all_chars_app. cbn [all_chars list_ascii_of_string forallb].
      fold (all_chars (fun c => negb (Ascii.eqb c " "))
                      (month ++ String "." year)).
      rewrite all_chars_app. cbn [all_chars list_ascii_of_string forallb].
      fold (all_chars (fun c => negb (Ascii.eqb c " ")) year).
      rewrite (Hsp _ Hd), (Hsp _ Hm), (Hsp _ Hy). reflexivity.
  - unfold parseDate.
    rewrite (split_on_none " " day) by now apply Hsp.
    cbn [hd]. rewrite (split_on_none "." day) by now apply Hdot.
    reflexivity.
Qed.

Lemma parseDate_reorders_the_date_witness :
  parseDate UtcDate.new_Date
            ("05" ++ "." ++ "01" ++ "." ++ "2024" ++ " " ++ "10:00:00 UTC+01:00")
  = UtcDate.new_Date ("2024" ++ "-" ++ "01" ++ "-" ++ "05").
Proof.
  apply (proj1 (parseDate_reorders_the_date UtcDate.new_Date
                  "05" "01" "2024" "10:00:00 UTC+01:00"
                  eq_refl eq_refl eq_refl)).
Defined.

(** ** Trimmed names and lower-case words *)

Lemma trim_start_starts s : starts_ws (trim_start s) = false.
Proof.
  induction s as [| c r IH]; simpl; [reflexivity |].
  destruct (is_ws c) eqn:E; [exact IH | simpl; exact E].
Qed.

Lemma trim_end_starts s : starts_ws s = false -> starts_ws (trim_end s) = false.
Proof.
  destruct s as [| c r]; simpl; [reflexivity |].
  intros E. rewrite E. simpl. exact E.
Qed.

Lemma trim_end_ends s : ends_ws (trim_end s) = false.
Proof.
  induction s as [| c r IH]; [reflexivity |].
  cbn [trim_end]. destruct (is_ws c && is_empty (trim_end r)) eqn:E;
    [reflexivity |].
  cbn [ends_ws]. destruct (trim_end r) as [| c' r'] eqn:Er; [| exact IH].
  simpl in E. now rewrite andb_true_r in E.
Qed.

(** The result of [trim] neither begins nor ends with white space, and
    trimming it again changes nothing. *)
Lemma trim_trimmed s :
  starts_ws (trim s) = false /\ ends_ws (trim s) = false.
Proof.
  unfold trim. split.
  - apply trim_end_starts, trim_start_starts.
  - apply trim_end_ends.
Qed.

Lemma trim_start_fixed s : starts_ws s = false -> trim_start s = s.
Proof. destruct s as [| c r]; simpl; [reflexivity |]. now intros ->. Qed.

Lemma trim_end_fixed s : ends_ws s = false -> trim_end s = s.
Proof.
  induction s as [| c r IH]; [reflexivity |].
  cbn [trim_end ends_ws]. destruct r as [| c' r'].
  - simpl. now intros ->.
  - intros H. rewrite (IH H). simpl. now rewrite andb_false_r.
Qed.

Lemma trim_idempotent s : trim (trim s) = trim s.
Proof.
  destruct (trim_trimmed s) as [Hs He]. unfold trim at 1.
  now rewrite (trim_start_fixed _ Hs), (trim_end_fixed _ He).
Qed.

Lemma split_ws_tokens p s :
  all_chars p s = true ->
  Forall (fun tok => all_chars (fun c => p c && negb (is_ws c)) tok = true)
         (split_ws s).
Proof.
  unfold all_chars. induction s as [| c r IH]; simpl.
  - intros _. constructor; [reflexivity | constructor].
  - intros H. apply andb_true_iff in H as [Hc Hr]. specialize (IH Hr).
    destruct (is_ws c) eqn:E.
    + destruct (starts_ws r); [exact IH |].
      constructor; [reflexivity | exact IH].
    + destruct (split_ws r) as [| t ts]; inversion IH; subst.
      * constructor; [| constructor]. simpl. now rewrite Hc, E.
      * constructor; [| assumption]. simpl. rewrite Hc, E. assumption.
Qed.

Lemma lower_char_not_upper c : in_range 65 90 (lower_char c) = false.
Proof. destruct c as [[] [] [] [] [] [] [] []]; reflexivity. Qed.

Lemma toLowerCase_not_upper s :
  all_chars (fun c => negb (in_range 65 90 c)) (toLowerCase s) = true.
Proof.
  unfold all_chars. induction s as [| c r IH]; simpl; [reflexivity |].
  now rewrite lower_char_not_upper, IH.
Qed.

Lemma words_of_shape t w :
  In w (words_of t) ->
  all_chars (fun c => negb (in_range 65 90 c) && negb (is_ws c)) w = true.
Proof.
  unfold words_of. intros H. apply filter_In in H as [H _].
  pose proof (split_ws_tokens _ _ (toLowerCase_not_upper t)) as Hf.
  rewrite Forall_forall in Hf. now apply Hf.
Qed.

Lemma words_shape messages w :
  In w (words messages) ->
  all_chars (fun c => negb (in_range 65 90 c) && negb (is_ws c)) w = true.
Proof.
  unfold words. intros H. apply in_flat_map in H as [msg [_ H]].
  destruct (body msg); [| contradiction]. eapply words_of_shape, H.
Qed.

Lemma senders_trimmed messages name :
  In name (senders messages) ->
  starts_ws name = false /\ ends_ws name = false /\ trim name = name.
Proof.
  unfold senders. intros H. apply in_flat_map in H as [msg [_ H]].
  unfold sender in H. destruct (from_name msg) as [raw |]; [| contradiction].
  destruct H as [<- | []]. destruct (trim_trimmed raw) as [Hs He].
  repeat split; [exact Hs | exact He | apply trim_idempotent].
Qed.

(** X19, shape of the keys.  No user name that is a key of [messagesByUser]
    begins or ends with white space, and no word listed in [topWords], of
    a document or of a batch, contains white space or one of the letters
    [A] to [Z]. *)
Theorem names_are_trimmed_and_words_lower_case :
  forall new_Date,
    (forall messages name,
        In name (keys (PerDoc.messagesByUser (analyze new_Date messages))) ->
        starts_ws name = false /\ ends_ws name = false /\ trim name = name)
    /\ (forall messages e,
          In e (PerDoc.topWords (analyze new_Date messages)) ->
          all_chars (fun c => negb (in_range 65 90 c) && negb (is_ws c))
                    (fst e) = true)
    /\ (forall fileContents e,
          In e (Agg.topWords (aggregateMetrics new_Date fileContents)) ->
          all_chars (fun c => negb (in_range 65 90 c) && negb (is_ws c))
                    (fst e) = true).
Proof.
  intros new_Date. split; [| split].
  - intros messages name H. apply (senders_trimmed messages).
    now apply in_userCounts.
  - intros messages e H. eapply words_shape, topWords_keys, H.
  - intros fileContents e H.
    destruct (ranking_facts 50
                (Acc.wordFrequency (aggregate new_Date fileContents)))
      as (_ & _ & Hin & _).
    apply Hin in H. apply (in_map fst) in H.
    fold (created (Acc.wordFrequency (aggregate new_Date fileContents))) in H.
    rewrite aggregated_wordFrequency in H.
    apply in_created_add_counts_all in H as [l [Hl He]].
    rewrite successes_processed, map_map in Hl.
    apply in_map_iff in Hl as [msgs [<- _]].
    apply in_map_iff in He as [e' [E He']]. rewrite <- E.
    eapply words_shape, topWords_keys, He'.
Qed.

Lemma names_are_trimmed_and_words_lower_case_witness :
  In ("good", 1)
     (PerDoc.topWords
        (analyze UtcDate.new_Date [Fixture.wrote "Good  MORNING"]))
  /\ all_chars (fun c => negb (in_range 65 90 c) && negb (is_ws c))
               (fst ("good", 1)) = true.
Proof.
  assert (H : In ("good", 1)
                 (PerDoc.topWords
                    (analyze UtcDate.new_Date
                             [Fixture.wrote "Good  MORNING"])))
    by (vm_compute; now left).
  split; [exact H |].
  apply (proj1 (proj2 (names_are_trimmed_and_words_lower_case
                         UtcDate.new_Date))
               [Fixture.wrote "Good  MORNING"] ("good", 1) H).
Defined.

(** ** The messages of a user on a day *)

Lemma get2_count_user_date new_Date name date o msg :
  get2 name date (count_user_date new_Date o msg)
  = get2 name date o
    + (if is_key name (sender msg) && is_key date (date_key new_Date msg)
       then 1 else 0).
Proof.
  unfold count_user_date, date_key, get2.
  destruct (sender msg) as [n |]; simpl; [| lia].
  destruct (dated msg) as [[de fullDate] |];
    [| rewrite andb_false_r; lia].
  destruct (toISODate (parseDate new_Date fullDate)) as [d |]; simpl;
    [| rewrite andb_false_r; lia].
  destruct (String.eqb n name) eqn:En.
  - apply String.eqb_eq in En. subst n. rewrite lookup_set_eq, get0_bump.
    simpl. destruct (lookup name o) as [inner |];
      destruct (String.eqb d date); unfold get0; simpl; lia.
  - assert (Hne : n <> name) by now apply String.eqb_neq.
    rewrite (lookup_set_ne _ _ _ _ Hne). simpl. lia.
Qed.

Lemma get2_loop new_Date name date l : forall o,
  get2 name date (fold_left (count_user_date new_Date) l o)
  = get2 name date o
    + count_of (fun msg => is_key name (sender msg)
                           && is_key date (date_key new_Date msg)) l.
Proof.
  rewrite <- sum_of_indicator.
  induction l as [| x r IH]; intros o; simpl; [lia |].
  rewrite IH, get2_count_user_date. lia.
Qed.

(** X20, the nested counter.  In a document in which no sender name is
    the name of an inherited property, [userMessagesByDate[name][date]]
    is the number of user messages that [name] sent and whose [title]
    gives [date]; it exceeds neither [messagesByUser[name]] nor
    [messagesByDate[date]]. *)
Theorem userMessagesByDate_is_exact :
  forall new_Date messages name date,
    plain_names messages = true ->
    let m := analyze new_Date messages in
    get2 name date (PerDoc.userMessagesByDate m)
    = count_of (fun msg => is_key name (sender msg)
                           && is_key date (date_key new_Date msg))
               (userMessages_of messages)
    /\ get2 name date (PerDoc.userMessagesByDate m)
       <= get0 name (PerDoc.messagesByUser m)
    /\ get2 name date (PerDoc.userMessagesByDate m)
       <= get0 date (PerDoc.messagesByDate m).
Proof.
  intros new_Date messages name date _ m.
  assert (E : get2 name date (PerDoc.userMessagesByDate m)
              = count_of (fun msg => is_key name (sender msg)
                                     && is_key date (date_key new_Date msg))
                         (userMessages_of messages)).
  { subst m. cbn [analyze PerDoc.userMessagesByDate].
    unfold userMessagesByDate_of. now rewrite get2_loop. }
  split; [exact E |]. rewrite E. split.
  - subst m. cbn [analyze PerDoc.messagesByUser]. rewrite get0_userCounts.
    apply count_of_le. intros x Hx. now apply andb_true_iff in Hx.
  - subst m. cbn [analyze PerDoc.messagesByDate].
    unfold messagesByDate_of.
    rewrite (get0_keyed_loop _ _ _ _ (count_date_key new_Date)).
    unfold userMessages_of. rewrite count_of_filter.
    apply count_of_le. intros x Hx.
    apply andb_true_iff in Hx as [_ Hx]. now apply andb_true_iff in Hx.
Qed.

Lemma userMessagesByDate_is_exact_witness :
  plain_names Fixture.conversation = true
  /\ get2 "ann" "2024-01-01"
          (PerDoc.userMessagesByDate
             (analyze UtcDate.new_Date Fixture.conversation))
     = count_of (fun msg => is_key "ann" (sender msg)
                            && is_key "2024-01-01"
                                      (date_key UtcDate.new_Date msg))
                (userMessages_of Fixture.conversation).
Proof.
  split; [reflexivity |].
  exact (proj1 (userMessagesByDate_is_exact
                  UtcDate.new_Date Fixture.conversation "ann" "2024-01-01"
                  eq_refl)).
Defined.

(** ** A batch of one document *)

(** Counts added to an object under keys that it does not have are listed
    after its own. *)
Lemma lookup_none_created {V} k (o : JsObject.t V) :
  ~ In k (created o) -> lookup k o = None.
Proof.
  unfold created. induction o as [| [k' v'] r IH]; simpl; [reflexivity |].
  intros H. destruct (String.eqb k' k) eqn:E.
  - apply String.eqb_eq in E. tauto.
  - apply IH. tauto.
Qed.

Lemma set_fresh {V} k (v : V) (o : JsObject.t V) :
  ~ In k (created o) -> set k v o = (o ++ [(k, v)])%list.
Proof.
  unfold created. induction o as [| [k' v'] r IH]; simpl; [reflexivity |].
  intros H. destruct (String.eqb k' k) eqn:E.
  - apply String.eqb_eq in E. tauto.
  - rewrite IH; tauto.
Qed.

Lemma add_counts_fresh l : forall o : counter,
  NoDup (created (o ++ l)%list) -> add_counts l o = (o ++ l)%list.
Proof.
  unfold add_counts, created.
  induction l as [| [k c] r IH]; intros o H; simpl.
  - now rewrite app_nil_r.
  - assert (Hk : ~ In k (created o)).
    { rewrite map_app in H. simpl in H. apply NoDup_remove_2 in H.
      intros Hin. apply H, in_app_iff. now left. }
    unfold bump, get0. rewrite (lookup_none_created _ _ Hk).
    rewrite (set_fresh _ _ _ Hk). simpl.
    rewrite IH; rewrite <- app_assoc; [reflexivity | exact H].
Qed.

(** The array-index entries of [Object.entries] are in ascending order,
    and a list in that order is left as it is. *)
Lemma insert_index_head {V} (e : string * V) l :
  Forall (fun y => index_of (fst e) <= index_of (fst y)) l ->
  insert_index e l = e :: l.
Proof.
  destruct l as [| y r]; [reflexivity |]. intros H. simpl.
  inversion H as [| ? ? Hy _]; subst.
  destruct (index_of (fst y) <? index_of (fst e)) eqn:E; [| reflexivity].
  apply Z.ltb_lt in E. lia.
Qed.

Lemma insert_index_sorted {V} (e : string * V) l :
  StronglySorted (fun a b => index_of (fst a) <= index_of (fst b)) l ->
  StronglySorted (fun a b => index_of (fst a) <= index_of (fst b))
                 (insert_index e l).
Proof.
  induction l as [| y r IH]; intros Hs; simpl.
  - constructor; constructor.
  - inversion Hs as [| ? ? Hr Hy]; subst.
    destruct (index_of (fst y) <? index_of (fst e)) eqn:E.
    + apply Z.ltb_lt in E. constructor; [now apply IH |].
      rewrite Forall_forall in *. intros z Hz.
      eapply Permutation_in in Hz; [| apply insert_index_perm].
      destruct Hz as [<- | Hz]; [lia | now apply Hy].
    + apply Z.ltb_ge in E. constructor; [assumption |].
      constructor; [lia |].
      rewrite Forall_forall in *. intros z Hz. specialize (Hy z Hz).
      cbv beta in Hy. lia.
Qed.

Lemma sort_index_sorted {V} (l : list (string * V)) :
  StronglySorted (fun a b => index_of (fst a) <= index_of (fst b))
                 (fold_right insert_index [] l).
Proof.
  induction l as [| x r IH]; simpl; [constructor |].
  now apply insert_index_sorted.
Qed.

Lemma sort_index_fixed {V} (l : list (string * V)) :
  StronglySorted (fun a b => index_of (fst a) <= index_of (fst b)) l ->
  fold_right insert_index [] l = l.
Proof.
  induction l as [| x r IH]; intros Hs; simpl; [reflexivity |].
  inversion Hs as [| ? ? Hr Hx]; subst. rewrite (IH Hr).
  now apply insert_index_head.
Qed.

Lemma filter_sorted {A} (R : A -> A -> Prop) (p : A -> bool) l :
  StronglySorted R l -> StronglySorted R (filter p l).
Proof.
  induction l as [| x r IH]; intros Hs; simpl; [constructor |].
  inversion Hs as [| ? ? Hr Hx]; subst.
  destruct (p x); [| now apply IH].
  constructor; [now apply IH |].
  rewrite Forall_forall in *. intros z Hz. apply filter_In in Hz as [Hz _].
  now apply Hx.
Qed.

Lemma filter_insert_index {V} (p : string * V -> bool) e l :
  StronglySorted (fun a b => index_of (fst a) <= index_of (fst b)) l ->
  filter p (insert_index e l)
  = if p e then insert_index e (filter p l) else filter p l.
Proof.
  induction l as [| y r IH]; intros Hs; simpl.
  - now destruct (p e).
  - inversion Hs as [| ? ? Hr Hy]; subst.
    destruct (index_of (fst y) <? index_of (fst e)) eqn:E; simpl.
    + rewrite (IH Hr). destruct (p y), (p e); simpl; try reflexivity.
      now rewrite E.
    + apply Z.ltb_ge in E. destruct (p e) eqn:Ee; [| reflexivity].
      symmetry. apply insert_index_head.
      rewrite Forall_forall. intros z Hz.
      assert (Hz' : In z (y :: r)).
      { destruct (p y); [destruct Hz as [<- | Hz]; [now left |] |];
          right; now apply filter_In in Hz as [Hz _]. }
      destruct Hz' as [<- | Hz']; [exact E |].
      rewrite Forall_forall in Hy. specialize (Hy z Hz'). cbv beta in Hy.
      lia.
Qed.

Lemma filter_sort_index {V} (p : string * V -> bool) l :
  filter p (fold_right insert_index [] l)
  = fold_right insert_index [] (filter p l).
Proof.
  induction l as [| x r IH]; simpl; [reflexivity |].
  rewrite filter_insert_index by apply sort_index_sorted.
  rewrite IH. now destruct (p x).
Qed.

Lemma filter_comm {A} (p q : A -> bool) l :
  filter p (filter q l) = filter q (filter p l).
Proof.
  induction l as [| x r IH]; simpl; [reflexivity |].
  destruct (p x) eqn:Ep, (q x) eqn:Eq; simpl;
    rewrite ?Ep, ?Eq, IH; reflexivity.
Qed.

(** [Object.entries] of the selected properties is the selection of
    [Object.entries]. *)
Lemma entries_filter {V} (p : string * V -> bool) (o : JsObject.t V) :
  filter p (entries o) = entries (filter p o).
Proof.
  unfold entries. rewrite filter_app, filter_sort_index.
  now rewrite (filter_comm p), (filter_comm p).
Qed.

Lemma filter_all {A} (p : A -> bool) l :
  Forall (fun x => p x = true) l -> filter p l = l.
Proof.
  induction l as [| x r IH]; intros H; simpl; [reflexivity |].
  inversion H as [| ? ? Hx Hr]; subst. now rewrite Hx, IH.
Qed.

Lemma filter_none {A} (p : A -> bool) l :
  Forall (fun x => p x = false) l -> filter p l = [].
Proof.
  induction l as [| x r IH]; intros H; simpl; [reflexivity |].
  inversion H as [| ? ? Hx Hr]; subst. now rewrite Hx, IH.
Qed.

Lemma entries_fixed {V} (a b : list (string * V)) :
  Forall (fun e => is_index (fst e) = true) a ->
  StronglySorted (fun x y => index_of (fst x) <= index_of (fst y)) a ->
  Forall (fun e => is_index (fst e) = false) b ->
  entries (a ++ b)%list = (a ++ b)%list.
Proof.
  intros Ha Hs Hb. unfold entries. rewrite !filter_app.
  rewrite (filter_all _ a Ha), (filter_none _ b Hb), app_nil_r.
  rewrite (filter_none (fun e => negb (is_index (fst e))) a),
    (filter_all (fun e => negb (is_index (fst e))) b).
  - simpl. now rewrite (sort_index_fixed _ Hs).
  - eapply Forall_impl; [| exact Hb]. cbv beta. now intros e ->.
  - eapply Forall_impl; [| exact Ha]. cbv beta. now intros e ->.
Qed.

Lemma sorted_app_l {A} (R : A -> A -> Prop) l1 l2 :
  StronglySorted R (l1 ++ l2) -> StronglySorted R l1.
Proof.
  induction l1 as [| x r IH]; simpl; intros Hs; [constructor |].
  inversion Hs as [| ? ? Hr Hx]; subst. constructor; [now apply IH |].
  apply Forall_app in Hx. tauto.
Qed.

(** The first entries of [Object.entries(o)], kept in a new object in that
    order, are listed by [Object.entries] in the same order. *)
Lemma entries_prefix_fixed {V} (o : JsObject.t V) p r :
  entries o = (p ++ r)%list -> entries p = p.
Proof.
  intros E.
  assert (Ha : Forall (fun e : string * V => is_index (fst e) = true)
                      (fold_right insert_index []
                         (filter (fun e => is_index (fst e)) o))).
  { rewrite Forall_forall. intros e He.
    eapply Permutation_in in He; [| apply sort_index_perm].
    now apply filter_In in He. }
  assert (Hb : Forall (fun e : string * V => is_index (fst e) = false)
                      (filter (fun e => negb (is_index (fst e))) o)).
  { rewrite Forall_forall. intros e He. apply filter_In in He as [_ He].
    now apply negb_true_iff. }
  pose proof (sort_index_sorted (filter (fun e : string * V =>
                                           is_index (fst e)) o)) as Hs.
  unfold entries in E. apply app_eq_app in E as [l [[E1 E2] | [E1 E2]]].
  - rewrite E1 in Ha, Hs. apply Forall_app in Ha as [Ha _].
    apply sorted_app_l in Hs.
    pose proof (entries_fixed p [] Ha Hs (Forall_nil _)) as Ep.
    now rewrite app_nil_r in Ep.
  - rewrite E2 in Hb. apply Forall_app in Hb as [Hb _].
    rewrite E1. now apply entries_fixed.
Qed.

Lemma entries_entries {V} (o : JsObject.t V) : entries (entries o) = entries o.
Proof. apply (entries_prefix_fixed o _ []). now rewrite app_nil_r. Qed.

(** Two lists in order of decreasing count with the same pairs, in the
    same order, under every count are the same list. *)
Lemma sorted_ties_unique l1 : forall l2,
  non_increasing l1 -> non_increasing l2 ->
  (forall c, ties c l1 = ties c l2) -> l1 = l2.
Proof.
  unfold non_increasing, ties.
  induction l1 as [| x r1 IH]; intros l2 H1 H2 Ht.
  - destruct l2 as [| y r2]; [reflexivity |].
    specialize (Ht (snd y)). simpl in Ht. rewrite Z.eqb_refl in Ht.
    discriminate.
  - destruct l2 as [| y r2].
    + specialize (Ht (snd x)). simpl in Ht. rewrite Z.eqb_refl in Ht.
      discriminate.
    + inversion H1 as [| ? ? Hr1 Hx]; subst.
      inversion H2 as [| ? ? Hr2 Hy]; subst.
      rewrite Forall_forall in Hx, Hy.
      assert (Exy : snd x = snd y).
      { assert (Hxy : snd x <= snd y).
        { assert (Hin : In x (filter (fun e => snd e =? snd x) (y :: r2))).
          { rewrite <- Ht. simpl. rewrite Z.eqb_refl. now left. }
          apply filter_In in Hin as [[<- | Hin] _]; [lia |].
          now apply Hy. }
        assert (Hyx : snd y <= snd x).
        { assert (Hin : In y (filter (fun e => snd e =? snd y) (x :: r1))).
          { rewrite Ht. simpl. rewrite Z.eqb_refl. now left. }
          apply filter_In in Hin as [[<- | Hin] _]; [lia |].
          now apply Hx. }
        lia. }
      pose proof (Ht (snd x)) as Hc. simpl in Hc.
      rewrite Z.eqb_refl, <- Exy, Z.eqb_refl in Hc.
      injection Hc as Hh Hc. subst y. f_equal.
      apply IH; try assumption. intros c. specialize (Ht c). simpl in Ht.
      destruct (snd x =? c); [now injection Ht | exact Ht].
Qed.

(** Ranking a ranking again gives the ranking: the pairs of
    [slice0 n (sort_desc (entries o))], kept in a new object in that order,
    are sorted into the same list. *)
Lemma sort_desc_of_ranking n (o : counter) :
  let top := slice0 n (sort_desc (entries o)) in
  sort_desc (entries top) = top.
Proof.
  intros top. destruct (ranking_facts n o) as (_ & Hs & _ & _ & Ht).
  fold top in Hs, Ht.
  apply sorted_ties_unique; [apply sort_desc_sorted | exact Hs |].
  intros c. rewrite ties_sort_desc. unfold ties. rewrite entries_filter.
  destruct (Ht c) as [rest E]. unfold ties in E. rewrite entries_filter in E.
  apply (entries_prefix_fixed _ _ _ E).
Qed.

Lemma ranking_keys_distinct n (o : counter) :
  well_formed o -> NoDup (created (slice0 n (sort_desc (entries o)))).
Proof.
  intros H. unfold created, slice0. rewrite <- firstn_map.
  apply NoDup_firstn.
  eapply Permutation_NoDup; [| exact H]. unfold created.
  apply Permutation_sym, Permutation_map.
  eapply perm_trans; [apply sort_desc_perm | apply entries_perm].
Qed.

Lemma add_counts_ranking n (o : counter) :
  well_formed o ->
  add_counts (slice0 n (sort_desc (entries o))) []
  = slice0 n (sort_desc (entries o)).
Proof. intros H. apply add_counts_fresh, ranking_keys_distinct, H. Qed.

Lemma add_counts_entries (o : counter) :
  well_formed o -> entries (add_counts (entries o) []) = entries o.
Proof.
  intros H. rewrite add_counts_fresh; [apply entries_entries |].
  simpl. now apply NoDup_keys.
Qed.

Lemma slice0_all {A} n (l : list A) :
  (List.length l <= n)%nat -> slice0 n l = l.
Proof. apply firstn_all2. Qed.

Lemma first_occurrences_distinct l : forall seen,
  NoDup l -> (forall x, In x l -> ~ In x seen) ->
  first_occurrences seen l = l.
Proof.
  induction l as [| x r IH]; intros seen Hl Hs; simpl; [reflexivity |].
  inversion Hl as [| ? ? Hx Hr]; subst.
  destruct (JsSet.has x seen) eqn:E.
  - exfalso. apply (Hs x); [now left |].
    unfold JsSet.has in E. apply existsb_exists in E as [y [Hy E]].
    apply String.eqb_eq in E. now subst y.
  - f_equal. apply IH; [assumption |]. intros y Hy Hin.
    apply in_app_iff in Hin as [Hin | [<- | []]]; [| tauto].
    apply (Hs y); [now right | assumption].
Qed.

Lemma add_all_distinct l : NoDup l -> JsSet.add_all l [] = l.
Proof.
  intros H. rewrite add_all_first_occurrences. simpl.
  apply first_occurrences_distinct; [assumption | intros x _ []].
Qed.

(** X21, a batch of one document.  When the only content of a batch is a
    document that is analysed, and no sender name and no counted word of
    it is the name of an inherited property, the batch result repeats the
    analysis of the document: the three message counts, [uniqueUsers],
    the entries of
    the five counters, [datesCovered], [averageMessageLength], [topWords],
    [uniqueLinks] and [userTypes] are those of the document, and
    [topMentions] is its first twenty mentions. *)
Theorem batch_of_one_document :
  forall new_Date messages,
    plain_names messages = true ->
    plain_words messages = true ->
    let m := analyze new_Date messages in
    let agg := aggregateMetrics new_Date [Markup messages] in
    Agg.totalMessages agg = PerDoc.totalMessages m
    /\ Agg.userMessages agg = PerDoc.userMessages m
    /\ Agg.serviceMessages agg = PerDoc.serviceMessages m
    /\ Agg.uniqueUsers agg = PerDoc.uniqueUsers m
    /\ entries (Agg.messagesByUser agg) = entries (PerDoc.messagesByUser m)
    /\ entries (Agg.messagesByHour agg) = entries (PerDoc.messagesByHour m)
    /\ entries (Agg.messagesByDayOfWeek agg)
       = entries (PerDoc.messagesByDayOfWeek m)
    /\ entries (Agg.messagesByDate agg) = entries (PerDoc.messagesByDate m)
    /\ entries (Agg.reactionsByUser agg)
       = entries (PerDoc.reactionsByUser m)
    /\ Agg.datesCovered agg = PerDoc.datesCovered m
    /\ Agg.averageMessageLength agg = PerDoc.averageMessageLength m
    /\ Agg.topWords agg = PerDoc.topWords m
    /\ Agg.topMentions agg = slice0 20 (PerDoc.topMentions m)
    /\ Agg.uniqueLinks agg = PerDoc.uniqueLinks m
    /\ Agg.userTypes agg = PerDoc.userTypes m.
Proof.
  intros new_Date messages _ _ m agg.
  assert (Ea : agg = finish (merge aggregated0 m)) by reflexivity.
  rewrite Ea. clear Ea agg. subst m.
  cbn [finish merge aggregated0 analyze
       Agg.totalMessages Agg.userMessages Agg.serviceMessages
       Agg.uniqueUsers Agg.messagesByUser Agg.messagesByHour
       Agg.messagesByDayOfWeek Agg.messagesByDate Agg.reactionsByUser
       Agg.datesCovered Agg.averageMessageLength Agg.topWords
       Agg.topMentions Agg.uniqueLinks Agg.userTypes
       Acc.totalMessages Acc.userMessages Acc.serviceMessages
       Acc.uniqueUsers Acc.messagesByUser Acc.messagesByHour
       Acc.messagesByDayOfWeek Acc.messagesByDate Acc.reactionsByUser
       Acc.datesCovered Acc.messageLengths Acc.wordFrequency Acc.mentions
       Acc.links Acc.userTypes
       PerDoc.totalMessages PerDoc.userMessages PerDoc.serviceMessages
       PerDoc.uniqueUsers PerDoc.messagesByUser PerDoc.messagesByHour
       PerDoc.messagesByDayOfWeek PerDoc.messagesByDate
       PerDoc.reactionsByUser PerDoc.datesCovered
       PerDoc.averageMessageLength PerDoc.messageLengthDistribution
       PerDoc.topWords PerDoc.topMentions PerDoc.uniqueLinks
       PerDoc.userTypes].
  split; [reflexivity |]. split; [reflexivity |]. split; [reflexivity |].
  split.
  { rewrite add_all_distinct;
      [reflexivity | apply NoDup_keys, well_formed_userCounts]. }
  split; [apply add_counts_entries, well_formed_userCounts |].
  split; [apply add_counts_entries, well_formed_hourCounts |].
  split; [apply add_counts_entries, well_formed_dayOfWeekCounts |].
  split; [apply add_counts_entries, well_formed_messagesByDate |].
  split; [apply add_counts_entries, well_formed_reactionCounts |].
  split.
  { assert (Hd : NoDup (dates_of messages)).
    { rewrite dates_of_covered. apply NoDup_add_all. constructor. }
    assert (Hs : NoDup (sort_strings (dates_of messages))).
    { eapply Permutation_NoDup;
        [apply Permutation_sym, sort_strings_perm | exact Hd]. }
    rewrite (add_all_distinct _ Hs).
    apply sort_strings_set; [exact Hs | exact Hd |].
    intros x. split; apply Permutation_in;
      [apply sort_strings_perm | apply Permutation_sym, sort_strings_perm]. }
  split; [reflexivity |].
  split.
  { rewrite (add_counts_ranking 50 _ (well_formed_words messages)).
    rewrite sort_desc_of_ranking. apply slice0_all, slice0_length. }
  split.
  { pose proof (slice0_all (List.length
                              (sort_desc (entries (mentions_of messages))))
                           (sort_desc (entries (mentions_of messages)))
                           (Nat.le_refl _)) as E.
    rewrite <- E at 1.
    rewrite (add_counts_ranking _ _ (well_formed_mentions messages)).
    rewrite sort_desc_of_ranking. now rewrite E. }
  split.
  { apply add_all_distinct. rewrite links_of_seen. apply NoDup_add_all.
    constructor. }
  apply add_all_distinct. rewrite userTypes_of_senders. apply NoDup_add_all.
  constructor.
Qed.

Lemma batch_of_one_document_witness :
  plain_names Fixture.conversation = true
  /\ plain_words Fixture.conversation = true
  /\ Agg.topWords
       (aggregateMetrics UtcDate.new_Date [Markup Fixture.conversation])
     = PerDoc.topWords (analyze UtcDate.new_Date Fixture.conversation).
Proof.
  split; [reflexivity | split; [reflexivity |]].
  destruct (batch_of_one_document UtcDate.new_Date Fixture.conversation
                                  eq_refl eq_refl)
    as (_ & _ & _ & _ & _ & _ & _ & _ & _ & _ & _ & H & _).
  exact H.
Defined.
